(** * SERVMON: transport pool, monitor workers, file channel and broadcast hub

    A shallow embedding of the Go sources of the monitoring service.
    Pointers are locations into explicit heaps, Go maps are [gmap]s, Go
    errors are their message strings, and everything that comes from the
    network (dial results, sub-channel opens, command output, directory
    walks) enters through explicit oracle arguments. *)

From Stdlib Require Import ZArith String Ascii List Lia Bool.
From stdpp Require Import gmap strings list fin_maps.

Open Scope string_scope.
Open Scope Z_scope.

(** ** Go runtime conventions *)

(** A Go [error]: [None] is [nil], [Some msg] carries [err.Error()]. *)
Definition error := string.

(** A pair [(value, error)] as Go functions return it. *)
Inductive result (A : Type) : Type :=
| Ok (a : A)
| Err (e : error).
Arguments Ok {A} a.
Arguments Err {A} e.

Definition is_ok {A} (r : result A) : bool :=
  match r with Ok _ => true | Err _ => false end.

(** Heap locations stand for Go pointers. *)
Definition loc := nat.

(** Signed 64-bit arithmetic ([int] and [int64] on the supported targets). *)
Definition wrap64 (z : Z) : Z := (z + 2 ^ 63) mod 2 ^ 64 - 2 ^ 63.
Definition add64 (a b : Z) : Z := wrap64 (a + b).
Definition in_int64 (z : Z) : Prop := - 2 ^ 63 <= z < 2 ^ 63.

(** ** internal/models *)

Inductive ServerStatus := StatusOnline | StatusOffline | StatusError.

Record Server := {
  ID : N;
  IPAddress : string;
  Password : string;
  Port : string;
  Username : string;
  Name : string;
  Status : ServerStatus
}.

Definition set_Status (s : Server) (st : ServerStatus) : Server :=
  {| ID := ID s; IPAddress := IPAddress s; Password := Password s;
     Port := Port s; Username := Username s; Name := Name s; Status := st |}.

(** ** internal/ssh: SSHClient *)

(** An established transport ([*ssh.Client]); [None] below is a nil pointer. *)
Definition conn := nat.

Record SSHClient := {
  Server_ : Server;
  client : option conn;
  connected : bool;
  lastUsed : Z;
  password : string;
  CurrentDir : string
}.

Definition set_connected (c : SSHClient) (b : bool) : SSHClient :=
  {| Server_ := Server_ c; client := client c; connected := b;
     lastUsed := lastUsed c; password := password c; CurrentDir := CurrentDir c |}.

Definition set_lastUsed (c : SSHClient) (t : Z) : SSHClient :=
  {| Server_ := Server_ c; client := client c; connected := connected c;
     lastUsed := t; password := password c; CurrentDir := CurrentDir c |}.

Definition set_CurrentDir (c : SSHClient) (d : string) : SSHClient :=
  {| Server_ := Server_ c; client := client c; connected := connected c;
     lastUsed := lastUsed c; password := password c; CurrentDir := d |}.

(** What the transport answers to one [Execute]: either [NewSession]
    fails, or the sub-channel runs the command and [session.Run] returns
    [run_err] with the two captured buffers. *)
Inductive exec_outcome :=
| SessionFails (e : error)
| Ran (run_err : option error) (stdout stderr : string).

(** The remote end, seen from one transport: the answer to each command. *)
Definition transport := conn -> string -> exec_outcome.

(** [IsConnected] *)
Definition IsConnected (c : SSHClient) : bool :=
  connected c && bool_decide (client c <> None).

(** [Execute]: returns the updated client and [(stdout, err)]. *)
Definition Execute (net : transport) (now : Z) (c : SSHClient) (command : string)
  : SSHClient * result string :=
  match connected c, client c with
  | true, Some k =>
      match net k command with
      | SessionFails e =>
          (set_connected c false, Err ("failed to create session: " +:+ e))
      | Ran (Some e) _ stderr =>
          if bool_decide (stderr <> "")
          then (c, Err ("command failed: " +:+ stderr))
          else (c, Err ("command failed: " +:+ e))
      | Ran None stdout _ => (set_lastUsed c now, Ok stdout)
      end
  | _, _ => (c, Err "not connected")
  end.

(** [Close] *)
Definition SSHClient_Close (c : SSHClient) : SSHClient :=
  match client c with
  | Some _ =>
      {| Server_ := Server_ c; client := None; connected := false;
         lastUsed := lastUsed c; password := password c; CurrentDir := CurrentDir c |}
  | None => c
  end.

(** [Connect]; [dial] is [ssh.Dial] to the server's address with its password. *)
Definition dialer := Server -> string -> result conn.

Definition Connect (dial : dialer) (now : Z) (c : SSHClient) : SSHClient * option error :=
  if connected c && bool_decide (client c <> None) then (c, None)
  else match dial (Server_ c) (password c) with
       | Err e => (c, Some ("ssh dial failed: " +:+ e))
       | Ok k =>
           ({| Server_ := Server_ c; client := Some k; connected := true;
               lastUsed := now; password := password c; CurrentDir := CurrentDir c |},
            None)
       end.


(** ** strings: the few library functions the handlers use

    Strings are byte strings; only ASCII white space and ASCII letters
    are interpreted, other bytes are left alone. *)

Definition is_space (a : ascii) : bool :=
  let n := N_of_ascii a in
  ((9 <=? n)%N && (n <=? 13)%N) || (n =? 32)%N.

Fixpoint trim_left (s : string) : string :=
  match s with
  | EmptyString => EmptyString
  | String a s' => if is_space a then trim_left s' else s
  end.

Fixpoint trim_right (s : string) : string :=
  match s with
  | EmptyString => EmptyString
  | String a s' =>
      match trim_right s' with
      | EmptyString => if is_space a then EmptyString else String a EmptyString
      | r => String a r
      end
  end.

Definition TrimSpace (s : string) : string := trim_right (trim_left s).

Definition HasPrefix (s p : string) : bool := String.prefix p s.

Definition lower (a : ascii) : ascii :=
  let n := N_of_ascii a in
  if ((65 <=? n)%N && (n <=? 90)%N) then ascii_of_N (n + 32) else a.

Fixpoint ToLower (s : string) : string :=
  match s with
  | EmptyString => EmptyString
  | String a s' => String (lower a) (ToLower s')
  end.

Fixpoint Contains (s sub : string) : bool :=
  String.prefix sub s ||
  match s with
  | EmptyString => false
  | String _ s' => Contains s' sub
  end.

(** [strings.Split(s, "\n")] *)
Fixpoint Split_nl (s : string) : list string :=
  match s with
  | EmptyString => [EmptyString]
  | String a s' =>
      if Ascii.eqb a "010"%char then EmptyString :: Split_nl s'
      else match Split_nl s' with
           | h :: t => String a h :: t
           | [] => [String a EmptyString]
           end
  end.

(** The line feed. *)
Definition nl : string := String "010"%char EmptyString.

(** ** internal/ssh: SSHPool

    [ssh_heap] holds the [SSHClient] objects, [ssh_clients] is the map
    [Pool.clients] from server id to client pointer. *)

Record SSHState := {
  ssh_heap : gmap loc SSHClient;
  ssh_clients : gmap N loc
}.

Definition ssh_store (s : SSHState) (l : loc) (c : SSHClient) : SSHState :=
  {| ssh_heap := <[l := c]> (ssh_heap s); ssh_clients := ssh_clients s |}.

(** The pooled client of a server that is still marked connected. *)
Definition ssh_cached (s : SSHState) (id : N) : option (loc * SSHClient) :=
  match ssh_clients s !! id with
  | Some l =>
      match ssh_heap s !! l with
      | Some c => if connected c then Some (l, c) else None
      | None => None
      end
  | None => None
  end.

(** [SSHPool.GetClient] *)
Definition SSHPool_GetClient (dial : dialer) (now : Z) (s : SSHState)
    (server : Server) (pw : string) : SSHState * result loc :=
  match ssh_cached s (ID server) with
  | Some (l, c) => (ssh_store s l (set_lastUsed c now), Ok l)
  | None =>
      let fresh_client :=
        {| Server_ := server; client := None; connected := false;
           lastUsed := 0; password := pw; CurrentDir := "" |} in
      match Connect dial now fresh_client with
      | (_, Some e) => (s, Err e)
      | (c, None) =>
          let l := fresh (dom (ssh_heap s)) in
          ({| ssh_heap := <[l := c]> (ssh_heap s);
              ssh_clients := <[ID server := l]> (ssh_clients s) |}, Ok l)
      end
  end.

(** [SSHPool.RemoveClient] *)
Definition SSHPool_RemoveClient (s : SSHState) (serverID : N) : SSHState :=
  match ssh_clients s !! serverID with
  | Some l =>
      {| ssh_heap := alter SSHClient_Close l (ssh_heap s);
         ssh_clients := delete serverID (ssh_clients s) |}
  | None => s
  end.

(** ** internal/ssh: MetricCollector *)

(** A [float64] of a snapshot, kept symbolic: the zero value, a value a
    probe parsed (its bit pattern), or the quotient
    [float64(used) / float64(total) * 100]. *)
Inductive float64 :=
| FZero
| FParsed (bits : Z)
| FPercent (used total : Z).

Record MetricSnapshot := {
  ServerID : N;
  ServerName : string;
  CPUUsage : float64;
  MemTotal : Z;
  MemUsed : Z;
  MemFree : Z;
  MemPercent : float64;
  DiskTotal : Z;
  DiskUsed : Z;
  DiskFree : Z;
  DiskPercent : float64;
  NetRX : Z;
  NetTX : Z;
  Uptime : Z;
  Timestamp : Z
}.

(** The five probes of [CollectAll]: each runs commands on the client
    (and may change it) and returns its values or an error. *)
Record Probes := {
  CollectCPU : SSHClient -> SSHClient * result float64;
  CollectMemory : SSHClient -> SSHClient * result (Z * Z * Z);
  CollectDisk : SSHClient -> SSHClient * result (Z * Z * Z);
  CollectNetwork : SSHClient -> SSHClient * result (Z * Z);
  CollectUptime : SSHClient -> SSHClient * result Z
}.

(** The field updates of [CollectAll], one per probe. *)
Definition with_cpu (r : result float64) (m : MetricSnapshot) : MetricSnapshot :=
  match r with
  | Err _ => m
  | Ok cpu =>
      {| ServerID := ServerID m; ServerName := ServerName m; CPUUsage := cpu;
         MemTotal := MemTotal m; MemUsed := MemUsed m; MemFree := MemFree m;
         MemPercent := MemPercent m;
         DiskTotal := DiskTotal m; DiskUsed := DiskUsed m; DiskFree := DiskFree m;
         DiskPercent := DiskPercent m;
         NetRX := NetRX m; NetTX := NetTX m; Uptime := Uptime m;
         Timestamp := Timestamp m |}
  end.

Definition with_mem (r : result (Z * Z * Z)) (m : MetricSnapshot) : MetricSnapshot :=
  match r with
  | Err _ => m
  | Ok (memTotal, memUsed, memFree) =>
      {| ServerID := ServerID m; ServerName := ServerName m; CPUUsage := CPUUsage m;
         MemTotal := memTotal; MemUsed := memUsed; MemFree := memFree;
         MemPercent := if 0 <? memTotal then FPercent memUsed memTotal else MemPercent m;
         DiskTotal := DiskTotal m; DiskUsed := DiskUsed m; DiskFree := DiskFree m;
         DiskPercent := DiskPercent m;
         NetRX := NetRX m; NetTX := NetTX m; Uptime := Uptime m;
         Timestamp := Timestamp m |}
  end.

Definition with_disk (r : result (Z * Z * Z)) (m : MetricSnapshot) : MetricSnapshot :=
  match r with
  | Err _ => m
  | Ok (diskTotal, diskUsed, diskFree) =>
      {| ServerID := ServerID m; ServerName := ServerName m; CPUUsage := CPUUsage m;
         MemTotal := MemTotal m; MemUsed := MemUsed m; MemFree := MemFree m;
         MemPercent := MemPercent m;
         DiskTotal := diskTotal; DiskUsed := diskUsed; DiskFree := diskFree;
         DiskPercent := if 0 <? diskTotal then FPercent diskUsed diskTotal else DiskPercent m;
         NetRX := NetRX m; NetTX := NetTX m; Uptime := Uptime m;
         Timestamp := Timestamp m |}
  end.

Definition with_net (r : result (Z * Z)) (m : MetricSnapshot) : MetricSnapshot :=
  match r with
  | Err _ => m
  | Ok (rx, tx) =>
      {| ServerID := ServerID m; ServerName := ServerName m; CPUUsage := CPUUsage m;
         MemTotal := MemTotal m; MemUsed := MemUsed m; MemFree := MemFree m;
         MemPercent := MemPercent m;
         DiskTotal := DiskTotal m; DiskUsed := DiskUsed m; DiskFree := DiskFree m;
         DiskPercent := DiskPercent m;
         NetRX := rx; NetTX := tx; Uptime := Uptime m;
         Timestamp := Timestamp m |}
  end.

Definition with_uptime (r : result Z) (m : MetricSnapshot) : MetricSnapshot :=
  match r with
  | Err _ => m
  | Ok uptime =>
      {| ServerID := ServerID m; ServerName := ServerName m; CPUUsage := CPUUsage m;
         MemTotal := MemTotal m; MemUsed := MemUsed m; MemFree := MemFree m;
         MemPercent := MemPercent m;
         DiskTotal := DiskTotal m; DiskUsed := DiskUsed m; DiskFree := DiskFree m;
         DiskPercent := DiskPercent m;
         NetRX := NetRX m; NetTX := NetTX m; Uptime := uptime;
         Timestamp := Timestamp m |}
  end.

(** The snapshot [CollectAll] starts from: identity and time stamp set,
    every metric at its zero value. *)
Definition new_snapshot (c : SSHClient) (now : Z) : MetricSnapshot :=
  {| ServerID := ID (Server_ c); ServerName := Name (Server_ c); CPUUsage := FZero;
     MemTotal := 0; MemUsed := 0; MemFree := 0; MemPercent := FZero;
     DiskTotal := 0; DiskUsed := 0; DiskFree := 0; DiskPercent := FZero;
     NetRX := 0; NetTX := 0; Uptime := 0; Timestamp := now |}.

(** [MetricCollector.CollectAll]: the client after the probes, the
    snapshot and the returned error. *)
Definition CollectAll (P : Probes) (now : Z) (c : SSHClient)
  : SSHClient * (MetricSnapshot * option error) :=
  let snapshot := new_snapshot c now in
  let '(c, cpu) := CollectCPU P c in
  let snapshot := with_cpu cpu snapshot in
  let '(c, mem) := CollectMemory P c in
  let snapshot := with_mem mem snapshot in
  let '(c, disk) := CollectDisk P c in
  let snapshot := with_disk disk snapshot in
  let '(c, net) := CollectNetwork P c in
  let snapshot := with_net net snapshot in
  let '(c, up) := CollectUptime P c in
  let snapshot := with_uptime up snapshot in
  (c, (snapshot, None)).

(** ** internal/sftp: SFTPPool *)

(** An open file-transfer channel ([*sftp.Client]). *)
Definition sftp_chan := nat.

Record SFTPClient := {
  sftp_sshClient : loc;
  sftpClient : option sftp_chan
}.

Record SFTPState := {
  sftp_heap : gmap loc SFTPClient;
  sftp_clients : gmap N loc
}.

(** [sftp.NewClient] on the transport [GetUnderlyingClient] returns. *)
Definition sftp_opener := option conn -> result sftp_chan.

(** The pooled file channel of a server whose [sftpClient] is not nil. *)
Definition sftp_cached (f : SFTPState) (id : N) : option loc :=
  match sftp_clients f !! id with
  | Some l =>
      match sftp_heap f !! l with
      | Some c => match sftpClient c with Some _ => Some l | None => None end
      | None => None
      end
  | None => None
  end.

Definition GetUnderlyingClient (s : SSHState) (l : loc) : option conn :=
  match ssh_heap s !! l with
  | Some c => client c
  | None => None
  end.

(** [SFTPPool.GetClient] *)
Definition SFTPPool_GetClient (dial : dialer) (open : sftp_opener) (now : Z)
    (s : SSHState) (f : SFTPState) (server : Server) (pw : string)
  : SSHState * SFTPState * result loc :=
  match sftp_cached f (ID server) with
  | Some l => (s, f, Ok l)
  | None =>
      match SSHPool_GetClient dial now s server pw with
      | (s', Err e) => (s', f, Err ("failed to get SSH client: " +:+ e))
      | (s', Ok sl) =>
          match open (GetUnderlyingClient s' sl) with
          | Err e => (s', f, Err ("failed to create SFTP client: " +:+ e))
          | Ok ch =>
              let l := fresh (dom (sftp_heap f)) in
              (s',
               {| sftp_heap :=
                    <[l := {| sftp_sshClient := sl; sftpClient := Some ch |}]> (sftp_heap f);
                  sftp_clients := <[ID server := l]> (sftp_clients f) |},
               Ok l)
          end
      end
  end.

(** [SFTPClient.Close] *)
Definition SFTPClient_Close (c : SFTPClient) : SFTPClient :=
  {| sftp_sshClient := sftp_sshClient c; sftpClient := None |}.

(** [SFTPPool.RemoveClient] *)
Definition SFTPPool_RemoveClient (f : SFTPState) (serverID : N) : SFTPState :=
  match sftp_clients f !! serverID with
  | Some l =>
      {| sftp_heap := alter SFTPClient_Close l (sftp_heap f);
         sftp_clients := delete serverID (sftp_clients f) |}
  | None => f
  end.

(** ** internal/sftp: the remote tree and its walker *)

(** An [os.FileInfo] as the file channel reports it. *)
Record FileStat := {
  st_name : string;
  st_size : Z;
  st_isdir : bool;
  st_mode : Z;
  st_mtime : Z
}.

(** A remote entry: its info and, for a directory, what [ReadDir] gives
    (an error, or the entries in listing order). *)
#[warnings="-register-all"] Inductive node :=
| Node (info : FileStat) (readdir_err : option error) (entries : list node).

Definition node_info (n : node) : FileStat :=
  match n with Node info _ _ => info end.

(** One [walker.Step()]: [Err()] is non-nil, or [Path()] and [Stat()]. *)
Inductive walk_step :=
| StepErr (path : string) (e : error)
| StepOk (path : string) (info : FileStat).

(** The remote file system behind one file channel. *)
Record RemoteFS := {
  fs_lstat : string -> result node;
  fs_stat : string -> result FileStat;
  fs_read : string -> result (result string);
  fs_join : string -> string -> string
}.

(** [Client.Walk(root)] stepped to the end. The walker (kr/fs, which the
    SFTP client hands out) visits the root itself first, then descends
    depth-first in listing order; a directory whose listing fails is
    stepped a second time with the error set. *)
Fixpoint walk_node (join : string -> string -> string) (path : string) (n : node)
  : list walk_step :=
  match n with
  | Node info rderr entries =>
      StepOk path info ::
      (if st_isdir info then
         match rderr with
         | Some e => [StepErr path e]
         | None =>
             (fix walk_entries (l : list node) : list walk_step :=
                match l with
                | [] => []
                | c :: l' =>
                    (walk_node join (join path (st_name (node_info c))) c
                       ++ walk_entries l')%list
                end) entries
         end
       else [])
  end.

Definition Walk (fs : RemoteFS) (root : string) : list walk_step :=
  match fs_lstat fs root with
  | Err e => [StepErr root e]
  | Ok n => walk_node (fs_join fs) root n
  end.

(** ** internal/sftp: SearchFiles and GetDirectorySize *)

Record FileInfo := {
  fi_Name : string;
  fi_Path : string;
  fi_Size : Z;
  fi_IsDir : bool;
  fi_Permissions : Z;
  fi_ModTime : Z;
  fi_Owner : string;
  fi_Group : string
}.

Record DirectorySizeResult := {
  ds_Path : string;
  ds_Size : Z;
  ds_FileCount : Z;
  ds_DirCount : Z
}.

(** The glob matcher [filepath.Match(pattern, name)] as an argument:
    [Err] is [ErrBadPattern]. *)
Definition matcher := string -> string -> result bool.

Definition search_hit (path : string) (info : FileStat) : FileInfo :=
  {| fi_Name := st_name info; fi_Path := path; fi_Size := st_size info;
     fi_IsDir := st_isdir info; fi_Permissions := st_mode info;
     fi_ModTime := st_mtime info; fi_Owner := ""; fi_Group := "" |}.

(** The loop of [SearchFiles] over the remaining steps. *)
Fixpoint search_loop (Match : matcher) (pattern : string)
    (steps : list walk_step) (results : list FileInfo) : list FileInfo :=
  match steps with
  | [] => results
  | StepErr _ _ :: rest => search_loop Match pattern rest results
  | StepOk path info :: rest =>
      let name := st_name info in
      match Match pattern name with
      | Err _ => search_loop Match pattern rest results
      | Ok matched =>
          if matched || Contains (ToLower name) (ToLower pattern) then
            let results := (results ++ [search_hit path info])%list in
            if (100 <=? length results)%nat then results
            else search_loop Match pattern rest results
          else search_loop Match pattern rest results
      end
  end.

Definition SearchFiles (Match : matcher) (fs : RemoteFS) (basePath pattern : string)
  : list FileInfo * option error :=
  (search_loop Match pattern (Walk fs basePath) [], None).

(** The loop body of [GetDirectorySize]. *)
Definition dirsize_step (r : DirectorySizeResult) (s : walk_step) : DirectorySizeResult :=
  match s with
  | StepErr _ _ => r
  | StepOk _ info =>
      if st_isdir info then
        {| ds_Path := ds_Path r; ds_Size := ds_Size r;
           ds_FileCount := ds_FileCount r; ds_DirCount := add64 (ds_DirCount r) 1 |}
      else
        {| ds_Path := ds_Path r; ds_Size := add64 (ds_Size r) (st_size info);
           ds_FileCount := add64 (ds_FileCount r) 1; ds_DirCount := ds_DirCount r |}
  end.

Definition GetDirectorySize (fs : RemoteFS) (path : string)
  : DirectorySizeResult * option error :=
  (fold_left dirsize_step (Walk fs path)
     {| ds_Path := path; ds_Size := 0; ds_FileCount := 0; ds_DirCount := 0 |},
   None).

(** [SFTPClient.ReadFileContent] *)
Definition SFTP_ReadFileContent (fs : RemoteFS) (path : string) : result string :=
  match fs_read fs path with
  | Err e => Err ("failed to open file: " +:+ e)
  | Ok (Err e) => Err ("failed to read file: " +:+ e)
  | Ok (Ok content) => Ok content
  end.

(** ** path/filepath.Match

    The matcher [SearchFiles] calls, after the Go standard library (Unix
    build), on byte strings. [ErrBadPattern] is the only error. *)

Definition ErrBadPattern : error := "syntax error in pattern".

Definition is_char (a : ascii) (c : string) : bool :=
  match c with
  | String b EmptyString => Ascii.eqb a b
  | _ => false
  end.

Definition str_empty (s : string) : bool :=
  match s with EmptyString => true | _ => false end.

(** Leading stars of a pattern. *)
Fixpoint skip_stars (p : string) : bool * string :=
  match p with
  | String c p' => if is_char c "*" then (true, snd (skip_stars p')) else (false, p)
  | EmptyString => (false, p)
  end.

(** The chunk up to the next star outside a character class. *)
Fixpoint scan_chunk (p : string) (inrange : bool) : string * string :=
  match p with
  | EmptyString => (EmptyString, EmptyString)
  | String c p' =>
      if is_char c "\" then
        match p' with
        | String d p'' =>
            let '(chunk, rest) := scan_chunk p'' inrange in
            (String c (String d chunk), rest)
        | EmptyString => (String c EmptyString, EmptyString)
        end
      else if is_char c "*" && negb inrange then (EmptyString, p)
      else
        let inrange := if is_char c "[" then true
                       else if is_char c "]" then false else inrange in
        let '(chunk, rest) := scan_chunk p' inrange in
        (String c chunk, rest)
  end.

Definition scanChunk (pattern : string) : bool * string * string :=
  let '(star, p) := skip_stars pattern in
  let '(chunk, rest) := scan_chunk p false in
  (star, chunk, rest).

(** [getEsc]: one possibly escaped character of a class. *)
Definition getEsc (chunk : string) : result (ascii * string) :=
  match chunk with
  | EmptyString => Err ErrBadPattern
  | String c rest =>
      if is_char c "-" || is_char c "]" then Err ErrBadPattern
      else
        let chunk := if is_char c "\" then rest else chunk in
        match chunk with
        | EmptyString => Err ErrBadPattern
        | String r nchunk =>
            if str_empty nchunk then Err ErrBadPattern else Ok (r, nchunk)
        end
  end.

Definition in_range (lo r hi : ascii) : bool :=
  ((N_of_ascii lo <=? N_of_ascii r)%N && (N_of_ascii r <=? N_of_ascii hi)%N).

(** The range loop of a character class: whether [r] matched and the
    chunk after the closing bracket. *)
Fixpoint class_ranges (fuel : nat) (chunk : string) (r : ascii)
    (matched : bool) (nrange : nat) : result (bool * string) :=
  match fuel with
  | O => Err ErrBadPattern
  | S fuel =>
      let closing :=
        match chunk with
        | String c chunk' =>
            if is_char c "]" && (0 <? nrange)%nat then Some chunk' else None
        | EmptyString => None
        end in
      match closing with
      | Some chunk' => Ok (matched, chunk')
      | None =>
          match getEsc chunk with
          | Err e => Err e
          | Ok (lo, chunk1) =>
              match chunk1 with
              | String d chunk2 =>
                  if is_char d "-" then
                    match getEsc chunk2 with
                    | Err e => Err e
                    | Ok (hi, chunk3) =>
                        class_ranges fuel chunk3 r
                          (matched || in_range lo r hi) (S nrange)
                    end
                  else class_ranges fuel chunk1 r
                         (matched || in_range lo r lo) (S nrange)
              | EmptyString => Err ErrBadPattern
              end
          end
      end
  end.

(** [matchChunk]: [Ok (Some rest)] on a match, [Ok None] on none. *)
Fixpoint matchChunk_loop (fuel : nat) (chunk s : string) (failed : bool)
  : result (option string) :=
  match chunk with
  | EmptyString => Ok (if failed then None else Some s)
  | String c chunk' =>
      match fuel with
      | O => Err ErrBadPattern
      | S fuel =>
          let failed := failed || str_empty s in
          if is_char c "[" then
            let '(r, s1) :=
              if failed then (zero, s)
              else match s with
                   | String a s' => (a, s')
                   | EmptyString => (zero, s)
                   end in
            let '(negated, chunk1) :=
              match chunk' with
              | String n chunk'' =>
                  if is_char n "^" then (true, chunk'') else (false, chunk')
              | EmptyString => (false, chunk')
              end in
            match class_ranges (S (String.length chunk1)) chunk1 r false 0 with
            | Err e => Err e
            | Ok (matched, chunk2) =>
                matchChunk_loop fuel chunk2 s1 (failed || Bool.eqb matched negated)
            end
          else if is_char c "?" then
            match s with
            | String a s' =>
                if failed then matchChunk_loop fuel chunk' s failed
                else matchChunk_loop fuel chunk' s' (is_char a "/")
            | EmptyString => matchChunk_loop fuel chunk' s failed
            end
          else
            let literal :=
              if is_char c "\" then
                match chunk' with
                | EmptyString => None
                | String c0 chunk1 => Some (c0, chunk1)
                end
              else Some (c, chunk') in
            match literal with
            | None => Err ErrBadPattern
            | Some (c0, chunk1) =>
                match s with
                | String a s' =>
                    if failed then matchChunk_loop fuel chunk1 s failed
                    else matchChunk_loop fuel chunk1 s' (negb (Ascii.eqb c0 a))
                | EmptyString => matchChunk_loop fuel chunk1 s failed
                end
            end
      end
  end.

Definition matchChunk (chunk s : string) : result (option string) :=
  matchChunk_loop (S (String.length chunk)) chunk s false.

(** The retry loop after a star: skip one more byte of the name (never a
    separator) and try the chunk again. *)
Inductive star_outcome :=
| StarFound (t : string)
| StarError (e : error)
| StarNone.

Fixpoint star_search (chunk : string) (last : bool) (name : string) : star_outcome :=
  match name with
  | EmptyString => StarNone
  | String a name' =>
      if is_char a "/" then StarNone
      else match matchChunk chunk name' with
           | Ok (Some t) =>
               if last && negb (str_empty t) then star_search chunk last name'
               else StarFound t
           | Err e => StarError e
           | Ok None => star_search chunk last name'
           end
  end.

(** The syntax check of the rest of the pattern before a plain mismatch. *)
Fixpoint check_rest (fuel : nat) (pattern : string) : result bool :=
  match fuel with
  | O => Ok false
  | S fuel =>
      if str_empty pattern then Ok false
      else
        let '(_, chunk, rest) := scanChunk pattern in
        match matchChunk chunk EmptyString with
        | Err e => Err e
        | Ok _ => check_rest fuel rest
        end
  end.

Fixpoint Match_loop (fuel : nat) (pattern name : string) : result bool :=
  match fuel with
  | O => Err ErrBadPattern
  | S fuel =>
      if str_empty pattern then Ok (str_empty name)
      else
        let '(star, chunk, rest) := scanChunk pattern in
        if star && str_empty chunk then Ok (negb (Contains name "/"))
        else
          let retry :=
            if star then
              match star_search chunk (str_empty rest) name with
              | StarFound t => Match_loop fuel rest t
              | StarError e => Err e
              | StarNone => check_rest (S (String.length rest)) rest
              end
            else check_rest (S (String.length rest)) rest in
          match matchChunk chunk name with
          | Err e => Err e
          | Ok (Some t) =>
              if str_empty t || negb (str_empty rest) then Match_loop fuel rest t
              else retry
          | Ok None => retry
          end
  end.

Definition filepath_Match : matcher :=
  fun pattern name => Match_loop (S (String.length pattern)) pattern name.

(** ** internal/monitor: Worker *)

Record MetricCollector := { mc_client : loc }.

Record Worker := {
  server : Server;
  wpassword : string;
  sshClient : option loc;
  collector : option MetricCollector;
  cancelled : bool;
  running : bool
}.

(** What a worker does to the world outside the pools. *)
Inductive effect :=
| DBUpdateStatus (id : N) (st : ServerStatus)
| Sleep (seconds : Z)
| HubBroadcastMetrics (m : MetricSnapshot).

(** [Worker.connect] *)
Definition Worker_connect (dial : dialer) (now : Z) (s : SSHState) (w : Worker)
  : SSHState * Worker * option error :=
  match SSHPool_GetClient dial now s (server w) (wpassword w) with
  | (s', Err e) => (s', w, Some e)
  | (s', Ok l) =>
      (s',
       {| server := server w; wpassword := wpassword w; sshClient := Some l;
          collector := Some {| mc_client := l |};
          cancelled := cancelled w; running := running w |},
       None)
  end.

(** [Worker.updateServerStatus] *)
Definition updateServerStatus (w : Worker) (st : ServerStatus) : Worker * list effect :=
  ({| server := set_Status (server w) st; wpassword := wpassword w;
      sshClient := sshClient w; collector := collector w;
      cancelled := cancelled w; running := running w |},
   [DBUpdateStatus (ID (server w)) st]).

Definition set_running (w : Worker) (b : bool) : Worker :=
  {| server := server w; wpassword := wpassword w; sshClient := sshClient w;
     collector := collector w; cancelled := cancelled w; running := b |}.

(** The worker's loop state: the worker and the local counter of [Run]. *)
Record Loop := {
  lw : Worker;
  reconnectAttempts : Z
}.

Definition maxReconnectAttempts : Z := 3.

(** [w.sshClient == nil || !w.sshClient.IsConnected()] *)
Definition Worker_disconnected (s : SSHState) (w : Worker) : bool :=
  match sshClient w with
  | None => true
  | Some l =>
      match ssh_heap s !! l with
      | Some c => negb (IsConnected c)
      | None => true
      end
  end.

(** The tail of a tick: [CollectAll] on the collector's client, then the
    broadcast. [None] is the nil dereference of a worker without
    collector. *)
Definition Worker_collect (P : Probes) (now : Z) (s : SSHState) (w : Worker)
  : option (SSHState * list effect) :=
  match collector w with
  | None => None
  | Some mc =>
      match ssh_heap s !! mc_client mc with
      | None => None
      | Some c =>
          let '(c', (metrics, err)) := CollectAll P now c in
          let s' := ssh_store s (mc_client mc) c' in
          match err with
          | Some _ => Some (s', [])
          | None => Some (s', [HubBroadcastMetrics metrics])
          end
      end
  end.

(** [Worker.Run] up to the loop: set running, first connection attempt. *)
Definition Worker_start (dial : dialer) (now : Z) (s : SSHState) (w : Worker)
  : SSHState * Loop * list effect :=
  let w := set_running w true in
  match Worker_connect dial now s w with
  | (s', w', Some _) =>
      let '(w'', eff) := updateServerStatus w' StatusError in
      (s', {| lw := w''; reconnectAttempts := 0 |}, eff)
  | (s', w', None) =>
      let '(w'', eff) := updateServerStatus w' StatusOnline in
      (s', {| lw := w''; reconnectAttempts := 0 |}, eff)
  end.

(** [Worker.Run], the body of [case <-ticker.C]. *)
Definition Worker_tick (dial : dialer) (P : Probes) (now : Z) (s : SSHState) (lp : Loop)
  : option (SSHState * Loop * list effect) :=
  let w := lw lp in
  if Worker_disconnected s w then
    let attempts := add64 (reconnectAttempts lp) 1 in
    if maxReconnectAttempts <? attempts then
      let '(w1, eff) := updateServerStatus w StatusError in
      Some (s, {| lw := w1; reconnectAttempts := 0 |}, (eff ++ [Sleep 30])%list)
    else
      match Worker_connect dial now s w with
      | (s1, w1, Some _) =>
          let '(w2, eff) := updateServerStatus w1 StatusError in
          Some (s1, {| lw := w2; reconnectAttempts := attempts |}, eff)
      | (s1, w1, None) =>
          let '(w2, eff) := updateServerStatus w1 StatusOnline in
          match Worker_collect P now s1 w2 with
          | None => None
          | Some (s2, eff') =>
              Some (s2, {| lw := w2; reconnectAttempts := 0 |}, (eff ++ eff')%list)
          end
      end
  else
    match Worker_collect P now s w with
    | None => None
    | Some (s2, eff') => Some (s2, lp, eff')
    end.

(** [Worker.Run], [case <-w.ctx.Done()] with the deferred reset. *)
Definition Worker_exit (lp : Loop) : Worker := set_running (lw lp) false.

(** [Worker.Stop] *)
Definition Worker_Stop (s : SSHState) (w : Worker) : SSHState * Worker :=
  let w' := {| server := server w; wpassword := wpassword w;
               sshClient := sshClient w; collector := collector w;
               cancelled := true; running := running w |} in
  match sshClient w with
  | Some _ => (SSHPool_RemoveClient s (ID (server w)), w')
  | None => (s, w')
  end.

(** ** The process state: both pools and the worker pool *)

Record World := {
  ssh : SSHState;
  sftp : SFTPState;
  workers : gmap N Worker
}.

(** [WorkerPool.AddWorker] (the new worker's loop starts on its own). *)
Definition AddWorker (wd : World) (srv : Server) (pw : string) : World :=
  match workers wd !! ID srv with
  | Some _ => wd
  | None =>
      {| ssh := ssh wd; sftp := sftp wd;
         workers :=
           <[ID srv := {| server := srv; wpassword := pw; sshClient := None;
                          collector := None; cancelled := false; running := false |}]>
             (workers wd) |}
  end.

(** [WorkerPool.RemoveWorker] *)
Definition RemoveWorker (wd : World) (serverID : N) : World :=
  match workers wd !! serverID with
  | Some w =>
      let '(s', _) := Worker_Stop (ssh wd) w in
      {| ssh := s'; sftp := sftp wd; workers := delete serverID (workers wd) |}
  | None => wd
  end.

(** ** internal/handlers *)

Inductive jvalue :=
| JStr (s : string)
| JNum (z : Z)
| JLines (l : list string).

(** [c.JSON(code, gin.H{...})] *)
Record Response := {
  code : Z;
  body : list (string * jvalue)
}.

Definition StatusOK : Z := 200.
Definition StatusBadRequest : Z := 400.
Definition StatusNotFound : Z := 404.
Definition StatusInternalServerError : Z := 500.

Definition json_error (c : Z) (msg : string) : Response :=
  {| code := c; body := [("error", JStr msg)] |}.

(** [DeleteServer]: [param] is the parsed [:id], [db_delete] the row
    deletion. *)
Definition DeleteServer (wd : World) (param : result N) (db_delete : N -> option error)
  : World * Response :=
  match param with
  | Err _ => (wd, json_error StatusBadRequest "Invalid server ID")
  | Ok id =>
      let wd' := RemoveWorker wd id in
      match db_delete id with
      | Some _ => (wd', json_error StatusInternalServerError "Failed to delete server")
      | None => (wd', {| code := StatusOK; body := [("message", JStr "Server deleted")] |})
      end
  end.

(** The request context shared by the per-server handlers: the parsed
    [:serverId], the row lookup and the credential vault. *)
Record Lookup := {
  param_serverId : result N;
  db_first : N -> result Server;
  decrypt : string -> result string
}.

(** [ExecuteSSHCommand] from the point where the pooled client [c] is in
    hand: the client afterwards, the commands handed to [Execute] in
    order, and the response. *)
Definition exec_in_cwd (net : transport) (now : Z) (c : SSHClient) (command : string)
  : SSHClient * list string * Response :=
  let fullCommand :=
    if bool_decide (CurrentDir c <> "")
    then "cd " +:+ CurrentDir c +:+ " && " +:+ command
    else command in
  let '(c, out) := Execute net now c fullCommand in
  let '(c, ran) :=
    if is_ok out && HasPrefix (TrimSpace command) "cd " then
      let pwdCmd :=
        if bool_decide (CurrentDir c <> "")
        then "cd " +:+ CurrentDir c +:+ " && " +:+ command +:+ " && pwd"
        else command +:+ " && pwd" in
      match Execute net now c pwdCmd with
      | (c, Ok newDir) => (set_CurrentDir c (TrimSpace newDir), [fullCommand; pwdCmd])
      | (c, Err _) => (c, [fullCommand; pwdCmd])
      end
    else (c, [fullCommand]) in
  match out with
  | Err e =>
      (c, ran,
       {| code := StatusInternalServerError;
          body := [("error", JStr "Command failed"); ("detail", JStr e)] |})
  | Ok output =>
      (c, ran,
       {| code := StatusOK;
          body := [("output", JStr output);
                   ("lines", JLines (Split_nl (TrimSpace output)));
                   ("command", JStr command);
                   ("currentDir", JStr (CurrentDir c))] |})
  end.

(** [ExecuteSSHCommand]: [bind] is the bound JSON body. *)
Definition ExecuteSSHCommand (dial : dialer) (net : transport) (now : Z)
    (s : SSHState) (lk : Lookup) (bind : result string)
  : SSHState * list string * Response :=
  match param_serverId lk with
  | Err _ => (s, [], json_error StatusBadRequest "Invalid server ID")
  | Ok serverID =>
  match bind with
  | Err e => (s, [], json_error StatusBadRequest e)
  | Ok command =>
  match db_first lk serverID with
  | Err _ => (s, [], json_error StatusNotFound "Server not found")
  | Ok srv =>
  match decrypt lk (Password srv) with
  | Err _ => (s, [], json_error StatusInternalServerError "Failed to decrypt credentials")
  | Ok pw =>
  match SSHPool_GetClient dial now s srv pw with
  | (s, Err _) => (s, [], json_error StatusInternalServerError "Failed to connect to server")
  | (s, Ok l) =>
  match ssh_heap s !! l with
  | None => (s, [], json_error StatusInternalServerError "Failed to connect to server")
  | Some c =>
      let '(c, ran, resp) := exec_in_cwd net now c command in
      (ssh_store s l c, ran, resp)
  end end end end end end.

(** [getSFTPClient] *)
Definition getSFTPClient (dial : dialer) (open : sftp_opener) (now : Z)
    (s : SSHState) (f : SFTPState) (lk : Lookup)
  : SSHState * SFTPState * result loc :=
  match param_serverId lk with
  | Err _ => (s, f, Err "invalid server ID")
  | Ok serverID =>
  match db_first lk serverID with
  | Err _ => (s, f, Err "server not found")
  | Ok srv =>
  match decrypt lk (Password srv) with
  | Err _ => (s, f, Err "failed to decrypt credentials")
  | Ok pw =>
  match SFTPPool_GetClient dial open now s f srv pw with
  | (s, f, Err e) => (s, f, Err ("failed to connect to server: " +:+ e))
  | (s, f, Ok l) => (s, f, Ok l)
  end end end end.

(** [ReadFileContent], after [getSFTPClient] returned [got]; [fs] is the
    remote file system behind the returned channel, [path] the query
    parameter. *)
Definition ReadFileContent (got : result loc) (fs : RemoteFS) (path : string) : Response :=
  match got with
  | Err e => json_error StatusInternalServerError e
  | Ok _ =>
      if bool_decide (path = "") then json_error StatusBadRequest "Path is required"
      else match fs_stat fs path with
           | Err _ => json_error StatusNotFound "File not found"
           | Ok info =>
               if 20 * 1024 * 1024 <? st_size info
               then json_error StatusBadRequest "File too large (max 10MB)"
               else match SFTP_ReadFileContent fs path with
                    | Err e => json_error StatusInternalServerError e
                    | Ok content =>
                        {| code := StatusOK;
                           body := [("path", JStr path); ("content", JStr content);
                                    ("size", JNum (st_size info))] |}
                    end
           end
  end.

(** ** internal/websocket: the hub *)

(** A marshalled envelope. *)
Definition frame := string.

(** Capacity of [client.send] and of [hub.broadcast]. *)
Definition chan_cap : nat := 256.

(** A push client: its buffered [send] channel (contents and whether it
    was closed) and its subscription set. *)
Record Client := {
  cl_ID : string;
  send : list frame;
  send_closed : bool;
  subscriptions : gset N
}.

Record HubState := {
  hub_clients : gmap loc bool;
  hub_rooms : gmap N (gmap loc bool);
  hub_broadcast : list frame;
  hub_heap : gmap loc Client
}.

(** [InitHub] *)
Definition InitHub (heap : gmap loc Client) : HubState :=
  {| hub_clients := ∅; hub_rooms := ∅; hub_broadcast := []; hub_heap := heap |}.

(** Outcome of one [select { case client.send <- m: default: }]. A send
    on a closed channel panics. *)
Inductive attempt := Delivered | Dropped | Panicked.

Definition push (c : Client) (m : frame) : Client :=
  {| cl_ID := cl_ID c; send := (send c ++ [m])%list; send_closed := send_closed c;
     subscriptions := subscriptions c |}.

Definition try_send (c : Client) (m : frame) : Client * attempt :=
  if send_closed c then (c, Panicked)
  else if (length (send c) <? chan_cap)%nat then (push c m, Delivered)
  else (c, Dropped).

(** A blocking send [ch <- m] on a buffered channel: [None] when the
    buffer is full and the sender has to wait. *)
Definition chan_send (buf : list frame) (m : frame) : option (list frame) :=
  if (length buf <? chan_cap)%nat then Some (buf ++ [m])%list else None.

(** One try-send per target, in order; the trace records each attempt. *)
Definition fanout_step (m : frame) (st : gmap loc Client * list (loc * attempt)) (c : loc)
  : gmap loc Client * list (loc * attempt) :=
  match st.1 !! c with
  | Some cl =>
      let '(cl', a) := try_send cl m in
      (<[c := cl']> st.1, (st.2 ++ [(c, a)])%list)
  | None => st
  end.

Definition fanout (targets : list loc) (m : frame) (heap : gmap loc Client)
  : gmap loc Client * list (loc * attempt) :=
  fold_left (fanout_step m) targets (heap, []).

Definition set_heap (h : HubState) (heap : gmap loc Client) : HubState :=
  {| hub_clients := hub_clients h; hub_rooms := hub_rooms h;
     hub_broadcast := hub_broadcast h; hub_heap := heap |}.

Definition set_broadcast (h : HubState) (buf : list frame) : HubState :=
  {| hub_clients := hub_clients h; hub_rooms := hub_rooms h;
     hub_broadcast := buf; hub_heap := hub_heap h |}.

(** What the dispatch loop can receive. *)
Inductive hub_event :=
| EvRegister (c : loc)
| EvUnregister (c : loc)
| EvBroadcast.

Definition close_send (c : Client) : Client :=
  {| cl_ID := cl_ID c; send := send c; send_closed := true;
     subscriptions := subscriptions c |}.

(** The room clean-up of an unregistering client. *)
Definition leave_rooms (c : loc) (subs : list N) (rooms : gmap N (gmap loc bool))
  : gmap N (gmap loc bool) :=
  fold_left (fun rs serverID => alter (delete c) serverID rs) subs rooms.

(** One iteration of [WebSocketHub.Run]. [None]: the chosen case is not
    ready (nothing buffered on [broadcast]). *)
Definition Run_step (h : HubState) (ev : hub_event)
  : option (HubState * list (loc * attempt)) :=
  match ev with
  | EvRegister c =>
      Some ({| hub_clients := <[c := true]> (hub_clients h); hub_rooms := hub_rooms h;
               hub_broadcast := hub_broadcast h; hub_heap := hub_heap h |}, [])
  | EvUnregister c =>
      match hub_clients h !! c, hub_heap h !! c with
      | Some _, Some cl =>
          Some ({| hub_clients := delete c (hub_clients h);
                   hub_rooms := leave_rooms c (elements (subscriptions cl)) (hub_rooms h);
                   hub_broadcast := hub_broadcast h;
                   hub_heap := <[c := close_send cl]> (hub_heap h) |}, [])
      | _, _ => Some (h, [])
      end
  | EvBroadcast =>
      match hub_broadcast h with
      | [] => None
      | message :: rest =>
          let '(heap, tr) :=
            fanout (elements (dom (hub_clients h))) message (hub_heap h) in
          Some ({| hub_clients := hub_clients h; hub_rooms := hub_rooms h;
                   hub_broadcast := rest; hub_heap := heap |}, tr)
      end
  end.

(** [broadcastToRoom] *)
Definition broadcastToRoom (h : HubState) (serverID : N) (data : frame)
  : HubState * list (loc * attempt) :=
  match hub_rooms h !! serverID with
  | Some room =>
      let '(heap, tr) := fanout (elements (dom room)) data (hub_heap h) in
      (set_heap h heap, tr)
  | None => (h, [])
  end.

Inductive Message :=
| MetricsMessage (m : MetricSnapshot)
| StatusMessage (server_id : N) (status : ServerStatus).

(** [json.Marshal] of an envelope. *)
Definition marshaler := Message -> result frame.

(** A producer's call: it returned, or it is parked in
    [h.broadcast <- data] on a full buffer. *)
Inductive publish :=
| Parked
| Published (h : HubState) (tr : list (loc * attempt)).

(** [BroadcastMetrics] *)
Definition BroadcastMetrics (marshal : marshaler) (h : HubState) (metrics : MetricSnapshot)
  : publish :=
  match marshal (MetricsMessage metrics) with
  | Err _ => Published h []
  | Ok data =>
      match chan_send (hub_broadcast h) data with
      | None => Parked
      | Some buf =>
          let '(h', tr) := broadcastToRoom (set_broadcast h buf) (ServerID metrics) data in
          Published h' tr
      end
  end.

(** [BroadcastServerStatus] *)
Definition BroadcastServerStatus (marshal : marshaler) (h : HubState)
    (serverID : N) (status : ServerStatus) : publish :=
  match marshal (StatusMessage serverID status) with
  | Err _ => Published h []
  | Ok data =>
      match chan_send (hub_broadcast h) data with
      | None => Parked
      | Some buf => Published (set_broadcast h buf) []
      end
  end.

Definition subscribe_client (cl : Client) (serverID : N) : Client :=
  {| cl_ID := cl_ID cl; send := send cl; send_closed := send_closed cl;
     subscriptions := {[serverID]} ∪ subscriptions cl |}.

Definition unsubscribe_client (cl : Client) (serverID : N) : Client :=
  {| cl_ID := cl_ID cl; send := send cl; send_closed := send_closed cl;
     subscriptions := subscriptions cl ∖ {[serverID]} |}.

(** [Subscribe] *)
Definition Subscribe (h : HubState) (c : loc) (serverID : N) : HubState :=
  let room := default ∅ (hub_rooms h !! serverID) in
  {| hub_clients := hub_clients h;
     hub_rooms := <[serverID := <[c := true]> room]> (hub_rooms h);
     hub_broadcast := hub_broadcast h;
     hub_heap := alter (fun cl => subscribe_client cl serverID) c (hub_heap h) |}.

(** [Unsubscribe] *)
Definition Unsubscribe (h : HubState) (c : loc) (serverID : N) : HubState :=
  {| hub_clients := hub_clients h;
     hub_rooms := alter (delete c) serverID (hub_rooms h);
     hub_broadcast := hub_broadcast h;
     hub_heap := alter (fun cl => unsubscribe_client cl serverID) c (hub_heap h) |}.

(** The hub's standing invariant: registered clients have an open,
    bounded queue; room members are registered clients subscribed to the
    room; the broadcast buffer respects its capacity. *)
Record hub_ok (h : HubState) : Prop := {
  ok_registered : forall c, is_Some (hub_clients h !! c) ->
    exists cl, hub_heap h !! c = Some cl /\ send_closed cl = false;
  ok_rooms : forall serverID room c, hub_rooms h !! serverID = Some room ->
    is_Some (room !! c) ->
    is_Some (hub_clients h !! c) /\
    exists cl, hub_heap h !! c = Some cl /\ serverID ∈ subscriptions cl;
  ok_queues : forall c cl, hub_heap h !! c = Some cl -> (length (send cl) <= chan_cap)%nat;
  ok_broadcast : (length (hub_broadcast h) <= chan_cap)%nat
}.

(** The loop states a worker can be in: after [Worker_start], and after
    any number of ticks, each against whatever the pools and the network
    look like at that moment. *)
Inductive reachable : Loop -> Prop :=
| reach_start dial now s w s' lp eff :
    Worker_start dial now s w = (s', lp, eff) -> reachable lp
| reach_tick dial P now s lp s' lp' eff :
    reachable lp ->
    Worker_tick dial P now s lp = Some (s', lp', eff) -> reachable lp'.

Definition emits_sample (eff : list effect) : bool :=
  existsb (fun e => match e with HubBroadcastMetrics _ => true | _ => false end) eff.

(** The outcomes of the five probes of one [CollectAll], each run on the
    client the previous probe left behind. *)
Definition cpu_outcome (P : Probes) (c : SSHClient) := CollectCPU P c.
Definition mem_outcome (P : Probes) (c : SSHClient) := CollectMemory P (cpu_outcome P c).1.
Definition disk_outcome (P : Probes) (c : SSHClient) := CollectDisk P (mem_outcome P c).1.
Definition net_outcome (P : Probes) (c : SSHClient) := CollectNetwork P (disk_outcome P c).1.
Definition uptime_outcome (P : Probes) (c : SSHClient) := CollectUptime P (net_outcome P c).1.

(** ** Reading the walks *)

(** What the search keeps of one step: nothing of a step the walker
    reported an error for, nothing when the matcher rejects the pattern
    as malformed, and otherwise the entry if its base name glob-matches
    the pattern or, lowercased, contains the lowercased pattern. *)
Definition search_keeps (Match : matcher) (pattern : string) (s : walk_step)
  : option FileInfo :=
  match s with
  | StepErr _ _ => None
  | StepOk path info =>
      match Match pattern (st_name info) with
      | Err _ => None
      | Ok matched =>
          if matched || Contains (ToLower (st_name info)) (ToLower pattern)
          then Some (search_hit path info) else None
      end
  end.

(** Bytes in files, number of files and number of directories among the
    steps the walker reported without error. *)
Definition step_bytes (s : walk_step) : Z :=
  match s with
  | StepOk _ info => if st_isdir info then 0 else st_size info
  | StepErr _ _ => 0
  end.

Definition step_is_file (s : walk_step) : Z :=
  match s with
  | StepOk _ info => if st_isdir info then 0 else 1
  | StepErr _ _ => 0
  end.

Definition step_is_dir (s : walk_step) : Z :=
  match s with
  | StepOk _ info => if st_isdir info then 1 else 0
  | StepErr _ _ => 0
  end.

Fixpoint total (f : walk_step -> Z) (steps : list walk_step) : Z :=
  match steps with
  | [] => 0
  | s :: rest => f s + total f rest
  end.

(** The attempt made for target [c] on the heap the fan-out started from. *)
Definition attempt_on (m : frame) (heap : gmap loc Client) (c : loc)
  : option (loc * attempt) :=
  (fun cl => (c, (try_send cl m).2)) <$> heap !! c.

(** ** internal/ssh: the rest of the client and of the pool *)

(** [client.SendRequest("keepalive@openssh.com", true, nil)] *)
Definition keepalive := conn -> option error.

(** [TestConnection] *)
Definition TestConnection (ka : keepalive) (c : SSHClient) : SSHClient * option error :=
  match connected c, client c with
  | true, Some k =>
      match ka k with
      | Some e => (set_connected c false, Some ("connection test failed: " +:+ e))
      | None => (c, None)
      end
  | _, _ => (c, Some "not connected")
  end.

(** [Reconnect] *)
Definition Reconnect (dial : dialer) (now : Z) (c : SSHClient) : SSHClient * option error :=
  Connect dial now (SSHClient_Close c).

(** The body of the loop of [SSHPool.CloseAll]. *)
Definition close_entry (id : N) (l : loc) (s : SSHState) : SSHState :=
  {| ssh_heap := alter SSHClient_Close l (ssh_heap s);
     ssh_clients := delete id (ssh_clients s) |}.

(** [SSHPool.CloseAll] *)
Definition SSHPool_CloseAll (s : SSHState) : SSHState :=
  map_fold close_entry s (ssh_clients s).

(** ** strings and strconv, as the probes use them *)

(** [strings.Fields]: the maximal runs of non-space bytes. *)
Fixpoint fields_from (s word : string) : list string :=
  match s with
  | EmptyString => if str_empty word then [] else [word]
  | String a s' =>
      if is_space a then
        if str_empty word then fields_from s' EmptyString
        else word :: fields_from s' EmptyString
      else fields_from s' (word +:+ String a EmptyString)
  end.

Definition Fields (s : string) : list string := fields_from s EmptyString.

(** The two errors of [strconv]. *)
Inductive num_error := ErrSyntax | ErrRange.

Definition digit_of (a : ascii) : option Z :=
  let n := N_of_ascii a in
  if ((48 <=? n)%N && (n <=? 57)%N) then Some (Z.of_N n - 48) else None.

Definition maxUint64 : Z := 2 ^ 64 - 1.

(** The digit loop of [strconv.ParseUint(s, 10, 64)]. *)
Fixpoint parse_uint_loop (s : string) (n : Z) : Z * option num_error :=
  match s with
  | EmptyString => (n, None)
  | String a s' =>
      match digit_of a with
      | None => (0, Some ErrSyntax)
      | Some d =>
          if maxUint64 / 10 + 1 <=? n then (maxUint64, Some ErrRange)
          else
            let n1 := n * 10 + d in
            if maxUint64 <? n1 then (maxUint64, Some ErrRange)
            else parse_uint_loop s' n1
      end
  end.

Definition ParseUint (s : string) : Z * option num_error :=
  if str_empty s then (0, Some ErrSyntax) else parse_uint_loop s 0.

(** [strconv.ParseInt(s, 10, 64)]; [strconv.Atoi] returns the same value
    and the same kind of error on every input. *)
Definition ParseInt (s : string) : Z * option num_error :=
  match s with
  | EmptyString => (0, Some ErrSyntax)
  | String a rest =>
      let '(neg, digits) :=
        if is_char a "+" then (false, rest)
        else if is_char a "-" then (true, rest) else (false, s) in
      match ParseUint digits with
      | (_, Some ErrSyntax) => (0, Some ErrSyntax)
      | (un, _) =>
          if negb neg && (2 ^ 63 <=? un) then (2 ^ 63 - 1, Some ErrRange)
          else if neg && (2 ^ 63 <? un) then (- 2 ^ 63, Some ErrRange)
          else (if neg then - un else un, None)
      end
  end.

Definition Atoi (s : string) : Z * option num_error := ParseInt s.

(** The message of a [strconv.NumError]; [quote] is [strconv.Quote]. *)
Definition NumError_message (quote : string -> string) (fn num : string) (e : num_error)
  : error :=
  "strconv." +:+ fn +:+ ": parsing " +:+ quote num +:+ ": " +:+
  match e with
  | ErrSyntax => "invalid syntax"
  | ErrRange => "value out of range"
  end.

(** The double quote. *)
Definition dq : string := String "034"%char EmptyString.

(** ** internal/ssh: the probes of the collector *)

Definition cmd_cpu : string :=
  "top -bn2 -d0.5 | grep " +:+ dq +:+ "Cpu(s)" +:+ dq +:+
  " | tail -1 | awk '{print $2}' | cut -d'%' -f1".

Definition cmd_cpu_proc : string :=
  "cat /proc/stat | grep '^cpu ' | awk '{print $2+$3+$4, $5}' && sleep 1 && cat /proc/stat | grep '^cpu ' | awk '{print $2+$3+$4, $5}'".

Definition cmd_memory : string := "free -m | grep Mem | awk '{print $2, $3, $4}'".

Definition cmd_disk : string :=
  "df -BG / | tail -1 | awk '{gsub(" +:+ dq +:+ "G" +:+ dq +:+ "," +:+ dq +:+ dq +:+
  "); print $2, $3, $4}'".

Definition cmd_net : string :=
  "cat /proc/net/dev | grep -E '(eth0|ens|enp)' | head -1 | awk '{print $2, $10}'".

Definition cmd_net_ip : string :=
  "ip -s link show | grep -A1 'RX:' | tail -1 | awk '{print $1}' && ip -s link show | grep -A1 'TX:' | tail -1 | awk '{print $1}'".

Definition cmd_uptime : string := "cat /proc/uptime | awk '{print int($1)}'".

(** Floating-point text handling enters as two functions of a command's
    output: [parse_float] is [strconv.ParseFloat(_, 64)], [proc_cpu] the
    parsing and arithmetic of [collectCPUFromProc] on its output. *)
Record FloatText := {
  parse_float : string -> option float64;
  proc_cpu : string -> float64
}.

(** [collectCPUFromProc] *)
Definition collectCPUFromProc (ft : FloatText) (net : transport) (now : Z) (c : SSHClient)
  : SSHClient * result float64 :=
  match Execute net now c cmd_cpu_proc with
  | (c, Err e) => (c, Err e)
  | (c, Ok output) => (c, Ok (proc_cpu ft output))
  end.

(** [MetricCollector.CollectCPU] *)
Definition MetricCollector_CollectCPU (ft : FloatText) (net : transport) (now : Z)
    (c : SSHClient) : SSHClient * result float64 :=
  match Execute net now c cmd_cpu with
  | (c, Err _) => collectCPUFromProc ft net now c
  | (c, Ok output) =>
      match parse_float ft (TrimSpace output) with
      | None => collectCPUFromProc ft net now c
      | Some cpu => (c, Ok cpu)
      end
  end.

(** The tail shared by [CollectMemory] and [CollectDisk]. *)
Definition three_uints (output : string) : Z * Z * Z :=
  match Fields (TrimSpace output) with
  | p0 :: p1 :: p2 :: _ => ((ParseUint p0).1, (ParseUint p1).1, (ParseUint p2).1)
  | _ => (0, 0, 0)
  end.

(** [MetricCollector.CollectMemory] *)
Definition MetricCollector_CollectMemory (net : transport) (now : Z) (c : SSHClient)
  : SSHClient * result (Z * Z * Z) :=
  match Execute net now c cmd_memory with
  | (c, Err e) => (c, Err e)
  | (c, Ok output) => (c, Ok (three_uints output))
  end.

(** [MetricCollector.CollectDisk] *)
Definition MetricCollector_CollectDisk (net : transport) (now : Z) (c : SSHClient)
  : SSHClient * result (Z * Z * Z) :=
  match Execute net now c cmd_disk with
  | (c, Err e) => (c, Err e)
  | (c, Ok output) => (c, Ok (three_uints output))
  end.

(** Bytes to MiB, as [CollectNetwork] ends. *)
Definition to_MiB (parts : list string) : Z * Z :=
  match parts with
  | p0 :: p1 :: _ => ((ParseUint p0).1 / (1024 * 1024), (ParseUint p1).1 / (1024 * 1024))
  | _ => (0, 0)
  end.

(** [MetricCollector.CollectNetwork] *)
Definition MetricCollector_CollectNetwork (net : transport) (now : Z) (c : SSHClient)
  : SSHClient * result (Z * Z) :=
  match Execute net now c cmd_net with
  | (c, Err e) => (c, Err e)
  | (c, Ok output) =>
      let parts := Fields (TrimSpace output) in
      if (length parts <? 2)%nat then
        match Execute net now c cmd_net_ip with
        | (c, Err e) => (c, Err e)
        | (c, Ok output) => (c, Ok (to_MiB (Fields (TrimSpace output))))
        end
      else (c, Ok (to_MiB parts))
  end.

(** [MetricCollector.CollectUptime] *)
Definition MetricCollector_CollectUptime (quote : string -> string) (net : transport)
    (now : Z) (c : SSHClient) : SSHClient * result Z :=
  match Execute net now c cmd_uptime with
  | (c, Err e) => (c, Err e)
  | (c, Ok output) =>
      match ParseUint (TrimSpace output) with
      | (_, Some e) => (c, Err (NumError_message quote "ParseUint" (TrimSpace output) e))
      | (uptime, None) => (c, Ok uptime)
      end
  end.

(** The probes [CollectAll] runs over one transport. *)
Definition ssh_probes (ft : FloatText) (quote : string -> string) (net : transport)
    (now : Z) : Probes :=
  {| CollectCPU := MetricCollector_CollectCPU ft net now;
     CollectMemory := MetricCollector_CollectMemory net now;
     CollectDisk := MetricCollector_CollectDisk net now;
     CollectNetwork := MetricCollector_CollectNetwork net now;
     CollectUptime := MetricCollector_CollectUptime quote net now |}.

(** A decimal numeral: most significant digit first. *)
Fixpoint digits_value (ds : list Z) (acc : Z) : Z :=
  match ds with
  | [] => acc
  | d :: ds' => digits_value ds' (acc * 10 + d)
  end.

Fixpoint digits_string (ds : list Z) : string :=
  match ds with
  | [] => EmptyString
  | d :: ds' => String (ascii_of_N (Z.to_N (48 + d))) (digits_string ds')
  end.

Definition is_numeral (ds : list Z) : Prop :=
  ds <> [] /\ Forall (fun d => 0 <= d <= 9) ds.

(** What [ParseUint] makes of a decimal numeral: its value, or the
    largest 64-bit value when it does not fit. *)
Definition uint64_of (ds : list Z) : Z := Z.min (digits_value ds 0) maxUint64.

Fixpoint spaceless (s : string) : bool :=
  match s with
  | EmptyString => true
  | String a s' => negb (is_space a) && spaceless s'
  end.

(** ** internal/monitor: the rest of the worker pool *)

(** The body of the loop of [WorkerPool.StopAll]. *)
Definition stop_entry (id : N) (w : Worker) (wd : World) : World :=
  let '(s', _) := Worker_Stop (ssh wd) w in
  {| ssh := s'; sftp := sftp wd; workers := delete id (workers wd) |}.

(** [WorkerPool.StopAll] *)
Definition StopAll (wd : World) : World := map_fold stop_entry wd (workers wd).

(** [WorkerPool.GetWorkerStatus] *)
Definition GetWorkerStatus (wd : World) (serverID : N) : bool :=
  match workers wd !! serverID with
  | Some w => running w
  | None => false
  end.

(** The loop of [Worker.Run] over the ticks that fire before the context
    is cancelled. A tick comes with its time and with what the other
    goroutines did to the transport pool since the previous one. *)
Fixpoint Worker_loop (dial : dialer) (P : Probes)
    (ticks : list (Z * (SSHState -> SSHState))) (s : SSHState) (lp : Loop)
  : option (SSHState * Loop * list effect) :=
  match ticks with
  | [] => Some (s, lp, [])
  | (now, others) :: rest =>
      match Worker_tick dial P now (others s) lp with
      | None => None
      | Some (s1, lp1, eff) =>
          match Worker_loop dial P rest s1 lp1 with
          | None => None
          | Some (s2, lp2, eff') => Some (s2, lp2, (eff ++ eff')%list)
          end
      end
  end.

(** [Worker.Run] from start to return; [None] is a nil dereference. *)
Definition Worker_Run (dial : dialer) (P : Probes) (now : Z)
    (ticks : list (Z * (SSHState -> SSHState))) (s : SSHState) (w : Worker)
  : option (SSHState * Worker * list effect) :=
  let '(s0, lp0, eff) := Worker_start dial now s w in
  match Worker_loop dial P ticks s0 lp0 with
  | None => None
  | Some (s1, lp1, eff') => Some (s1, Worker_exit lp1, (eff ++ eff')%list)
  end.

(** The worker's collector, when set, reads the worker's own session. *)
Definition worker_wired (w : Worker) : Prop :=
  forall l, sshClient w = Some l -> collector w = Some {| mc_client := l |}.

(** The status updates among the effects are about server [id]. *)
Definition status_of_only (id : N) (eff : list effect) : Prop :=
  Forall (fun e => match e with DBUpdateStatus id' _ => id' = id | _ => True end) eff.

(** ** internal/handlers: UpdateServer *)

(** A row of table [servers]: the columns the pools read and the two
    they never look at; the three time stamps are left out, here and in
    the DTO. *)
Record ServerRow := {
  row : Server;
  Sys : string;
  Connection : string
}.

Record ServerDTO := {
  dto_ID : N;
  dto_IPAddress : string;
  dto_Port : string;
  dto_Sys : string;
  dto_Connection : string;
  dto_Username : string;
  dto_Name : string;
  dto_Status : ServerStatus
}.

(** [Server.ToDTO] *)
Definition ToDTO (r : ServerRow) : ServerDTO :=
  {| dto_ID := ID (row r); dto_IPAddress := IPAddress (row r); dto_Port := Port (row r);
     dto_Sys := Sys r; dto_Connection := Connection r; dto_Username := Username (row r);
     dto_Name := Name (row r); dto_Status := Status (row r) |}.

Record UpdateServerRequest := {
  req_IPAddress : string;
  req_Password : string;
  req_Port : string;
  req_Sys : string;
  req_Connection : string;
  req_Username : string;
  req_Name : string
}.

(** The database and the vault as [UpdateServer] uses them. [Decrypt]
    returns its pair, as in Go: the handler uses the string and drops the
    error. *)
Record Store := {
  store_First : N -> result ServerRow;
  store_Save : ServerRow -> option error;
  vault_Encrypt : string -> result string;
  vault_Decrypt : string -> string * option error
}.

(** What a server handler answers: an error object, or a server's DTO. *)
Inductive server_response :=
| Refused (r : Response)
| Served (status : Z) (dto : ServerDTO).

(** [if new != "" { old = new }] *)
Definition overwrite (new old : string) : string :=
  if bool_decide (new <> "") then new else old.

(** The field assignments of [UpdateServer]; [enc] is the encrypted new
    password when the request carries one. *)
Definition apply_update (req : UpdateServerRequest) (enc : string) (r : ServerRow)
  : ServerRow :=
  {| row :=
       {| ID := ID (row r);
          IPAddress := overwrite (req_IPAddress req) (IPAddress (row r));
          Password := if bool_decide (req_Password req <> "") then enc
                      else Password (row r);
          Port := overwrite (req_Port req) (Port (row r));
          Username := overwrite (req_Username req) (Username (row r));
          Name := overwrite (req_Name req) (Name (row r));
          Status := Status (row r) |};
     Sys := overwrite (req_Sys req) (Sys r);
     Connection := overwrite (req_Connection req) (Connection r) |}.

(** [req.Password != "" || req.IPAddress != "" || req.Port != "" || req.Username != ""] *)
Definition credentials_changed (req : UpdateServerRequest) : bool :=
  bool_decide (req_Password req <> "") || bool_decide (req_IPAddress req <> "") ||
  bool_decide (req_Port req <> "") || bool_decide (req_Username req <> "").

(** [UpdateServer]: [param] is the parsed [:id], [bind] the bound body. *)
Definition UpdateServer (wd : World) (st : Store) (param : result N)
    (bind : result UpdateServerRequest) : World * server_response :=
  match param with
  | Err _ => (wd, Refused (json_error StatusBadRequest "Invalid server ID"))
  | Ok id =>
  match store_First st id with
  | Err _ => (wd, Refused (json_error StatusNotFound "Server not found"))
  | Ok server =>
  match bind with
  | Err e => (wd, Refused (json_error StatusBadRequest e))
  | Ok req =>
  match (if bool_decide (req_Password req <> "") then vault_Encrypt st (req_Password req)
         else Ok "") with
  | Err _ =>
      (wd, Refused (json_error StatusInternalServerError "Failed to encrypt password"))
  | Ok enc =>
  let server := apply_update req enc server in
  match store_Save st server with
  | Some _ => (wd, Refused (json_error StatusInternalServerError "Failed to update server"))
  | None =>
      let wd :=
        if credentials_changed req then
          let wd := RemoveWorker wd id in
          let password :=
            if bool_decide (req_Password req <> "") then req_Password req
            else (vault_Decrypt st (Password (row server))).1 in
          AddWorker wd (row server) password
        else wd in
      (wd, Served StatusOK (ToDTO server))
  end end end end end.

(** ** internal/websocket: the reader's side of a client *)

(** What [json.Unmarshal] makes of an inbound frame: an error, or the
    two fields [handleMessage] reads. *)
Inductive inbound :=
| Malformed
| Inbound (type : string) (server_id : N).

(** The envelopes a client's reader puts on its own queue. *)
Inductive reply :=
| ErrorReply (message : string)
| AckReply (action : string) (server_id : N)
| PongReply.

(** How a call of [handleMessage] ends: it returned; it is parked in
    [c.send <- data] on a full queue; or that send panicked (closed
    channel, or no such client). *)
Inductive handled :=
| Handled (h : HubState)
| Waiting (h : HubState) (data : frame)
| SendPanics.

(** [c.send <- data], the blocking send of [sendError], [sendAck] and
    [sendPong]. *)
Definition send_own (h : HubState) (c : loc) (data : frame) : handled :=
  match hub_heap h !! c with
  | None => SendPanics
  | Some cl =>
      if send_closed cl then SendPanics
      else if (length (send cl) <? chan_cap)%nat
           then Handled (set_heap h (<[c := push cl data]> (hub_heap h)))
           else Waiting h data
  end.

(** [Client.handleMessage]; [enc] is [json.Marshal] of a reply, whose
    error the code drops. *)
Definition handleMessage (enc : reply -> frame) (h : HubState) (c : loc) (msg : inbound)
  : handled :=
  match msg with
  | Malformed => send_own h c (enc (ErrorReply "Invalid message format"))
  | Inbound type server_id =>
      if String.eqb type "subscribe" then
        if (0 <? server_id)%N then
          send_own (Subscribe h c server_id) c (enc (AckReply "subscribed" server_id))
        else Handled h
      else if String.eqb type "ping" then send_own h c (enc PongReply)
      else Handled h
  end.

(** The hub a call of [handleMessage] leaves behind, parked or not. *)
Definition handled_state (r : handled) : option HubState :=
  match r with
  | Handled h => Some h
  | Waiting h _ => Some h
  | SendPanics => None
  end.

(** The message is a [subscribe] that names a server. *)
Definition is_subscription (msg : inbound) : option N :=
  match msg with
  | Inbound type server_id =>
      if String.eqb type "subscribe" && (0 <? server_id)%N then Some server_id else None
  | Malformed => None
  end.

(** ** internal/sftp: removing a directory *)

(** A removal request sent over the file channel. *)
Inductive fs_op :=
| OpRemove (path : string)
| OpRemoveDirectory (path : string).

(** [removeRecursive] on the directory [n] that lies at [path]: the
    removal requests sent, in order, and the returned error. [fail] is
    the server's answer to a request. A directory is listed before
    anything below it is removed, so the tree [n] is what the successive
    [ReadDir] calls return. *)
Fixpoint removeRecursive (join : string -> string -> string)
    (fail : fs_op -> option error) (path : string) (n : node)
  : list fs_op * option error :=
  match n with
  | Node _ rderr entries =>
      match rderr with
      | Some e => ([], Some e)
      | None =>
          let '(ops, err) :=
            (fix remove_entries (l : list node) : list fs_op * option error :=
               match l with
               | [] => ([], None)
               | entry :: l' =>
                   let fullPath := join path (st_name (node_info entry)) in
                   let '(ops, err) :=
                     if st_isdir (node_info entry)
                     then removeRecursive join fail fullPath entry
                     else ([OpRemove fullPath], fail (OpRemove fullPath)) in
                   match err with
                   | Some e => (ops, Some e)
                   | None =>
                       let '(ops', err') := remove_entries l' in
                       ((ops ++ ops')%list, err')
                   end
               end) entries in
          match err with
          | Some e => (ops, Some e)
          | None =>
              ((ops ++ [OpRemoveDirectory path])%list, fail (OpRemoveDirectory path))
          end
      end
  end.

(** The loop of [removeRecursive] over the entries of one listing. *)
Definition remove_entries (join : string -> string -> string)
    (fail : fs_op -> option error) (path : string)
  : list node -> list fs_op * option error :=
  fix remove_entries (l : list node) : list fs_op * option error :=
    match l with
    | [] => ([], None)
    | entry :: l' =>
        let fullPath := join path (st_name (node_info entry)) in
        let '(ops, err) :=
          if st_isdir (node_info entry)
          then removeRecursive join fail fullPath entry
          else ([OpRemove fullPath], fail (OpRemove fullPath)) in
        match err with
        | Some e => (ops, Some e)
        | None =>
            let '(ops', err') := remove_entries l' in
            ((ops ++ ops')%list, err')
        end
    end.

(** The descent of the walker into the entries of one listing. *)
Definition walk_entries (join : string -> string -> string) (path : string)
  : list node -> list walk_step :=
  fix walk_entries (l : list node) : list walk_step :=
    match l with
    | [] => []
    | c :: l' =>
        (walk_node join (join path (st_name (node_info c))) c ++ walk_entries l')%list
    end.

(** The removal request that deletes what a step of the walker visits. *)
Definition removal_of (s : walk_step) : option fs_op :=
  match s with
  | StepOk path info =>
      Some (if st_isdir info then OpRemoveDirectory path else OpRemove path)
  | StepErr _ _ => None
  end.

(** The request was granted. *)
Definition granted (fail : fs_op -> option error) (op : fs_op) : Prop := fail op = None.

(** A run of removal requests that ends at the first refusal: with no
    error every request was granted; with an error everything before the
    last request was granted, and the last request - unless the error
    came from a listing - is the one that was refused. *)
Definition stops_at_refusal (fail : fs_op -> option error) (ops : list fs_op)
    (err : option error) : Prop :=
  match err with
  | None => Forall (granted fail) ops
  | Some e =>
      exists done,
        Forall (granted fail) done /\
        (ops = done \/ exists op, ops = (done ++ [op])%list /\ fail op = Some e)
  end.

(** ** internal/handlers: batch uploads *)

(** A part of a multipart form: its name and size, and whether
    [fileHeader.Open()] succeeds. *)
Record FileHeader := {
  fh_Filename : string;
  fh_Size : Z;
  fh_opens : bool
}.

Section Uploads.

(** The remote side as the uploads change it; [SFTP_UploadFile] is
    [SFTPClient.UploadFile] on the part's content, [join] is
    [filepath.Join]. *)
Context {R : Type}.
Variable join : string -> string -> string.
Variable SFTP_UploadFile : R -> string -> FileHeader -> R * option error.

(** The loop of [UploadFolder] from index [i] on. *)
Fixpoint upload_folder_loop (basePath : string) (relativePaths : list string) (i : nat)
    (files : list FileHeader) (r : R) (uploaded failed : list string)
  : R * list string * list string :=
  match files with
  | [] => (r, uploaded, failed)
  | fileHeader :: rest =>
      if negb (fh_opens fileHeader) then
        upload_folder_loop basePath relativePaths (S i) rest r uploaded
          (failed ++ [fh_Filename fileHeader])%list
      else
        let remotePath :=
          match relativePaths !! i with
          | Some rel =>
              if bool_decide (rel <> "") then join basePath rel
              else join basePath (fh_Filename fileHeader)
          | None => join basePath (fh_Filename fileHeader)
          end in
        match SFTP_UploadFile r remotePath fileHeader with
        | (r, Some _) =>
            upload_folder_loop basePath relativePaths (S i) rest r uploaded
              (failed ++ [fh_Filename fileHeader])%list
        | (r, None) =>
            upload_folder_loop basePath relativePaths (S i) rest r
              (uploaded ++ [remotePath])%list failed
        end
  end.

(** The loop of [UploadMultipleFiles]. *)
Fixpoint upload_files_loop (basePath : string) (files : list FileHeader) (r : R)
    (uploaded failed : list string) : R * list string * list string :=
  match files with
  | [] => (r, uploaded, failed)
  | fileHeader :: rest =>
      if negb (fh_opens fileHeader) then
        upload_files_loop basePath rest r uploaded (failed ++ [fh_Filename fileHeader])%list
      else
        let remotePath := join basePath (fh_Filename fileHeader) in
        match SFTP_UploadFile r remotePath fileHeader with
        | (r, Some _) =>
            upload_files_loop basePath rest r uploaded
              (failed ++ [fh_Filename fileHeader])%list
        | (r, None) =>
            upload_files_loop basePath rest r
              (uploaded ++ [fh_Filename fileHeader])%list failed
        end
  end.

Definition upload_report (uploaded failed : list string) (total : nat) : Response :=
  {| code := StatusOK;
     body := [("uploaded", JLines uploaded); ("failed", JLines failed);
              ("total", JNum (Z.of_nat total))] |}.

(** [UploadFolder]: [got] is what [getSFTPClient] returned, [form] the
    parsed multipart form (its [files] and its [paths] values), [path]
    the form value of that name. *)
Definition UploadFolder (got : result loc) (form : result (list FileHeader * list string))
    (path : string) (r : R) : R * Response :=
  match got with
  | Err e => (r, json_error StatusInternalServerError e)
  | Ok _ =>
  match form with
  | Err _ => (r, json_error StatusBadRequest "Invalid form data")
  | Ok ([], _) => (r, json_error StatusBadRequest "No files provided")
  | Ok (files, relativePaths) =>
      let basePath := if bool_decide (path = "") then "/" else path in
      let '(r, uploaded, failed) :=
        upload_folder_loop basePath relativePaths 0 files r [] [] in
      (r, upload_report uploaded failed (length files))
  end end.

(** [UploadMultipleFiles] *)
Definition UploadMultipleFiles (got : result loc) (form : result (list FileHeader))
    (path : string) (r : R) : R * Response :=
  match got with
  | Err e => (r, json_error StatusInternalServerError e)
  | Ok _ =>
  match form with
  | Err _ => (r, json_error StatusBadRequest "Invalid form data")
  | Ok [] => (r, json_error StatusBadRequest "No files provided")
  | Ok files =>
      let basePath := if bool_decide (path = "") then "/" else path in
      let '(r, uploaded, failed) := upload_files_loop basePath files r [] [] in
      (r, upload_report uploaded failed (length files))
  end end.

End Uploads.

(** ** config *)

(** [getEnv]; [env] is [os.LookupEnv]. *)
Definition getEnv (env : string -> option string) (key defaultValue : string) : string :=
  match env key with
  | Some value => value
  | None => defaultValue
  end.

(** [time.Duration(n) * time.Second], in nanoseconds ([int] has 64 bits). *)
Definition seconds (n : Z) : Z := wrap64 (n * 1000000000).

Record Config := {
  ServerPort : string;
  DBHost : string;
  DBPort : string;
  DBUser : string;
  DBPassword : string;
  DBName : string;
  SSHTimeout : Z;
  SSHKeepAlive : Z;
  MetricsInterval : Z;
  EncryptionKey : string;
  WSPingInterval : Z;
  WSPongWait : Z
}.

(** [Load], after [godotenv.Load] has had its effect on the environment. *)
Definition Load (env : string -> option string) : Config * option error :=
  let sshTimeout := (Atoi (getEnv env "SSH_TIMEOUT" "30")).1 in
  let sshKeepAlive := (Atoi (getEnv env "SSH_KEEPALIVE" "60")).1 in
  let metricsInterval := (Atoi (getEnv env "METRICS_INTERVAL" "10")).1 in
  let wsPingInterval := (Atoi (getEnv env "WS_PING_INTERVAL" "30")).1 in
  let wsPongWait := (Atoi (getEnv env "WS_PONG_WAIT" "60")).1 in
  ({| ServerPort := getEnv env "SERVER_PORT" "8080";
      DBHost := getEnv env "DB_HOST" "localhost";
      DBPort := getEnv env "DB_PORT" "3306";
      DBUser := getEnv env "DB_USER" "root";
      DBPassword := getEnv env "DB_PASSWORD" "";
      DBName := getEnv env "DB_NAME" "Suap";
      SSHTimeout := seconds sshTimeout;
      SSHKeepAlive := seconds sshKeepAlive;
      MetricsInterval := seconds metricsInterval;
      EncryptionKey := getEnv env "ENCRYPTION_KEY" "3nC_rYpT!8t2vKp#6Lq1zWm9x4Dg7HsQ";
      WSPingInterval := seconds wsPingInterval;
      WSPongWait := seconds wsPongWait |},
   None).

(** The five settings [Load] reads as whole seconds: the variable, the
    default in seconds and the field it ends in. *)
Definition duration_settings : list (string * Z * (Config -> Z)) :=
  [("SSH_TIMEOUT", 30, SSHTimeout); ("SSH_KEEPALIVE", 60, SSHKeepAlive);
   ("METRICS_INTERVAL", 10, MetricsInterval); ("WS_PING_INTERVAL", 30, WSPingInterval);
   ("WS_PONG_WAIT", 60, WSPongWait)].

(** ** internal/monitor: StartAll *)

(** The body of the loop of [WorkerPool.StartAll]; every worker gets its
    own copy of the row. *)
Definition start_one (decrypt : string -> result string) (wd : World) (server : Server)
  : World :=
  match decrypt (Password server) with
  | Err _ => wd
  | Ok password => AddWorker wd server password
  end.

(** [WorkerPool.StartAll]; [found] is what [database.DB.Find] returns. *)
Definition StartAll (wd : World) (found : result (list Server))
    (decrypt : string -> result string) : World * option error :=
  match found with
  | Err e => (wd, Some e)
  | Ok servers => (fold_left (start_one decrypt) servers wd, None)
  end.

(** The first row with the given id whose password can be decrypted,
    with the clear password. *)
Fixpoint first_startable (decrypt : string -> result string) (id : N)
    (servers : list Server) : option (Server * string) :=
  match servers with
  | [] => None
  | server :: rest =>
      match decrypt (Password server) with
      | Ok password =>
          if bool_decide (ID server = id) then Some (server, password)
          else first_startable decrypt id rest
      | Err _ => first_startable decrypt id rest
      end
  end.

(** Between two hub states no queue lost or reordered anything: every
    client's queue is the old one with at most one frame appended. *)
Definition queues_grow (h h' : HubState) : Prop :=
  forall c cl, hub_heap h !! c = Some cl ->
    exists cl',
      hub_heap h' !! c = Some cl' /\ cl_ID cl' = cl_ID cl /\
      (send cl' = send cl \/ exists m, send cl' = (send cl ++ [m])%list).

(** ** Sample data *)

Definition srv7 : Server :=
  {| ID := 7; IPAddress := "10.0.0.7"; Password := "enc"; Port := "22";
     Username := "ops"; Name := "db-7"; Status := StatusOnline |}.

(** A live pooled session of server 7 and one that was marked down. *)
Definition c_up : SSHClient :=
  {| Server_ := srv7; client := Some 1%nat; connected := true; lastUsed := 0;
     password := "pw"; CurrentDir := "" |}.

Definition c_down : SSHClient := set_connected c_up false.

(** A remote shell that knows a handful of commands. *)
Definition net0 : transport := fun _ command =>
  if String.eqb command "ls" then Ran None "a.txt" ""
  else if String.eqb command "cd /tmp" then Ran None "" ""
  else if String.eqb command "cd /tmp && pwd" then Ran None ("/tmp" +:+ nl) ""
  else if String.eqb command "cat /nope" then Ran (Some "exit status 1") "" "cat: /nope: No such file"
  else if String.eqb command "false" then Ran (Some "exit status 1") "" ""
  else if String.eqb command "drop" then SessionFails "EOF"
  else if String.eqb command "cd /home && cd x" then Ran None "" ""
  else if String.eqb command "cd /home && cd x && pwd"
       then Ran (Some "wait: remote command exited without exit status or exit signal")
              ("/home/x" +:+ nl) ""
  else Ran (Some "exit status 127") "" "command not found".

(** A transport pool whose session for server 7 was marked down, and a
    file-transfer pool that still caches a channel opened on it. *)
Definition ssh_down : SSHState :=
  {| ssh_heap := {[ 0%nat := c_down ]}; ssh_clients := {[ 7%N := 0%nat ]} |}.

Definition sftp_one : SFTPState :=
  {| sftp_heap := {[ 0%nat := {| sftp_sshClient := 0%nat; sftpClient := Some 3%nat |} ]};
     sftp_clients := {[ 7%N := 0%nat ]} |}.

Definition sftp_none : SFTPState := {| sftp_heap := ∅; sftp_clients := ∅ |}.

Definition dial_ok : dialer := fun _ _ => Ok 9%nat.
Definition dial_fail : dialer := fun _ _ => Err "connection refused".
Definition open_ok : sftp_opener := fun _ => Ok 4%nat.

Definition stat_of (name : string) (size : Z) (isdir : bool) : FileStat :=
  {| st_name := name; st_size := size; st_isdir := isdir; st_mode := 420; st_mtime := 0 |}.

Definition slash_join (p n : string) : string :=
  if String.eqb p "/" then p +:+ n else p +:+ "/" +:+ n.

(** A remote holding one file of the given size at [/big.log]. *)
Definition fs_big (size : Z) : RemoteFS :=
  {| fs_lstat := fun _ => Ok (Node (stat_of "big.log" size false) None []);
     fs_stat := fun _ => Ok (stat_of "big.log" size false);
     fs_read := fun _ => Ok (Ok "payload");
     fs_join := slash_join |}.

Definition c_home : SSHClient := set_CurrentDir c_up "/home".

Definition ssh_empty : SSHState := {| ssh_heap := ∅; ssh_clients := ∅ |}.

Definition w7 : Worker :=
  {| server := srv7; wpassword := "pw"; sshClient := None; collector := None;
     cancelled := false; running := false |}.

(** Probes that all fail, as on a host that went away. *)
Definition probes_down : Probes :=
  {| CollectCPU := fun c => (c, Err "not connected");
     CollectMemory := fun c => (c, Err "not connected");
     CollectDisk := fun c => (c, Err "not connected");
     CollectNetwork := fun c => (c, Err "not connected");
     CollectUptime := fun c => (c, Err "not connected") |}.

(** The loop state of worker 7 after a failed first connection and [n]
    failed reconnects. *)
Definition lp_failed (n : Z) : Loop :=
  {| lw := (updateServerStatus (set_running w7 true) StatusError).1;
     reconnectAttempts := n |}.

(** A remote with a single tree below every path. *)
Definition fs_tree (root : node) : RemoteFS :=
  {| fs_lstat := fun _ => Ok root;
     fs_stat := fun _ => Ok (node_info root);
     fs_read := fun _ => Err "is a directory";
     fs_join := slash_join |}.

Definition file_node (name : string) (size : Z) : node :=
  Node (stat_of name size false) None [].

Definition dir_node (name : string) (entries : list node) : node :=
  Node (stat_of name 4096 true) None entries.

(** [foo], [foox], [fooxx], ...: [n] distinct names that match [foo*]. *)
Fixpoint foo_files (n : nat) (suffix : string) : list node :=
  match n with
  | O => []
  | S n => file_node ("foo" +:+ suffix) 1 :: foo_files n (String "x" suffix)
  end.

Definition fs_foo500 : RemoteFS := fs_tree (dir_node "data" (foo_files 500 "")).

Definition fs_bracket : RemoteFS :=
  fs_tree (dir_node "data" [file_node "a[b" 1; file_node "plain" 1]).

Definition fs_empty_dir : RemoteFS := fs_tree (dir_node "empty" []).

Definition fs_small : RemoteFS :=
  fs_tree (dir_node "data"
             [file_node "a.log" 10; dir_node "sub" [file_node "b.log" 32]]).

(** Server 7 fully set up: a monitoring worker holding the pooled
    session, and a file channel cached on top of that session. *)
Definition world7 : World :=
  {| ssh := {| ssh_heap := {[ 0%nat := c_up ]}; ssh_clients := {[ 7%N := 0%nat ]} |};
     sftp := sftp_one;
     workers :=
       {[ 7%N := {| server := srv7; wpassword := "pw"; sshClient := Some 0%nat;
                    collector := Some {| mc_client := 0%nat |};
                    cancelled := false; running := true |} ]} |}.

(** Two registered push clients, one idle and one whose queue is full,
    and one envelope waiting on the broadcast buffer. *)
Definition cl_idle : Client :=
  {| cl_ID := "idle"; send := []; send_closed := false; subscriptions := ∅ |}.

Definition cl_slow : Client :=
  {| cl_ID := "slow"; send := replicate chan_cap "old"; send_closed := false;
     subscriptions := ∅ |}.

Definition hub2 : HubState :=
  {| hub_clients := {[ 1%nat := true; 2%nat := true ]};
     hub_rooms := ∅;
     hub_broadcast := ["new"];
     hub_heap := {[ 1%nat := cl_idle; 2%nat := cl_slow ]} |}.

Definition marshal_tag : marshaler := fun msg =>
  match msg with
  | MetricsMessage _ => Ok "server_metrics"
  | StatusMessage _ _ => Ok "server_status"
  end.

(** A host that answers the collector's commands; it has none of the
    interfaces the first traffic command looks for. *)
Definition net_host : transport := fun _ command =>
  if String.eqb command cmd_memory then Ran None ("7974 3012 1200" +:+ nl) ""
  else if String.eqb command cmd_disk then Ran None ("50 20 30" +:+ nl) ""
  else if String.eqb command cmd_net then Ran None "" ""
  else if String.eqb command cmd_net_ip
       then Ran None ("3145728" +:+ nl +:+ "1048577" +:+ nl) ""
  else if String.eqb command cmd_uptime then Ran None ("86400" +:+ nl) ""
  else SessionFails "EOF".

(** A host whose commands succeed and print an empty line. *)
Definition net_silent : transport := fun _ _ => Ran None nl "".

(** A host on which no sub-channel can be opened. *)
Definition net_broken : transport := fun _ _ => SessionFails "EOF".

Definition ft0 : FloatText := {| parse_float := fun _ => None; proc_cpu := fun _ => FZero |}.

Definition quote0 (s : string) : string := dq +:+ s +:+ dq.

(** The row of server 7, a store that holds it, and two update requests:
    one that moves the port, one that only renames. *)
Definition row7 : ServerRow := {| row := srv7; Sys := "L"; Connection := "SSH" |}.

Definition store7 : Store :=
  {| store_First := fun id => if (id =? 7)%N then Ok row7 else Err "record not found";
     store_Save := fun _ => None;
     vault_Encrypt := fun p => Ok ("enc:" +:+ p);
     vault_Decrypt := fun _ => ("pw", None) |}.

Definition req_port : UpdateServerRequest :=
  {| req_IPAddress := ""; req_Password := ""; req_Port := "2222"; req_Sys := "";
     req_Connection := ""; req_Username := ""; req_Name := "" |}.

Definition req_rename : UpdateServerRequest :=
  {| req_IPAddress := ""; req_Password := ""; req_Port := ""; req_Sys := "";
     req_Connection := ""; req_Username := ""; req_Name := "db-seven" |}.

(** A hub with one registered client that follows server 7. *)
Definition cl_sub : Client :=
  {| cl_ID := "sub"; send := ["hello"]; send_closed := false; subscriptions := {[ 7%N ]} |}.

Definition hub7 : HubState :=
  {| hub_clients := {[ 1%nat := true ]};
     hub_rooms := {[ 7%N := {[ 1%nat := true ]} ]};
     hub_broadcast := [];
     hub_heap := {[ 1%nat := cl_sub ]} |}.

Definition enc_tag (r : reply) : frame :=
  match r with
  | ErrorReply _ => "error"
  | AckReply _ _ => "ack"
  | PongReply => "pong"
  end.

(** A server that refuses to remove [/data/b/y] and grants the rest. *)
Definition fail_y : fs_op -> option error := fun op =>
  match op with
  | OpRemove path => if String.eqb path "/data/b/y" then Some "permission denied" else None
  | OpRemoveDirectory _ => None
  end.

Definition tree_data : node :=
  dir_node "data" [file_node "a" 1; dir_node "b" [file_node "x" 2; file_node "y" 3];
                   file_node "c" 4].

(** Three parts of a form, the second of which cannot be opened, and a
    remote side that counts the uploads and rejects paths under [/ro]. *)
Definition parts3 : list FileHeader :=
  [{| fh_Filename := "a.txt"; fh_Size := 1; fh_opens := true |};
   {| fh_Filename := "b.txt"; fh_Size := 2; fh_opens := false |};
   {| fh_Filename := "c.txt"; fh_Size := 3; fh_opens := true |}].

Definition upload_counting (r : nat) (remotePath : string) (fh : FileHeader)
  : nat * option error :=
  if String.prefix "/ro" remotePath then (r, Some "failed to create file: permission denied")
  else (S r, None).

(** An environment that sets the metrics interval to [10s] and the SSH
    timeout to [45]. *)
Definition env_bad : string -> option string := fun key =>
  if String.eqb key "METRICS_INTERVAL" then Some "10s"
  else if String.eqb key "SSH_TIMEOUT" then Some "45"
  else None.

(** Two rows for server 8, the first with a password that cannot be
    decrypted, and the vault that tells them apart. *)
Definition srv8_bad : Server :=
  {| ID := 8; IPAddress := "10.0.0.8"; Password := "garbled"; Port := "22";
     Username := "ops"; Name := "web-8"; Status := StatusOffline |}.

Definition srv8 : Server :=
  {| ID := 8; IPAddress := "10.0.0.8"; Password := "enc"; Port := "22";
     Username := "ops"; Name := "web-8"; Status := StatusOffline |}.

Definition decrypt_enc : string -> result string := fun p =>
  if String.eqb p "enc" then Ok "pw" else Err "cipher: message authentication failed".

(** * Properties *)

(** ** Session.execute *)

(** C4. [Execute] refuses with "not connected" when the connected flag is
    false; when opening the sub-channel fails it clears the flag and
    returns an error; a command that completes returns its stdout
    unchanged; a command that fails returns "command failed: " followed
    by the stderr text when there is some, and by the bare run error
    otherwise. *)
Theorem Execute_error_taxonomy (net : transport) (now : Z) (c : SSHClient) (command : string) :
  (connected c = false ->
     Execute net now c command = (c, Err "not connected")) /\
  (forall k, connected c = true -> client c = Some k ->
     match net k command with
     | SessionFails e =>
         Execute net now c command =
           (set_connected c false, Err ("failed to create session: " +:+ e)) /\
         connected (Execute net now c command).1 = false
     | Ran None out _ =>
         Execute net now c command = (set_lastUsed c now, Ok out)
     | Ran (Some e) _ errbuf =>
         (errbuf <> "" ->
            Execute net now c command = (c, Err ("command failed: " +:+ errbuf))) /\
         (errbuf = "" ->
            Execute net now c command = (c, Err ("command failed: " +:+ e)))
     end).
Proof.
  split.
  - intros H. unfold Execute. by rewrite H.
  - intros k Hc Hk. unfold Execute. rewrite Hc, Hk.
    destruct (net k command) as [e | [e |] out errbuf]; simpl; [done | | done].
    split; intros H.
    + by rewrite bool_decide_eq_true_2.
    + by rewrite bool_decide_eq_false_2 by (intros Hn; by apply Hn).
Qed.

Lemma Execute_error_taxonomy_witness :
  Execute net0 5 c_down "ls" = (c_down, Err "not connected") /\
  Execute net0 5 c_up "ls" = (set_lastUsed c_up 5, Ok "a.txt") /\
  Execute net0 5 c_up "drop" = (c_down, Err "failed to create session: EOF") /\
  Execute net0 5 c_up "cat /nope" =
    (c_up, Err "command failed: cat: /nope: No such file") /\
  Execute net0 5 c_up "false" = (c_up, Err "command failed: exit status 1").
Proof.
  split; [| split; [| split; [| split]]].
  - apply (proj1 (Execute_error_taxonomy net0 5 c_down "ls")). reflexivity.
  - exact (proj2 (Execute_error_taxonomy net0 5 c_up "ls") 1%nat eq_refl eq_refl).
  - exact (proj1 (proj2 (Execute_error_taxonomy net0 5 c_up "drop") 1%nat eq_refl eq_refl)).
  - apply (proj1 (proj2 (Execute_error_taxonomy net0 5 c_up "cat /nope")
                    1%nat eq_refl eq_refl)).
    discriminate.
  - apply (proj2 (proj2 (Execute_error_taxonomy net0 5 c_up "false")
                    1%nat eq_refl eq_refl)).
    reflexivity.
Defined.

(** ** MetricCollector.CollectAll *)

(** C9. [CollectAll] never returns an error. Whatever the probes answer,
    the snapshot carries the server's id and name and the sampling time;
    each group of fields is a function of its own probe's outcome alone
    (so a failing probe leaves the other groups untouched), a failed
    probe leaves its fields at zero, and a percentage is computed only
    from a total greater than zero. *)
Theorem CollectAll_never_fails (P : Probes) (now : Z) (c : SSHClient) :
  exists snap,
    CollectAll P now c = ((uptime_outcome P c).1, (snap, None)) /\
    ServerID snap = ID (Server_ c) /\
    ServerName snap = Name (Server_ c) /\
    Timestamp snap = now /\
    CPUUsage snap =
      match (cpu_outcome P c).2 with Ok cpu => cpu | Err _ => FZero end /\
    (MemTotal snap, MemUsed snap, MemFree snap) =
      match (mem_outcome P c).2 with Ok t => t | Err _ => (0, 0, 0) end /\
    MemPercent snap =
      match (mem_outcome P c).2 with
      | Ok (total, used, _) => if 0 <? total then FPercent used total else FZero
      | Err _ => FZero
      end /\
    (DiskTotal snap, DiskUsed snap, DiskFree snap) =
      match (disk_outcome P c).2 with Ok t => t | Err _ => (0, 0, 0) end /\
    DiskPercent snap =
      match (disk_outcome P c).2 with
      | Ok (total, used, _) => if 0 <? total then FPercent used total else FZero
      | Err _ => FZero
      end /\
    (NetRX snap, NetTX snap) =
      match (net_outcome P c).2 with Ok t => t | Err _ => (0, 0) end /\
    Uptime snap =
      match (uptime_outcome P c).2 with Ok u => u | Err _ => 0 end.
Proof.
  unfold uptime_outcome, net_outcome, disk_outcome, mem_outcome, cpu_outcome, CollectAll.
  destruct (CollectCPU P c) as [c1 r1]; simpl.
  destruct (CollectMemory P c1) as [c2 r2]; simpl.
  destruct (CollectDisk P c2) as [c3 r3]; simpl.
  destruct (CollectNetwork P c3) as [c4 r4]; simpl.
  destruct (CollectUptime P c4) as [c5 r5]; simpl.
  eexists; split; [reflexivity |].
  destruct r1 as [cpu | ?], r2 as [[[mt mu] mf] | ?], r3 as [[[dt du] df] | ?],
    r4 as [[rx tx] | ?], r5 as [up | ?]; simpl; repeat split; reflexivity.
Qed.

(** ** SFTPPool.GetClient *)

(** C10. [SFTPPool.GetClient] hands back the cached file channel as soon
    as the pool has an entry for the host whose channel is not nil, for
    every state of the transport pool (the session's connected flag is
    never read); only without such an entry does it go through
    [SSHPool.GetClient] and open a fresh channel. *)
Theorem SFTPPool_GetClient_cached_first (dial : dialer) (open : sftp_opener) (now : Z)
    (s : SSHState) (f : SFTPState) (srv : Server) (pw : string) :
  (forall l fc ch,
     sftp_clients f !! ID srv = Some l -> sftp_heap f !! l = Some fc ->
     sftpClient fc = Some ch ->
     SFTPPool_GetClient dial open now s f srv pw = (s, f, Ok l)) /\
  ((forall l fc, sftp_clients f !! ID srv = Some l -> sftp_heap f !! l = Some fc ->
      sftpClient fc = None) ->
   SFTPPool_GetClient dial open now s f srv pw =
     match SSHPool_GetClient dial now s srv pw with
     | (s', Err e) => (s', f, Err ("failed to get SSH client: " +:+ e))
     | (s', Ok sl) =>
         match open (GetUnderlyingClient s' sl) with
         | Err e => (s', f, Err ("failed to create SFTP client: " +:+ e))
         | Ok ch =>
             let l := fresh (dom (sftp_heap f)) in
             (s',
              {| sftp_heap :=
                   <[l := {| sftp_sshClient := sl; sftpClient := Some ch |}]> (sftp_heap f);
                 sftp_clients := <[ID srv := l]> (sftp_clients f) |},
              Ok l)
         end
     end).
Proof.
  split.
  - intros l fc ch Hl Hfc Hch. unfold SFTPPool_GetClient, sftp_cached.
    by rewrite Hl, Hfc, Hch.
  - intros Hnone. unfold SFTPPool_GetClient.
    replace (sftp_cached f (ID srv)) with (@None loc); [done |].
    unfold sftp_cached.
    destruct (sftp_clients f !! ID srv) as [l |] eqn:Hl; [| done].
    destruct (sftp_heap f !! l) as [fc |] eqn:Hfc; [| done].
    by rewrite (Hnone l fc eq_refl Hfc).
Qed.

Lemma SFTPPool_GetClient_cached_first_witness :
  connected c_down = false /\
  SFTPPool_GetClient dial_fail open_ok 5 ssh_down sftp_one srv7 "pw"
    = (ssh_down, sftp_one, Ok 0%nat) /\
  (SFTPPool_GetClient dial_fail open_ok 5 ssh_down sftp_none srv7 "pw").2
    = Err "failed to get SSH client: ssh dial failed: connection refused".
Proof.
  split; [reflexivity | split].
  - apply (proj1 (SFTPPool_GetClient_cached_first dial_fail open_ok 5 ssh_down sftp_one
                    srv7 "pw") 0%nat {| sftp_sshClient := 0%nat; sftpClient := Some 3%nat |}
             3%nat); reflexivity.
  - rewrite (proj2 (SFTPPool_GetClient_cached_first dial_fail open_ok 5 ssh_down sftp_none
                      srv7 "pw")).
    + reflexivity.
    + intros l fc H. discriminate H.
Defined.

(** ** GET /servers/:id/files/content *)

(** C7, as stated, fails: for a file of 21 MiB the handler answers 400,
    but the error message is not the bare text "File too large". *)
Lemma ReadFileContent_message_differs :
  ReadFileContent (Ok 0%nat) (fs_big (21 * 1024 * 1024)) "/big.log"
    = json_error StatusBadRequest "File too large (max 10MB)" /\
  ReadFileContent (Ok 0%nat) (fs_big (21 * 1024 * 1024)) "/big.log"
    <> json_error StatusBadRequest "File too large".
Proof. split; [reflexivity | discriminate]. Qed.

(** C7, amended. Once the file channel is in hand and the path's size is
    known, a size above 20 MiB is answered with status 400 and an error
    message that starts with "File too large"; a file at or below the
    limit is read, and when the read succeeds its whole content is
    returned with status 200. *)
Theorem ReadFileContent_size_ceiling (l : loc) (fs : RemoteFS) (path : string)
    (info : FileStat) :
  path <> "" -> fs_stat fs path = Ok info ->
  (20 * 1024 * 1024 < st_size info ->
     exists msg,
       ReadFileContent (Ok l) fs path = json_error StatusBadRequest msg /\
       HasPrefix msg "File too large" = true) /\
  (st_size info <= 20 * 1024 * 1024 ->
     forall content, SFTP_ReadFileContent fs path = Ok content ->
       ReadFileContent (Ok l) fs path =
         {| code := StatusOK;
            body := [("path", JStr path); ("content", JStr content);
                     ("size", JNum (st_size info))] |}).
Proof.
  intros Hpath Hstat. unfold ReadFileContent.
  rewrite bool_decide_eq_false_2 by done. rewrite Hstat. split.
  - intros Hbig. apply Z.ltb_lt in Hbig. rewrite Hbig.
    eexists; split; reflexivity.
  - intros Hsmall content Hread.
    destruct (Z.ltb_spec (20 * 1024 * 1024) (st_size info)) as [Hlt | _]; [lia |].
    by rewrite Hread.
Qed.

Lemma ReadFileContent_size_ceiling_witness :
  (exists msg,
     ReadFileContent (Ok 0%nat) (fs_big (21 * 1024 * 1024)) "/big.log"
       = json_error StatusBadRequest msg /\
     HasPrefix msg "File too large" = true) /\
  ReadFileContent (Ok 0%nat) (fs_big (20 * 1024 * 1024)) "/big.log" =
    {| code := StatusOK;
       body := [("path", JStr "/big.log"); ("content", JStr "payload");
                ("size", JNum (20 * 1024 * 1024))] |}.
Proof.
  split.
  - apply (proj1 (ReadFileContent_size_ceiling 0%nat (fs_big (21 * 1024 * 1024)) "/big.log"
                    (stat_of "big.log" (21 * 1024 * 1024) false)
                    ltac:(discriminate) eq_refl)).
    simpl. lia.
  - apply (proj2 (ReadFileContent_size_ceiling 0%nat (fs_big (20 * 1024 * 1024)) "/big.log"
                    (stat_of "big.log" (20 * 1024 * 1024) false)
                    ltac:(discriminate) eq_refl)).
    + simpl. lia.
    + reflexivity.
Defined.

(** ** Worker.Run *)

Lemma add64_small (a : Z) : 0 <= a <= maxReconnectAttempts -> add64 a 1 = a + 1.
Proof.
  unfold maxReconnectAttempts, add64, wrap64. intros H.
  rewrite Z.mod_small; lia.
Qed.

Lemma Worker_connect_server dial now s w s' w' e :
  Worker_connect dial now s w = (s', w', e) -> server w' = server w.
Proof.
  unfold Worker_connect.
  destruct (SSHPool_GetClient dial now s (server w) (wpassword w)) as [s1 [l | err]];
    intros [= <- <- <-]; reflexivity.
Qed.

(** Every reachable loop state keeps the counter within the limit. *)
Lemma reachable_bounded (lp : Loop) :
  reachable lp -> 0 <= reconnectAttempts lp <= maxReconnectAttempts.
Proof.
  induction 1 as [dial now s w s' lp eff Hstart
                 | dial P now s lp s' lp' eff Hreach IH Htick].
  - unfold Worker_start in Hstart.
    destruct (Worker_connect dial now s (set_running w true)) as [[s1 w1] [e |]];
      injection Hstart as <- <- <-; simpl; unfold maxReconnectAttempts; lia.
  - unfold Worker_tick in Htick.
    destruct (Worker_disconnected s (lw lp)).
    + rewrite add64_small in Htick by done.
      destruct (Z.ltb_spec maxReconnectAttempts (reconnectAttempts lp + 1)) as [Hgt | Hle].
      * injection Htick as <- <- <-. simpl. unfold maxReconnectAttempts. lia.
      * destruct (Worker_connect dial now s (lw lp)) as [[s1 w1] [e |]].
        -- injection Htick as <- <- <-. simpl. lia.
        -- simpl in Htick.
           destruct (Worker_collect P now s1 _) as [[s2 eff'] |]; [| done].
           injection Htick as <- <- <-. simpl. unfold maxReconnectAttempts. lia.
    + destruct (Worker_collect P now s (lw lp)) as [[s2 eff'] |]; [| done].
      by injection Htick as <- <- <-.
Qed.

Lemma SSHPool_GetClient_allocated dial now s srv pw s' l :
  SSHPool_GetClient dial now s srv pw = (s', Ok l) -> is_Some (ssh_heap s' !! l).
Proof.
  unfold SSHPool_GetClient.
  destruct (ssh_cached s (ID srv)) as [[l0 c0] |].
  - intros [= <- <-]. simpl. rewrite lookup_insert_eq. by eexists.
  - destruct (Connect dial now _) as [c1 [e |]]; [done |].
    intros [= <- <-]. simpl. rewrite lookup_insert_eq. by eexists.
Qed.

Lemma CollectAll_total (P : Probes) (now : Z) (c : SSHClient) :
  exists c' snap, CollectAll P now c = (c', (snap, None)).
Proof.
  unfold CollectAll.
  destruct (CollectCPU P c) as [c1 r1].
  destruct (CollectMemory P c1) as [c2 r2].
  destruct (CollectDisk P c2) as [c3 r3].
  destruct (CollectNetwork P c3) as [c4 r4].
  destruct (CollectUptime P c4) as [c5 r5].
  by eexists _, _.
Qed.

(** C3. In a tick that finds the session missing or not connected the
    worker increments [reconnectAttempts]. When the incremented counter
    exceeds the limit of 3, it sets the host status to error, resets the
    counter to zero, sleeps 30 seconds and emits no sample. Otherwise it
    reconnects: a failure sets the status to error, keeps the incremented
    counter and emits no sample; a success resets the counter to zero and
    sets the status to online. In every reachable loop state, and after
    every tick, the counter is at most the limit. *)
Theorem Worker_tick_reconnect_policy (dial : dialer) (P : Probes) (now : Z)
    (s : SSHState) (lp : Loop) :
  reachable lp ->
  Worker_disconnected s (lw lp) = true ->
  let attempts := reconnectAttempts lp + 1 in
  let id := ID (server (lw lp)) in
  0 <= reconnectAttempts lp <= maxReconnectAttempts /\
  (maxReconnectAttempts < attempts ->
     exists w',
       Worker_tick dial P now s lp =
         Some (s, {| lw := w'; reconnectAttempts := 0 |},
               [DBUpdateStatus id StatusError; Sleep 30]) /\
       Status (server w') = StatusError /\
       emits_sample [DBUpdateStatus id StatusError; Sleep 30] = false) /\
  (attempts <= maxReconnectAttempts ->
     match Worker_connect dial now s (lw lp) with
     | (s1, _, Some _) =>
         exists w',
           Worker_tick dial P now s lp =
             Some (s1, {| lw := w'; reconnectAttempts := attempts |},
                   [DBUpdateStatus id StatusError]) /\
           Status (server w') = StatusError /\
           emits_sample [DBUpdateStatus id StatusError] = false
     | (_, _, None) =>
         exists s2 w' eff,
           Worker_tick dial P now s lp =
             Some (s2, {| lw := w'; reconnectAttempts := 0 |},
                   DBUpdateStatus id StatusOnline :: eff) /\
           Status (server w') = StatusOnline
     end) /\
  (forall s' lp' eff,
     Worker_tick dial P now s lp = Some (s', lp', eff) ->
     0 <= reconnectAttempts lp' <= maxReconnectAttempts).
Proof.
  intros Hreach Hdisc attempts id.
  pose proof (reachable_bounded lp Hreach) as Hb.
  split; [exact Hb |].
  split; [| split].
  - intros Hgt. unfold Worker_tick. rewrite Hdisc, add64_small by done.
    apply Z.ltb_lt in Hgt. fold attempts. rewrite Hgt. simpl.
    eexists. split; [reflexivity |]. split; reflexivity.
  - intros Hle. unfold Worker_tick. rewrite Hdisc, add64_small by done.
    fold attempts.
    destruct (Z.ltb_spec maxReconnectAttempts attempts) as [Hgt | _]; [lia |].
    destruct (Worker_connect dial now s (lw lp)) as [[s1 w1] [e |]] eqn:Hconn.
    + pose proof (Worker_connect_server _ _ _ _ _ _ _ Hconn) as Hsrv.
      simpl. rewrite Hsrv. eexists. split; [reflexivity |]. split; reflexivity.
    + pose proof (Worker_connect_server _ _ _ _ _ _ _ Hconn) as Hsrv.
      unfold Worker_connect in Hconn.
      destruct (SSHPool_GetClient dial now s (server (lw lp)) (wpassword (lw lp)))
        as [s0 [l | err]] eqn:Hget; [| done].
      injection Hconn as <- <-.
      destruct (SSHPool_GetClient_allocated _ _ _ _ _ _ _ Hget) as [c Hc].
      simpl. unfold Worker_collect. simpl. rewrite Hc.
      destruct (CollectAll_total P now c) as [c' [snap Hsnap]].
      rewrite Hsnap. simpl. eexists _, _, _. split; reflexivity.
  - intros s' lp' eff Htick.
    exact (reachable_bounded lp' (reach_tick dial P now s lp s' lp' eff Hreach Htick)).
Qed.

Lemma lp_failed_reachable : reachable (lp_failed 3).
Proof.
  assert (H0 : reachable (lp_failed 0)).
  { by apply (reach_start dial_fail 0 ssh_empty w7 ssh_empty _ [DBUpdateStatus 7 StatusError]). }
  assert (Hstep : forall n, 0 <= n < 3 -> reachable (lp_failed n) -> reachable (lp_failed (n + 1))).
  { intros n Hn Hr.
    apply (reach_tick dial_fail probes_down 0 ssh_empty (lp_failed n) ssh_empty _
             [DBUpdateStatus 7 StatusError] Hr).
    unfold Worker_tick. simpl. rewrite add64_small by (unfold maxReconnectAttempts; lia).
    destruct (Z.ltb_spec maxReconnectAttempts (n + 1)) as [Hgt | _];
      [unfold maxReconnectAttempts in Hgt; lia | reflexivity]. }
  apply (Hstep 2); [lia |]. apply (Hstep 1); [lia |]. apply (Hstep 0); [lia | exact H0].
Qed.

Lemma Worker_tick_reconnect_policy_witness :
  reachable (lp_failed 3) /\
  Worker_disconnected ssh_empty (lw (lp_failed 3)) = true /\
  exists w',
    Worker_tick dial_fail probes_down 9 ssh_empty (lp_failed 3) =
      Some (ssh_empty, {| lw := w'; reconnectAttempts := 0 |},
            [DBUpdateStatus 7 StatusError; Sleep 30]) /\
    Status (server w') = StatusError /\
    emits_sample [DBUpdateStatus 7 StatusError; Sleep 30] = false.
Proof.
  split; [exact lp_failed_reachable |]. split; [reflexivity |].
  apply (proj1 (proj2 (Worker_tick_reconnect_policy dial_fail probes_down 9 ssh_empty
                         (lp_failed 3) lp_failed_reachable eq_refl))).
  unfold maxReconnectAttempts. simpl. lia.
Defined.

(** ** POST /servers/:id/ssh/exec *)

Lemma Execute_keeps_dir net now c command :
  CurrentDir (Execute net now c command).1 = CurrentDir c.
Proof.
  unfold Execute. destruct (connected c), (client c) as [k |]; try done.
  destruct (net k command) as [e | [e |] out errbuf]; try done.
  by destruct (bool_decide (errbuf <> "")).
Qed.

Lemma Execute_ok_keeps_session net now c command out :
  (Execute net now c command).2 = Ok out ->
  connected (Execute net now c command).1 = connected c /\
  client (Execute net now c command).1 = client c.
Proof.
  unfold Execute.
  destruct (connected c) eqn:Hc, (client c) as [k |] eqn:Hk; simpl; try discriminate.
  destruct (net k command) as [e | [e |] o errbuf]; simpl; try discriminate.
  - destruct (bool_decide (errbuf <> "")); discriminate.
  - intros _. simpl. by rewrite Hc, Hk.
Qed.

(** The two commands of one request, as the handler builds them. *)
Lemma exec_in_cwd_unfold net now c command :
  let full := if bool_decide (CurrentDir c <> "")
              then "cd " +:+ CurrentDir c +:+ " && " +:+ command else command in
  let follow := if bool_decide (CurrentDir c <> "")
                then "cd " +:+ CurrentDir c +:+ " && " +:+ command +:+ " && pwd"
                else command +:+ " && pwd" in
  let first := Execute net now c full in
  let second := Execute net now first.1 follow in
  (exec_in_cwd net now c command).1 =
    if is_ok first.2 && HasPrefix (TrimSpace command) "cd " then
      (match second.2 with
       | Ok newDir => set_CurrentDir second.1 (TrimSpace newDir)
       | Err _ => second.1
       end, [full; follow])
    else (first.1, [full]).
Proof.
  cbv zeta. unfold exec_in_cwd.
  set (full := if bool_decide (CurrentDir c <> "") then _ else _).
  pose proof (Execute_keeps_dir net now c full) as Hdir.
  destruct (Execute net now c full) as [c1 out]. simpl in Hdir. simpl.
  rewrite Hdir.
  destruct (is_ok out && HasPrefix (TrimSpace command) "cd ").
  - destruct (Execute net now c1 _) as [c2 [newDir | e]]; simpl;
      by destruct out.
  - by destruct out.
Qed.

(** The interactive-cwd scenario on a session whose cwd is still empty. *)
Lemma cd_tmp_then_pwd net now now' c k o1 e1 e2 :
  connected c = true -> client c = Some k -> CurrentDir c = "" ->
  net k "cd /tmp" = Ran None o1 e1 ->
  net k "cd /tmp && pwd" = Ran None ("/tmp" +:+ nl) e2 ->
  CurrentDir (exec_in_cwd net now c "cd /tmp").1.1 = "/tmp" /\
  (exec_in_cwd net now' (exec_in_cwd net now c "cd /tmp").1.1 "pwd").2 =
    {| code := StatusOK;
       body := [("output", JStr ("/tmp" +:+ nl)); ("lines", JLines ["/tmp"]);
                ("command", JStr "pwd"); ("currentDir", JStr "/tmp")] |}.
Proof.
  intros Hconn Hk Hcwd H1 H2.
  destruct c as [srv cl cn lu pw cd]. simpl in Hconn, Hk, Hcwd. subst cl cn cd.
  unfold exec_in_cwd, Execute. simpl. rewrite H1. simpl.
  assert (E : "cd /tmp" +:+ " && pwd" = "cd /tmp && pwd") by reflexivity.
  rewrite !E, H2. simpl.
  assert (E' : "cd " +:+ "/tmp" +:+ " && " +:+ "pwd" = "cd /tmp && pwd") by reflexivity.
  assert (E2 : TrimSpace ("/tmp" +:+ nl) = "/tmp") by reflexivity.
  rewrite !E2, !E', H2. simpl. split; reflexivity.
Qed.

(** C5, as stated, fails. With cwd [/home] the request [cd x] runs
    [cd /home && cd x], which succeeds, and then the follow-up
    [cd /home && cd x && pwd]; the follow-up writes [/home/x] to stdout
    but its run ends in an error, and the cwd stays [/home] instead of
    becoming the trimmed stdout. With an empty cwd the follow-up of
    [cd /tmp] is [cd /tmp && pwd], without a leading [cd]. *)
Lemma exec_in_cwd_followup_not_stored :
  (let '(c', ran, resp) := exec_in_cwd net0 5 c_home "cd x" in
   HasPrefix (TrimSpace "cd x") "cd " = true /\
   is_ok (Execute net0 5 c_home "cd /home && cd x").2 = true /\
   ran = ["cd /home && cd x"; "cd /home && cd x && pwd"] /\
   net0 1%nat "cd /home && cd x && pwd" =
     Ran (Some "wait: remote command exited without exit status or exit signal")
         ("/home/x" +:+ nl) "" /\
   CurrentDir c' = "/home" /\
   CurrentDir c' <> TrimSpace ("/home/x" +:+ nl)) /\
  (let '(c', ran, resp) := exec_in_cwd net0 5 c_up "cd /tmp" in
   CurrentDir c_up = "" /\
   ran = ["cd /tmp"; "cd /tmp && pwd"] /\
   ran <> ["cd /tmp"; "cd " +:+ CurrentDir c_up +:+ " && cd /tmp && pwd"]).
Proof. vm_compute. repeat split; discriminate. Qed.

(** C5, amended. The handler runs [cd <cwd> && <cmd>] when the session's
    cwd is non-empty and [<cmd>] alone when it is empty. When the
    trimmed command starts with [cd ] and that run succeeds, it runs a
    follow-up, [cd <cwd> && <cmd> && pwd] (or [<cmd> && pwd] for an empty
    cwd), and stores the follow-up's trimmed stdout as the new cwd if the
    follow-up succeeds; if the follow-up fails, and for every other
    request, the cwd is unchanged. So [cd /tmp] on a fresh session,
    followed by [pwd], answers with output "/tmp\n" and currentDir
    "/tmp". *)
Theorem exec_in_cwd_tracks_directory (net : transport) (now : Z) (c : SSHClient)
    (command : string) :
  let cwd := CurrentDir c in
  let full := if bool_decide (cwd <> "")
              then "cd " +:+ cwd +:+ " && " +:+ command else command in
  let follow := if bool_decide (cwd <> "")
                then "cd " +:+ cwd +:+ " && " +:+ command +:+ " && pwd"
                else command +:+ " && pwd" in
  let first := Execute net now c full in
  let second := Execute net now first.1 follow in
  let c' := (exec_in_cwd net now c command).1.1 in
  let ran := (exec_in_cwd net now c command).1.2 in
  (cwd <> "" -> head ran = Some ("cd " +:+ cwd +:+ " && " +:+ command)) /\
  (cwd = "" -> head ran = Some command) /\
  (HasPrefix (TrimSpace command) "cd " = true -> is_ok first.2 = true ->
     ran = [full; follow] /\
     (cwd <> "" -> follow = "cd " +:+ cwd +:+ " && " +:+ command +:+ " && pwd") /\
     match second.2 with
     | Ok newDir => CurrentDir c' = TrimSpace newDir
     | Err _ => CurrentDir c' = cwd
     end) /\
  (HasPrefix (TrimSpace command) "cd " = false \/ is_ok first.2 = false ->
     ran = [full] /\ CurrentDir c' = cwd) /\
  (forall k o1 e1 e2 now',
     connected c = true -> client c = Some k -> cwd = "" ->
     net k "cd /tmp" = Ran None o1 e1 ->
     net k "cd /tmp && pwd" = Ran None ("/tmp" +:+ nl) e2 ->
     let c1 := (exec_in_cwd net now c "cd /tmp").1.1 in
     CurrentDir c1 = "/tmp" /\
     (exec_in_cwd net now' c1 "pwd").2 =
       {| code := StatusOK;
          body := [("output", JStr ("/tmp" +:+ nl)); ("lines", JLines ["/tmp"]);
                   ("command", JStr "pwd"); ("currentDir", JStr "/tmp")] |}).
Proof.
  intros cwd full follow first second c' ran.
  pose proof (exec_in_cwd_unfold net now c command) as Hun. cbv zeta in Hun.
  fold cwd full follow first second in Hun.
  assert (Hran : ran = (exec_in_cwd net now c command).1.2) by reflexivity.
  assert (Hc' : c' = (exec_in_cwd net now c command).1.1) by reflexivity.
  rewrite Hun in Hran, Hc'. clear Hun.
  assert (Hhead : head ran = Some full).
  { rewrite Hran. by destruct (is_ok first.2 && HasPrefix (TrimSpace command) "cd "). }
  split; [| split; [| split; [| split]]].
  - intros Hne. rewrite Hhead. subst full. by rewrite bool_decide_eq_true_2.
  - intros He. rewrite Hhead. subst full.
    by rewrite bool_decide_eq_false_2 by (intros Hn; by apply Hn).
  - intros Hcd Hok. rewrite Hok, Hcd in Hran, Hc'. simpl in Hran, Hc'.
    split; [exact Hran |]. split.
    + intros Hne. subst follow. by rewrite bool_decide_eq_true_2.
    + pose proof (Execute_keeps_dir net now first.1 follow) as Hd2.
      pose proof (Execute_keeps_dir net now c full) as Hd1.
      fold first in Hd1. fold second in Hd2.
      rewrite Hc'. destruct second.2 as [newDir | e]; simpl; [done |].
      by rewrite Hd2, Hd1.
  - intros Hno.
    assert (is_ok first.2 && HasPrefix (TrimSpace command) "cd " = false) as Hb.
    { destruct Hno as [-> | ->]; [apply andb_false_r | done]. }
    rewrite Hb in Hran, Hc'. simpl in Hran, Hc'. split; [exact Hran |].
    rewrite Hc'. apply Execute_keeps_dir.
  - intros k o1 e1 e2 now' Hconn Hk Hcwd H1 H2. subst cwd.
    by apply (cd_tmp_then_pwd net now now' c k o1 e1 e2).
Qed.

Lemma exec_in_cwd_tracks_directory_witness :
  head (exec_in_cwd net0 5 c_home "cd x").1.2 = Some "cd /home && cd x" /\
  (exec_in_cwd net0 5 c_up "cd /tmp").1.2 = ["cd /tmp"; "cd /tmp && pwd"] /\
  CurrentDir (exec_in_cwd net0 5 c_up "cd /tmp").1.1 = "/tmp" /\
  CurrentDir (exec_in_cwd net0 5 c_home "cd x").1.1 = "/home" /\
  CurrentDir (exec_in_cwd net0 5 c_home "ls").1.1 = "/home".
Proof.
  pose proof (exec_in_cwd_tracks_directory net0 5 c_home "cd x") as Hx.
  pose proof (exec_in_cwd_tracks_directory net0 5 c_up "cd /tmp") as Ht.
  pose proof (exec_in_cwd_tracks_directory net0 5 c_home "ls") as Hl.
  cbv zeta in Hx, Ht, Hl.
  destruct Hx as (Hx1 & _ & Hx3 & _).
  destruct Ht as (_ & _ & Ht3 & _).
  destruct Hl as (_ & _ & _ & Hl4 & _).
  split; [| split; [| split; [| split]]].
  - apply Hx1. discriminate.
  - exact (proj1 (Ht3 eq_refl eq_refl)).
  - exact (proj2 (proj2 (Ht3 eq_refl eq_refl))).
  - exact (proj2 (proj2 (Hx3 eq_refl eq_refl))).
  - apply Hl4. left. reflexivity.
Defined.

(** ** SearchFiles *)

Lemma search_loop_take (Match : matcher) (pattern : string) (steps : list walk_step) :
  forall results, (length results < 100)%nat ->
    search_loop Match pattern steps results =
      take 100 (results ++ omap (search_keeps Match pattern) steps)%list.
Proof.
  induction steps as [| st rest IH]; intros results Hlen; cbn [search_loop omap list_omap].
  - rewrite app_nil_r. symmetry. apply take_ge. lia.
  - destruct st as [path e | path info]; cbn [search_keeps]; [by apply IH |].
    destruct (Match pattern (st_name info)) as [matched | e]; [| by apply IH].
    destruct (matched || Contains (ToLower (st_name info)) (ToLower pattern));
      [| by apply IH].
    replace (results ++ search_hit path info :: omap (search_keeps Match pattern) rest)%list
      with ((results ++ [search_hit path info])
              ++ omap (search_keeps Match pattern) rest)%list
      by (by rewrite <- app_assoc).
    destruct (Nat.leb_spec 100 (length (results ++ [search_hit path info]))) as [Hfull | Hroom].
    + rewrite length_app in Hfull. simpl in Hfull.
      rewrite take_app_length'; [done |]. rewrite length_app. simpl. lia.
    + by apply IH.
Qed.

(** C6, as stated, fails: with the pattern "[" the entry [a[b] contains
    the lowercased pattern as a substring, yet the search returns
    nothing, because the matcher rejects the pattern and the entry is
    skipped before the substring test. *)
Lemma SearchFiles_bad_pattern_skips :
  Contains (ToLower "a[b") (ToLower "[") = true /\
  filepath_Match "[" "a[b" = Err ErrBadPattern /\
  In (StepOk "/data/a[b" (stat_of "a[b" 1 false)) (Walk fs_bracket "/data") /\
  SearchFiles filepath_Match fs_bracket "/data" "[" = ([], None).
Proof. vm_compute. repeat split; auto. Qed.

(** C6, amended. The result of a search is the first 100 entries, in
    walk order, of those that the walker stepped to without error, for
    which the matcher did not reject the pattern as malformed, and whose
    base name glob-matches the pattern or, lowercased, contains the
    lowercased pattern. So the result never has more than 100 entries,
    has exactly 100 as soon as 100 entries qualify, and walker errors are
    skipped: no error is returned. *)
Theorem SearchFiles_first_hundred (Match : matcher) (fs : RemoteFS)
    (basePath pattern : string) :
  let hits := omap (search_keeps Match pattern) (Walk fs basePath) in
  SearchFiles Match fs basePath pattern = (take 100 hits, None) /\
  (length (SearchFiles Match fs basePath pattern).1 <= 100)%nat /\
  ((100 <= length hits)%nat ->
     length (SearchFiles Match fs basePath pattern).1 = 100%nat) /\
  (forall step fi,
     search_keeps Match pattern step = Some fi <->
     exists path info matched,
       step = StepOk path info /\ fi = search_hit path info /\
       Match pattern (st_name info) = Ok matched /\
       (matched = true \/
        Contains (ToLower (st_name info)) (ToLower pattern) = true)).
Proof.
  intros hits.
  assert (Heq : SearchFiles Match fs basePath pattern = (take 100 hits, None)).
  { unfold SearchFiles. rewrite search_loop_take by (simpl; lia). done. }
  split; [exact Heq |]. rewrite Heq. simpl. split; [| split].
  - rewrite length_take. lia.
  - intros Hmany. rewrite length_take. lia.
  - intros step fi. split.
    + destruct step as [path e | path info]; simpl; [done |].
      destruct (Match pattern (st_name info)) as [matched | e] eqn:HM; [| done].
      destruct (matched || Contains (ToLower (st_name info)) (ToLower pattern)) eqn:Hb;
        [| done].
      intros [= <-]. exists path, info, matched.
      split; [done |]. split; [done |]. split; [done |].
      apply orb_true_iff in Hb. exact Hb.
    + intros (path & info & matched & -> & -> & HM & Hor). simpl. rewrite HM.
      apply orb_true_iff in Hor. by rewrite Hor.
Qed.

Lemma SearchFiles_first_hundred_witness :
  (100 <= length (omap (search_keeps filepath_Match "foo*") (Walk fs_foo500 "/data")))%nat /\
  length (omap (search_keeps filepath_Match "foo*") (Walk fs_foo500 "/data")) = 500%nat /\
  length (SearchFiles filepath_Match fs_foo500 "/data" "foo*").1 = 100%nat.
Proof.
  assert (H : length (omap (search_keeps filepath_Match "foo*") (Walk fs_foo500 "/data"))
              = 500%nat) by (vm_compute; reflexivity).
  split; [rewrite H; lia | split; [exact H |]].
  apply (proj1 (proj2 (proj2 (SearchFiles_first_hundred filepath_Match fs_foo500
                                "/data" "foo*")))).
  rewrite H. lia.
Defined.

(** ** GetDirectorySize *)

Lemma wrap64_add_l (a b : Z) : wrap64 (wrap64 a + b) = wrap64 (a + b).
Proof.
  unfold wrap64. f_equal.
  replace ((a + 2 ^ 63) mod 2 ^ 64 - 2 ^ 63 + b + 2 ^ 63)
    with ((a + 2 ^ 63) mod 2 ^ 64 + b) by lia.
  rewrite Zplus_mod_idemp_l. f_equal. lia.
Qed.

Lemma wrap64_small (z : Z) : in_int64 z -> wrap64 z = z.
Proof. unfold in_int64, wrap64. intros H. rewrite Z.mod_small; lia. Qed.

Lemma dirsize_fold (path : string) (steps : list walk_step) :
  forall sz fc dc,
    fold_left dirsize_step steps
      {| ds_Path := path; ds_Size := wrap64 sz; ds_FileCount := wrap64 fc;
         ds_DirCount := wrap64 dc |} =
    {| ds_Path := path;
       ds_Size := wrap64 (sz + total step_bytes steps);
       ds_FileCount := wrap64 (fc + total step_is_file steps);
       ds_DirCount := wrap64 (dc + total step_is_dir steps) |}.
Proof.
  induction steps as [| st rest IH]; intros sz fc dc; simpl.
  - by rewrite !Z.add_0_r.
  - destruct st as [p e | p info]; simpl.
    + rewrite IH. done.
    + destruct (st_isdir info); simpl; unfold add64; rewrite !wrap64_add_l, IH.
      * f_equal; f_equal; lia.
      * f_equal; f_equal; lia.
Qed.

(** C8, as stated, fails at its boundary: the walk of an empty directory
    steps to the directory itself, which is counted, so the answer is
    one directory, not none. *)
Lemma GetDirectorySize_empty_counts_root :
  Walk fs_empty_dir "/srv/empty" = [StepOk "/srv/empty" (stat_of "empty" 4096 true)] /\
  GetDirectorySize fs_empty_dir "/srv/empty" =
    ({| ds_Path := "/srv/empty"; ds_Size := 0; ds_FileCount := 0; ds_DirCount := 1 |},
     None) /\
  (GetDirectorySize fs_empty_dir "/srv/empty").1 <>
    {| ds_Path := "/srv/empty"; ds_Size := 0; ds_FileCount := 0; ds_DirCount := 0 |}.
Proof. vm_compute. repeat split; discriminate. Qed.

(** C8, amended. [GetDirectorySize] walks the tree rooted at the path,
    the root included; over the steps the walker reports without error
    it adds up the sizes of the files and counts files and directories
    separately (in 64-bit arithmetic, exact while the sums fit), and
    never returns an error. For an empty directory it returns size 0,
    no file and one directory: the directory itself. *)
Theorem GetDirectorySize_totals (fs : RemoteFS) (path : string) :
  let steps := Walk fs path in
  GetDirectorySize fs path =
    ({| ds_Path := path;
        ds_Size := wrap64 (total step_bytes steps);
        ds_FileCount := wrap64 (total step_is_file steps);
        ds_DirCount := wrap64 (total step_is_dir steps) |}, None) /\
  (in_int64 (total step_bytes steps) ->
   in_int64 (Z.of_nat (length steps)) ->
     GetDirectorySize fs path =
       ({| ds_Path := path;
           ds_Size := total step_bytes steps;
           ds_FileCount := total step_is_file steps;
           ds_DirCount := total step_is_dir steps |}, None)) /\
  (forall info,
     fs_lstat fs path = Ok (Node info None []) -> st_isdir info = true ->
     GetDirectorySize fs path =
       ({| ds_Path := path; ds_Size := 0; ds_FileCount := 0; ds_DirCount := 1 |},
        None)).
Proof.
  intros steps.
  assert (Heq : GetDirectorySize fs path =
    ({| ds_Path := path;
        ds_Size := wrap64 (total step_bytes steps);
        ds_FileCount := wrap64 (total step_is_file steps);
        ds_DirCount := wrap64 (total step_is_dir steps) |}, None)).
  { unfold GetDirectorySize. fold steps.
    pose proof (dirsize_fold path steps 0 0 0) as H.
    change (wrap64 0) with 0 in H. rewrite H. by rewrite !Z.add_0_l. }
  split; [exact Heq |]. split.
  - intros Hbytes Hlen. rewrite Heq.
    assert (Hcount : forall l, 0 <= total step_is_file l <= Z.of_nat (length l) /\
                               0 <= total step_is_dir l <= Z.of_nat (length l)).
    { induction l as [| st rest [IHf IHd]]; simpl; [lia |].
      destruct st as [p e | p info]; simpl; [lia |].
      destruct (st_isdir info); lia. }
    destruct (Hcount steps) as [Hf Hd]. unfold in_int64 in *.
    rewrite !wrap64_small; [done | | |]; unfold in_int64; lia.
  - intros info Hroot Hdir. unfold GetDirectorySize, Walk. rewrite Hroot.
    simpl. rewrite Hdir. simpl. reflexivity.
Qed.

Lemma GetDirectorySize_totals_witness :
  GetDirectorySize fs_small "/data" =
    ({| ds_Path := "/data"; ds_Size := 42; ds_FileCount := 2; ds_DirCount := 2 |}, None) /\
  GetDirectorySize fs_empty_dir "/srv/empty" =
    ({| ds_Path := "/srv/empty"; ds_Size := 0; ds_FileCount := 0; ds_DirCount := 1 |},
     None).
Proof.
  split.
  - apply (proj1 (proj2 (GetDirectorySize_totals fs_small "/data"))).
    + vm_compute. split; [discriminate | reflexivity].
    + vm_compute. split; [discriminate | reflexivity].
  - apply (proj2 (proj2 (GetDirectorySize_totals fs_empty_dir "/srv/empty"))
             (stat_of "empty" 4096 true)); reflexivity.
Defined.

(** ** DELETE /servers/:id *)

(** Removing a worker, and so deleting a server, never touches the
    file-transfer pool. *)
Lemma DeleteServer_sftp_untouched (wd : World) (param : result N)
    (db_delete : N -> option error) :
  sftp (DeleteServer wd param db_delete).1 = sftp wd.
Proof.
  unfold DeleteServer. destruct param as [id | e]; [| done].
  assert (H : sftp (RemoveWorker wd id) = sftp wd).
  { unfold RemoveWorker. destruct (workers wd !! id) as [w |]; [| done].
    by destruct (Worker_Stop (ssh wd) w). }
  by destruct (db_delete id).
Qed.

(** A worker that holds a session takes the transport-pool entry of its
    server with it. *)
Lemma RemoveWorker_drops_session (wd : World) (id : N) (w : Worker) (l : loc) :
  workers wd !! id = Some w -> ID (server w) = id -> sshClient w = Some l ->
  workers (RemoveWorker wd id) !! id = None /\
  ssh_clients (ssh (RemoveWorker wd id)) !! id = None.
Proof.
  intros Hw Hid Hl. unfold RemoveWorker, Worker_Stop. rewrite Hw, Hl, Hid. simpl.
  split; [apply lookup_delete_eq |].
  unfold SSHPool_RemoveClient.
  destruct (ssh_clients (ssh wd) !! id) as [l' |] eqn:Hp; simpl; [| done].
  apply lookup_delete_eq.
Qed.

(** The branch of [SSHPool.GetClient] that dials: on success the new
    client sits under the server's id and nothing else moved. *)
Ltac fresh_session :=
  match goal with
  | |- context [Connect ?dial ?now ?c] =>
      destruct (Connect dial now c) as [? [? |]]; [done |];
      intros [= <- <-]; simpl; split; [apply lookup_insert_eq |];
      intros ? ?; by rewrite lookup_insert_ne
  end.

(** Either pool is a map from host id to one pooled object: an
    acquisition installs its result under the host's id and leaves every
    other id alone. *)
Lemma SSHPool_GetClient_installs dial now s srv pw s' l :
  SSHPool_GetClient dial now s srv pw = (s', Ok l) ->
  ssh_clients s' !! ID srv = Some l /\
  forall id, id <> ID srv -> ssh_clients s' !! id = ssh_clients s !! id.
Proof.
  unfold SSHPool_GetClient, ssh_cached.
  destruct (ssh_clients s !! ID srv) as [l0 |] eqn:Hl0.
  - destruct (ssh_heap s !! l0) as [c0 |] eqn:Hc0; [| fresh_session].
    destruct (connected c0); [| fresh_session].
    by intros [= <- <-].
  - fresh_session.
Qed.

(** C2 at work on server 7: [DELETE /servers/7] answers 200, removes the
    worker and the pooled session (closing it), and leaves the file
    channel of server 7 cached, still non-nil, over the closed session;
    the next file request for server 7 is handed that stale channel. *)
Lemma DeleteServer_leaves_file_channel :
  let '(wd', resp) := DeleteServer world7 (Ok 7%N) (fun _ => None) in
  code resp = StatusOK /\
  workers wd' !! 7%N = None /\
  ssh_clients (ssh wd') !! 7%N = None /\
  ssh_heap (ssh wd') !! 0%nat = Some (SSHClient_Close c_up) /\
  sftp_clients (sftp wd') !! 7%N = Some 0%nat /\
  sftp_heap (sftp wd') !! 0%nat =
    Some {| sftp_sshClient := 0%nat; sftpClient := Some 3%nat |} /\
  SFTPPool_GetClient dial_ok open_ok 9 (ssh wd') (sftp wd') srv7 "pw" =
    (ssh wd', sftp wd', Ok 0%nat).
Proof. vm_compute. repeat split. Qed.

(** ** The hub: lossy fan-out *)

Lemma try_send_closed (cl : Client) (m : frame) :
  send_closed (try_send cl m).1 = send_closed cl.
Proof.
  unfold try_send. destruct (send_closed cl) eqn:H; [done |].
  by destruct (length (send cl) <? chan_cap)%nat.
Qed.

Lemma try_send_subscriptions (cl : Client) (m : frame) :
  subscriptions (try_send cl m).1 = subscriptions cl.
Proof.
  unfold try_send. destruct (send_closed cl); [done |].
  by destruct (length (send cl) <? chan_cap)%nat.
Qed.

Lemma try_send_bounded (cl : Client) (m : frame) :
  (length (send cl) <= chan_cap)%nat -> (length (send (try_send cl m).1) <= chan_cap)%nat.
Proof.
  unfold try_send. intros H. destruct (send_closed cl); [done |].
  destruct (Nat.ltb_spec (length (send cl)) chan_cap); simpl; [| done].
  rewrite length_app. simpl. lia.
Qed.

Lemma try_send_open (cl : Client) (m : frame) :
  send_closed cl = false ->
  try_send cl m =
    if (length (send cl) <? chan_cap)%nat then (push cl m, Delivered) else (cl, Dropped).
Proof. unfold try_send. by intros ->. Qed.

Section FanOut.
Variable m : frame.

Lemma attempt_on_insert_other (heap : gmap loc Client) (c : loc) (x : Client)
    (ts : list loc) :
  c ∉ ts -> omap (attempt_on m (<[c := x]> heap)) ts = omap (attempt_on m heap) ts.
Proof.
  induction ts as [| t ts IH]; intros Hnotin; [done |].
  apply not_elem_of_cons in Hnotin as [Hne Hnotin].
  assert (Hatt : attempt_on m (<[c := x]> heap) t = attempt_on m heap t).
  { unfold attempt_on. by rewrite lookup_insert_ne. }
  simpl. rewrite Hatt.
  destruct (attempt_on m heap t); [f_equal |]; by apply IH.
Qed.

(** The fan-out, target by target: every target present on the heap gets
    exactly one try-send on its own queue; nothing else changes. *)
Lemma fanout_fold (targets : list loc) :
  forall heap tr0, NoDup targets ->
    let r := fold_left (fanout_step m) targets (heap, tr0) in
    (forall c, r.1 !! c =
       if decide (c ∈ targets) then (fun cl => (try_send cl m).1) <$> heap !! c
       else heap !! c) /\
    r.2 = (tr0 ++ omap (attempt_on m heap) targets)%list.
Proof.
  induction targets as [| t ts IH]; intros heap tr0 Hnd; cbv zeta.
  - split; [| simpl; by rewrite app_nil_r]. intros c.
    rewrite decide_False by apply not_elem_of_nil. done.
  - apply NoDup_cons in Hnd as [Hnotin Hnd].
    cbn [fold_left omap list_omap]. unfold fanout_step at 2 4. cbn [fst snd].
    unfold attempt_on at 1.
    destruct (heap !! t) as [cl |] eqn:Ht; cbn [fmap option_fmap option_map].
    + destruct (try_send cl m) as [cl' a] eqn:Hts.
      destruct (IH (<[t := cl']> heap) (tr0 ++ [(t, a)])%list Hnd) as [IHh IHt].
      split.
      * intros c. rewrite IHh.
        destruct (decide (c = t)) as [-> | Hne].
        -- rewrite decide_False by exact Hnotin.
           rewrite decide_True by (apply elem_of_cons; by left).
           rewrite lookup_insert_eq, Ht. simpl. by rewrite Hts.
        -- rewrite lookup_insert_ne by done.
           destruct (decide (c ∈ ts)) as [Hin | Hout].
           ++ by rewrite decide_True by (apply elem_of_cons; by right).
           ++ rewrite decide_False; [done |].
              by intros [? | ?]%elem_of_cons.
      * rewrite IHt, attempt_on_insert_other by done. by rewrite <- app_assoc.
    + destruct (IH heap tr0 Hnd) as [IHh IHt]. split; [| exact IHt].
      intros c. rewrite IHh.
      destruct (decide (c = t)) as [-> | Hne].
      * rewrite decide_False by exact Hnotin.
        rewrite decide_True by (apply elem_of_cons; by left). by rewrite Ht.
      * destruct (decide (c ∈ ts)) as [Hin | Hout].
        -- by rewrite decide_True by (apply elem_of_cons; by right).
        -- rewrite decide_False; [done |].
           by intros [? | ?]%elem_of_cons.
Qed.

Lemma fanout_lookup (targets : list loc) (heap : gmap loc Client) (c : loc) :
  NoDup targets ->
  (fanout targets m heap).1 !! c =
    if decide (c ∈ targets) then (fun cl => (try_send cl m).1) <$> heap !! c
    else heap !! c.
Proof. intros Hnd. apply (fanout_fold targets heap [] Hnd). Qed.

Lemma fanout_trace (targets : list loc) (heap : gmap loc Client) :
  NoDup targets ->
  (fanout targets m heap).2 = omap (attempt_on m heap) targets.
Proof. intros Hnd. apply (fanout_fold targets heap [] Hnd). Qed.

(** When every target is on the heap, the trace has one entry per
    target, in order. *)
Lemma attempts_cover (heap : gmap loc Client) (targets : list loc) :
  (forall c, c ∈ targets -> is_Some (heap !! c)) ->
  (omap (attempt_on m heap) targets).*1 = targets.
Proof.
  induction targets as [| t ts IH]; intros Hall; [done |]. simpl.
  destruct (Hall t) as [cl Hcl]; [by left |].
  unfold attempt_on at 1. rewrite Hcl. simpl. f_equal.
  apply IH. intros c Hc. apply Hall. by right.
Qed.

Lemma attempt_in_trace (heap : gmap loc Client) (targets : list loc)
    (c : loc) (cl : Client) :
  c ∈ targets -> heap !! c = Some cl ->
  (c, (try_send cl m).2) ∈ omap (attempt_on m heap) targets.
Proof.
  intros Hin Hcl. apply list_elem_of_omap. exists c. split; [done |].
  unfold attempt_on. by rewrite Hcl.
Qed.

Lemma trace_attempt (heap : gmap loc Client) (targets : list loc)
    (c : loc) (a : attempt) :
  (c, a) ∈ omap (attempt_on m heap) targets ->
  c ∈ targets /\ exists cl, heap !! c = Some cl /\ a = (try_send cl m).2.
Proof.
  intros (t & Ht & Hatt)%list_elem_of_omap. unfold attempt_on in Hatt.
  destruct (heap !! t) as [cl |] eqn:Hcl; [| done]. simpl in Hatt.
  injection Hatt as <- <-. split; [done |]. by exists cl.
Qed.

End FanOut.

(** A fan-out keeps the hub invariant. *)
Lemma hub_ok_fanout (h : HubState) (targets : list loc) (m : frame) :
  hub_ok h -> NoDup targets ->
  hub_ok (set_heap h (fanout targets m (hub_heap h)).1).
Proof.
  intros [Hreg Hrooms Hq Hb] Hnd. split; simpl.
  - intros c Hc. destruct (Hreg c Hc) as (cl & Hcl & Hopen).
    rewrite fanout_lookup by done. rewrite Hcl. case_decide; simpl.
    + eexists. split; [done |]. by rewrite try_send_closed.
    + by exists cl.
  - intros serverID room c Hroom Hc.
    destruct (Hrooms serverID room c Hroom Hc) as (Hregd & cl & Hcl & Hsub).
    split; [done |]. rewrite fanout_lookup by done. rewrite Hcl. case_decide; simpl.
    + eexists. split; [done |]. by rewrite try_send_subscriptions.
    + by exists cl.
  - intros c cl'. rewrite fanout_lookup by done.
    case_decide.
    + destruct (hub_heap h !! c) as [cl |] eqn:Hcl; simpl; [| done].
      intros [= <-]. apply try_send_bounded. by apply (Hq c).
    + apply Hq.
  - done.
Qed.

Lemma hub_ok_set_broadcast (h : HubState) (buf : list frame) :
  hub_ok h -> (length buf <= chan_cap)%nat -> hub_ok (set_broadcast h buf).
Proof. intros [Hreg Hrooms Hq Hb] Hlen. by split. Qed.

Lemma chan_send_room (buf : list frame) (data : frame) :
  (length buf < chan_cap)%nat -> chan_send buf data = Some (buf ++ [data])%list.
Proof.
  intros H. unfold chan_send.
  by destruct (Nat.ltb_spec (length buf) chan_cap); [| lia].
Qed.

Lemma chan_send_full (buf : list frame) (data : frame) :
  chan_send buf data = None -> (chan_cap <= length buf)%nat.
Proof.
  unfold chan_send. by destruct (Nat.ltb_spec (length buf) chan_cap).
Qed.

(** On targets whose queues are open, every attempt is a delivery or a
    drop. *)
Lemma open_targets_attempts (m : frame) (heap : gmap loc Client) (targets : list loc) :
  (forall c cl, c ∈ targets -> heap !! c = Some cl -> send_closed cl = false) ->
  forall c a, (c, a) ∈ omap (attempt_on m heap) targets -> a = Delivered \/ a = Dropped.
Proof.
  intros Hopen c a Hin.
  destruct (trace_attempt m heap targets c a Hin) as (Hc & cl & Hcl & ->).
  rewrite (try_send_open cl m (Hopen c cl Hc Hcl)).
  destruct (length (send cl) <? chan_cap)%nat; auto.
Qed.

Lemma registered_in_targets (h : HubState) (c : loc) :
  c ∈ elements (dom (hub_clients h)) <-> is_Some (hub_clients h !! c).
Proof. by rewrite elem_of_elements, elem_of_dom. Qed.

(** One dispatch round of [Run] on a buffered message. *)
Lemma Run_broadcast_round (h : HubState) (message : frame) (rest : list frame) :
  hub_ok h -> hub_broadcast h = message :: rest ->
  exists h' tr,
    Run_step h EvBroadcast = Some (h', tr) /\
    hub_ok h' /\
    hub_clients h' = hub_clients h /\ hub_broadcast h' = rest /\
    tr.*1 = elements (dom (hub_clients h)) /\
    (forall c cl, is_Some (hub_clients h !! c) -> hub_heap h !! c = Some cl ->
       if (length (send cl) <? chan_cap)%nat
       then hub_heap h' !! c = Some (push cl message) /\ (c, Delivered) ∈ tr
       else hub_heap h' !! c = Some cl /\ (c, Dropped) ∈ tr) /\
    (forall c, hub_clients h !! c = None -> hub_heap h' !! c = hub_heap h !! c) /\
    (forall c a, (c, a) ∈ tr -> a = Delivered \/ a = Dropped) /\
    (forall data, chan_send (hub_broadcast h') data = Some (rest ++ [data])%list).
Proof.
  intros Hok Hbuf.
  pose proof (NoDup_elements (dom (hub_clients h))) as Hnd.
  set (targets := elements (dom (hub_clients h))) in *.
  pose proof (fanout_lookup message targets (hub_heap h)) as Hlook.
  pose proof (fanout_trace message targets (hub_heap h) Hnd) as Htr.
  pose proof (hub_ok_fanout h targets message Hok Hnd) as Hok'.
  unfold Run_step. rewrite Hbuf. fold targets.
  destruct (fanout targets message (hub_heap h)) as [heap tr] eqn:Hfan.
  simpl in Hlook, Htr, Hok'. subst tr.
  assert (Hlen : (length rest < chan_cap)%nat).
  { pose proof (ok_broadcast h Hok) as Hb. rewrite Hbuf in Hb. simpl in Hb. lia. }
  eexists _, _. split; [reflexivity |]. simpl.
  split; [| split; [done | split; [done | split; [| split; [| split; [| split]]]]]].
  - destruct Hok' as [Hreg Hrooms Hq _]. split; simpl; [done | done | done | lia].
  - apply attempts_cover. intros c Hc. apply registered_in_targets in Hc.
    destruct (ok_registered h Hok c Hc) as (cl & Hcl & _). by exists cl.
  - intros c cl Hc Hcl.
    destruct (ok_registered h Hok c Hc) as (cl0 & Hcl0 & Hopen).
    assert (cl0 = cl) as -> by congruence.
    apply registered_in_targets in Hc.
    pose proof (attempt_in_trace message (hub_heap h) targets c cl Hc Hcl) as Hin.
    rewrite Hlook, decide_True, Hcl by done. simpl.
    rewrite (try_send_open cl message Hopen) in *.
    by destruct (length (send cl) <? chan_cap)%nat.
  - intros c Hc. rewrite Hlook by done. rewrite decide_False; [done |].
    intros Hin. apply registered_in_targets in Hin. rewrite Hc in Hin.
    by destruct Hin.
  - apply open_targets_attempts. intros c cl Hc Hcl.
    apply registered_in_targets in Hc.
    destruct (ok_registered h Hok c Hc) as (cl0 & Hcl0 & Hopen). congruence.
  - intros data. by apply chan_send_room.
Qed.

(** [broadcastToRoom] keeps the invariant and only delivers or drops. *)
Lemma broadcastToRoom_ok (h : HubState) (serverID : N) (data : frame) :
  hub_ok h ->
  hub_ok (broadcastToRoom h serverID data).1 /\
  forall c a, (c, a) ∈ (broadcastToRoom h serverID data).2 -> a = Delivered \/ a = Dropped.
Proof.
  intros Hok. unfold broadcastToRoom.
  destruct (hub_rooms h !! serverID) as [room |] eqn:Hroom; simpl.
  - pose proof (NoDup_elements (dom room)) as Hnd.
    pose proof (fanout_trace data (elements (dom room)) (hub_heap h) Hnd) as Htr.
    pose proof (hub_ok_fanout h (elements (dom room)) data Hok Hnd) as Hok'.
    destruct (fanout (elements (dom room)) data (hub_heap h)) as [heap tr].
    simpl in *. subst tr. split; [done |].
    apply open_targets_attempts. intros c cl Hc Hcl.
    rewrite elem_of_elements, elem_of_dom in Hc.
    destruct (ok_rooms h Hok serverID room c Hroom Hc) as (Hreg & _).
    destruct (ok_registered h Hok c Hreg) as (cl0 & Hcl0 & Hopen). congruence.
  - split; [done |]. intros c a Hin. by apply elem_of_nil in Hin.
Qed.

(** *** The invariant holds from [InitHub] on *)

Lemma InitHub_ok (heap : gmap loc Client) :
  (forall c cl, heap !! c = Some cl -> (length (send cl) <= chan_cap)%nat) ->
  hub_ok (InitHub heap).
Proof.
  intros Hq. split; simpl.
  - intros c [b Hb]. by rewrite lookup_empty in Hb.
  - intros serverID room c Hroom. by rewrite lookup_empty in Hroom.
  - exact Hq.
  - lia.
Qed.

Lemma leave_rooms_lookup (c : loc) (subs : list N) :
  forall rooms serverID,
    leave_rooms c subs rooms !! serverID =
      if decide (serverID ∈ subs) then delete c <$> rooms !! serverID
      else rooms !! serverID.
Proof.
  unfold leave_rooms.
  induction subs as [| s subs IH]; intros rooms serverID; cbn [fold_left].
  - by rewrite decide_False by apply not_elem_of_nil.
  - rewrite IH. destruct (decide (serverID = s)) as [-> | Hne].
    + rewrite lookup_alter_eq.
      rewrite (decide_True (P := s ∈ s :: subs)) by (apply elem_of_cons; by left).
      case_decide; [| done].
      destruct (rooms !! s) as [room |]; simpl; [| done].
      by rewrite delete_delete_eq.
    + rewrite lookup_alter_ne by done.
      destruct (decide (serverID ∈ subs)) as [Hin | Hout].
      * by rewrite decide_True by (apply elem_of_cons; by right).
      * rewrite decide_False; [done |]. by intros [? | ?]%elem_of_cons.
Qed.

(** Every iteration of [Run] keeps the invariant; a client is registered
    with the open queue [NewClient] gave it. *)
Lemma Run_step_ok (h h' : HubState) (ev : hub_event) (tr : list (loc * attempt)) :
  hub_ok h ->
  (forall c, ev = EvRegister c ->
     exists cl, hub_heap h !! c = Some cl /\ send_closed cl = false) ->
  Run_step h ev = Some (h', tr) -> hub_ok h'.
Proof.
  intros Hok Hnew Hstep. destruct ev as [c | c |]; simpl in Hstep.
  - injection Hstep as <- <-. destruct (Hnew c eq_refl) as (cl & Hcl & Hopen).
    destruct Hok as [Hreg Hrooms Hq Hb]. split; simpl; [| | done | done].
    + intros c' Hc'. apply lookup_insert_is_Some' in Hc' as [<- | Hc'].
      * by exists cl.
      * by apply Hreg.
    + intros serverID room c' Hroom Hc'.
      destruct (Hrooms serverID room c' Hroom Hc') as [Hr Hs].
      split; [| done]. apply lookup_insert_is_Some'. by right.
  - destruct (hub_clients h !! c) as [b |] eqn:Hc;
      [| injection Hstep as <- <-; done].
    destruct (hub_heap h !! c) as [cl |] eqn:Hcl;
      [| injection Hstep as <- <-; done].
    injection Hstep as <- <-.
    destruct Hok as [Hreg Hrooms Hq Hb]. split; simpl; [| | | done].
    + intros c' Hc'. apply lookup_delete_is_Some in Hc' as [Hne Hc'].
      rewrite lookup_insert_ne by done. by apply Hreg.
    + intros serverID room c' Hroom Hc'.
      rewrite leave_rooms_lookup in Hroom.
      assert (Hold : exists room0, hub_rooms h !! serverID = Some room0 /\
                                   is_Some (room0 !! c') /\
                                   (c' = c -> serverID ∉ subscriptions cl)).
      { case_decide as Hin.
        - destruct (hub_rooms h !! serverID) as [room0 |]; [| done].
          injection Hroom as <-. apply lookup_delete_is_Some in Hc' as [Hne Hc'].
          exists room0. split; [done |]. split; [done |]. by intros ->.
        - exists room. split; [done |]. split; [done |]. intros _.
          by rewrite elem_of_elements in Hin. }
      destruct Hold as (room0 & Hroom0 & Hc0 & Hsub).
      destruct (Hrooms serverID room0 c' Hroom0 Hc0) as (Hr & cl' & Hcl' & Hin').
      assert (c' <> c) as Hne.
      { intros ->. apply Hsub; [done |]. congruence. }
      split.
      * apply lookup_delete_is_Some. by split.
      * exists cl'. by rewrite lookup_insert_ne.
    + intros c' cl'. rewrite lookup_insert. case_decide as Heq.
      * intros [= <-]. simpl. by apply (Hq c).
      * apply Hq.
  - destruct (hub_broadcast h) as [| message rest] eqn:Hbuf; [done |].
    destruct (Run_broadcast_round h message rest Hok Hbuf) as (h1 & tr1 & Hrun & Hok1 & _).
    unfold Run_step in Hrun. rewrite Hbuf in Hrun. congruence.
Qed.

Lemma lookup_alter_client (f : Client -> Client) (c c' : loc) (heap : gmap loc Client)
    (cl : Client) :
  heap !! c' = Some cl ->
  alter f c heap !! c' = Some (if decide (c = c') then f cl else cl).
Proof.
  intros H. rewrite lookup_alter. case_decide as Heq; [| done].
  subst. by rewrite H.
Qed.

(** Updating a client's subscription set keeps queues open and bounded. *)
Lemma alter_subscriptions_ok (h : HubState) (f : Client -> Client) (c : loc) :
  (forall cl, send cl = send (f cl) /\ send_closed (f cl) = send_closed cl) ->
  hub_ok h ->
  (forall c', is_Some (hub_clients h !! c') ->
     exists cl, alter f c (hub_heap h) !! c' = Some cl /\ send_closed cl = false) /\
  (forall c' cl, alter f c (hub_heap h) !! c' = Some cl ->
     (length (send cl) <= chan_cap)%nat).
Proof.
  intros Hf [Hreg Hrooms Hq Hb]. split.
  - intros c' Hc'. destruct (Hreg c' Hc') as (cl & Hcl & Hopen).
    rewrite (lookup_alter_client f c c' _ cl Hcl). eexists. split; [done |].
    case_decide; [| done]. by rewrite (proj2 (Hf cl)).
  - intros c' cl' Hcl'. apply lookup_alter_Some in Hcl' as [[<- (cl & Hcl & ->)] | [_ Hcl']].
    + rewrite <- (proj1 (Hf cl)). by apply (Hq c).
    + by apply (Hq c').
Qed.

(** [Subscribe] by a registered client keeps the invariant. *)
Lemma Subscribe_ok (h : HubState) (c : loc) (serverID : N) :
  hub_ok h -> is_Some (hub_clients h !! c) -> hub_ok (Subscribe h c serverID).
Proof.
  intros Hok Hc.
  destruct (alter_subscriptions_ok h (fun cl => subscribe_client cl serverID) c
              ltac:(done) Hok) as [Hreg' Hq'].
  destruct Hok as [Hreg Hrooms Hq Hb]. split; simpl; [done | | done | done].
  intros id room c' Hroom Hc'.
  assert (Hsub : forall cl', hub_heap h !! c' = Some cl' ->
                   (id ∈ subscriptions cl' \/ (c' = c /\ id = serverID)) ->
                   exists cl0,
                     alter (fun cl0 => subscribe_client cl0 serverID) c (hub_heap h) !! c'
                       = Some cl0 /\ id ∈ subscriptions cl0).
  { intros cl' Hcl' Hin. rewrite (lookup_alter_client _ c c' _ cl' Hcl').
    eexists. split; [done |]. case_decide as Heq; simpl.
    - apply elem_of_union. destruct Hin as [Hin | [_ ->]]; [by right | left].
      by apply elem_of_singleton.
    - destruct Hin as [? | [? ?]]; [done | congruence]. }
  apply lookup_insert_Some in Hroom as [[<- <-] | [Hne Hroom]].
  - apply lookup_insert_is_Some' in Hc' as [<- | Hc'].
    + split; [done |]. destruct (Hreg c Hc) as (cl & Hcl & _).
      apply (Hsub cl Hcl). by right.
    + destruct (hub_rooms h !! serverID) as [room0 |] eqn:Hroom0; simpl in Hc'.
      * destruct (Hrooms serverID room0 c' Hroom0 Hc') as (Hr & cl' & Hcl' & Hin').
        split; [done |]. apply (Hsub cl' Hcl'). by left.
      * rewrite lookup_empty in Hc'. by destruct Hc'.
  - destruct (Hrooms id room c' Hroom Hc') as (Hr & cl' & Hcl' & Hin').
    split; [done |]. apply (Hsub cl' Hcl'). by left.
Qed.

(** [Unsubscribe] keeps the invariant. *)
Lemma Unsubscribe_ok (h : HubState) (c : loc) (serverID : N) :
  hub_ok h -> hub_ok (Unsubscribe h c serverID).
Proof.
  intros Hok.
  destruct (alter_subscriptions_ok h (fun cl => unsubscribe_client cl serverID) c
              ltac:(done) Hok) as [Hreg' Hq'].
  destruct Hok as [Hreg Hrooms Hq Hb]. split; simpl; [done | | done | done].
  intros id room c' Hroom Hc'.
  apply lookup_alter_Some in Hroom as [[<- (room0 & Hroom0 & ->)] | [Hne Hroom]].
  - apply lookup_delete_is_Some in Hc' as [Hne Hc'].
    destruct (Hrooms serverID room0 c' Hroom0 Hc') as (Hr & cl' & Hcl' & Hin').
    split; [done |]. exists cl'. by rewrite lookup_alter_ne.
  - destruct (Hrooms id room c' Hroom Hc') as (Hr & cl' & Hcl' & Hin').
    split; [done |]. rewrite (lookup_alter_client _ c c' _ cl' Hcl').
    eexists. split; [done |]. case_decide; simpl; [| done].
    apply elem_of_difference. split; [done |]. rewrite elem_of_singleton. congruence.
Qed.

(** C1. The dispatch loop hands a buffered envelope to every registered
    client with one try-send each: the envelope is appended to the
    client's queue when the queue has room and dropped, leaving the
    queue as it was, when it is full; no attempt waits, the round always
    completes, and clients that are not registered are untouched.
    Producers ([BroadcastMetrics], [BroadcastServerStatus]) return at
    once unless the 256-slot broadcast buffer is full, their own room
    fan-out only delivers or drops, and a producer that waits on the
    full buffer finds room after a single dispatch round, that is after
    one non-blocking attempt per client. *)
Theorem hub_dispatch_never_blocks (marshal : marshaler) (h : HubState) :
  hub_ok h ->
  (forall message rest, hub_broadcast h = message :: rest ->
     exists h' tr,
       Run_step h EvBroadcast = Some (h', tr) /\
       hub_ok h' /\
       hub_clients h' = hub_clients h /\ hub_broadcast h' = rest /\
       tr.*1 = elements (dom (hub_clients h)) /\
       (forall c cl, is_Some (hub_clients h !! c) -> hub_heap h !! c = Some cl ->
          if (length (send cl) <? chan_cap)%nat
          then hub_heap h' !! c = Some (push cl message) /\ (c, Delivered) ∈ tr
          else hub_heap h' !! c = Some cl /\ (c, Dropped) ∈ tr) /\
       (forall c, hub_clients h !! c = None -> hub_heap h' !! c = hub_heap h !! c) /\
       (forall c a, (c, a) ∈ tr -> a = Delivered \/ a = Dropped) /\
       (forall data, chan_send (hub_broadcast h') data = Some (rest ++ [data])%list)) /\
  (forall metrics,
     match BroadcastMetrics marshal h metrics with
     | Parked => length (hub_broadcast h) = chan_cap
     | Published h' tr =>
         hub_ok h' /\ forall c a, (c, a) ∈ tr -> a = Delivered \/ a = Dropped
     end) /\
  (forall serverID status,
     match BroadcastServerStatus marshal h serverID status with
     | Parked => length (hub_broadcast h) = chan_cap
     | Published h' tr => hub_ok h' /\ tr = []
     end).
Proof.
  intros Hok. split; [| split].
  - intros message rest Hbuf. by apply Run_broadcast_round.
  - intros metrics. unfold BroadcastMetrics.
    destruct (marshal (MetricsMessage metrics)) as [data | e].
    + destruct (chan_send (hub_broadcast h) data) as [buf |] eqn:Hsend.
      * assert (Hok1 : hub_ok (set_broadcast h buf)).
        { apply hub_ok_set_broadcast; [done |]. unfold chan_send in Hsend.
          destruct (Nat.ltb_spec (length (hub_broadcast h)) chan_cap); [| done].
          injection Hsend as <-. rewrite length_app. simpl. lia. }
        pose proof (broadcastToRoom_ok (set_broadcast h buf) (ServerID metrics) data Hok1)
          as [Hok2 Hatt].
        by destruct (broadcastToRoom (set_broadcast h buf) (ServerID metrics) data).
      * apply chan_send_full in Hsend. pose proof (ok_broadcast h Hok). lia.
    + split; [done |]. intros c a Hin. by apply elem_of_nil in Hin.
  - intros serverID status. unfold BroadcastServerStatus.
    destruct (marshal (StatusMessage serverID status)) as [data | e]; [| done].
    destruct (chan_send (hub_broadcast h) data) as [buf |] eqn:Hsend.
    + split; [| done]. apply hub_ok_set_broadcast; [done |]. unfold chan_send in Hsend.
      destruct (Nat.ltb_spec (length (hub_broadcast h)) chan_cap); [| done].
      injection Hsend as <-. rewrite length_app. simpl. lia.
    + apply chan_send_full in Hsend. pose proof (ok_broadcast h Hok). lia.
Qed.

Lemma hub2_ok : hub_ok hub2.
Proof.
  split.
  - intros c [b Hb]. simpl in Hb.
    destruct (decide (c = 1%nat)) as [-> | H1]; [by exists cl_idle |].
    rewrite lookup_insert_ne in Hb by done.
    destruct (decide (c = 2%nat)) as [-> | H2]; [by exists cl_slow |].
    by rewrite lookup_singleton_ne in Hb.
  - intros serverID room c Hroom. simpl in Hroom. by rewrite lookup_empty in Hroom.
  - intros c cl Hcl. simpl in Hcl.
    destruct (decide (c = 1%nat)) as [-> | H1].
    { rewrite lookup_insert_eq in Hcl. injection Hcl as <-. simpl. unfold chan_cap. lia. }
    rewrite lookup_insert_ne in Hcl by done.
    destruct (decide (c = 2%nat)) as [-> | H2].
    { rewrite lookup_singleton_eq in Hcl. injection Hcl as <-.
      unfold cl_slow. cbn [send]. by rewrite length_replicate. }
    by rewrite lookup_singleton_ne in Hcl.
  - simpl. unfold chan_cap. lia.
Qed.

Lemma hub_dispatch_never_blocks_witness :
  hub_ok hub2 /\
  exists h' tr,
    Run_step hub2 EvBroadcast = Some (h', tr) /\
    hub_broadcast h' = [] /\
    (hub_heap h' !! 1%nat = Some (push cl_idle "new") /\ (1%nat, Delivered) ∈ tr) /\
    (hub_heap h' !! 2%nat = Some cl_slow /\ (2%nat, Dropped) ∈ tr).
Proof.
  split; [exact hub2_ok |].
  destruct (proj1 (hub_dispatch_never_blocks marshal_tag hub2 hub2_ok) "new" [] eq_refl)
    as (h' & tr & Hrun & _ & _ & Hbuf & _ & Hcl & _).
  exists h', tr. split; [exact Hrun |]. split; [exact Hbuf |]. split.
  - exact (Hcl 1%nat cl_idle (ex_intro _ true eq_refl) eq_refl).
  - exact (Hcl 2%nat cl_slow (ex_intro _ true eq_refl) eq_refl).
Defined.

(** * Further properties of the sources *)

(** ** The transport pool *)

Lemma Connect_fresh (dial : dialer) (now : Z) (srv : Server) (pw : string) :
  Connect dial now
    {| Server_ := srv; client := None; connected := false; lastUsed := 0;
       password := pw; CurrentDir := "" |} =
  match dial srv pw with
  | Err e =>
      ({| Server_ := srv; client := None; connected := false; lastUsed := 0;
          password := pw; CurrentDir := "" |}, Some ("ssh dial failed: " +:+ e))
  | Ok k =>
      ({| Server_ := srv; client := Some k; connected := true; lastUsed := now;
          password := pw; CurrentDir := "" |}, None)
  end.
Proof. unfold Connect. simpl. by destruct (dial srv pw). Qed.

(** X1. A session the pool handed out is reused by the next acquisition
    for the same server: the same pointer comes back and only the
    last-used stamp changes, whatever the dialer would answer and
    whatever password the second caller supplies. *)
Theorem SSHPool_GetClient_reuses (dial dial' : dialer) (now now' : Z)
    (s s1 : SSHState) (srv : Server) (pw pw' : string) (l : loc) :
  SSHPool_GetClient dial now s srv pw = (s1, Ok l) ->
  exists c,
    ssh_heap s1 !! l = Some c /\ connected c = true /\
    SSHPool_GetClient dial' now' s1 srv pw' =
      (ssh_store s1 l (set_lastUsed c now'), Ok l).
Proof.
  intros Hget.
  assert (Hc : exists c, ssh_clients s1 !! ID srv = Some l /\
                         ssh_heap s1 !! l = Some c /\ connected c = true).
  { unfold SSHPool_GetClient in Hget.
    destruct (ssh_cached s (ID srv)) as [[l0 c0] |] eqn:Hcached.
    - injection Hget as <- <-. unfold ssh_cached in Hcached.
      destruct (ssh_clients s !! ID srv) as [l1 |] eqn:Hl1; [| done].
      destruct (ssh_heap s !! l1) as [c1 |] eqn:Hc1; [| done].
      destruct (connected c1) eqn:Hconn; [| done].
      injection Hcached as <- <-.
      exists (set_lastUsed c1 now). simpl. by rewrite lookup_insert_eq.
    - rewrite Connect_fresh in Hget. destruct (dial srv pw) as [k | e]; [| done].
      injection Hget as <- <-. eexists. simpl. by rewrite !lookup_insert_eq. }
  destruct Hc as (c & Hpool & Hheap & Hconn). exists c.
  split; [done |]. split; [done |].
  unfold SSHPool_GetClient, ssh_cached. by rewrite Hpool, Hheap, Hconn.
Qed.

Lemma SSHPool_GetClient_reuses_witness :
  exists c,
    ssh_heap (SSHPool_GetClient dial_ok 5 ssh_empty srv7 "pw").1 !! 0%nat = Some c /\
    connected c = true /\
    SSHPool_GetClient dial_fail 8 (SSHPool_GetClient dial_ok 5 ssh_empty srv7 "pw").1
      srv7 "other" =
      (ssh_store (SSHPool_GetClient dial_ok 5 ssh_empty srv7 "pw").1 0%nat
         (set_lastUsed c 8), Ok 0%nat).
Proof.
  apply (SSHPool_GetClient_reuses dial_ok dial_fail 5 8 ssh_empty _ srv7 "pw" "other" 0%nat).
  reflexivity.
Defined.

Lemma SSHClient_Close_client (c : SSHClient) : client (SSHClient_Close c) = None.
Proof. unfold SSHClient_Close. by destruct (client c) eqn:H. Qed.

Lemma SSHClient_Close_idemp (c : SSHClient) :
  SSHClient_Close (SSHClient_Close c) = SSHClient_Close c.
Proof. unfold SSHClient_Close at 1. by rewrite SSHClient_Close_client. Qed.

Lemma Execute_without_client (net : transport) (now : Z) (c : SSHClient) (command : string) :
  client c = None -> Execute net now c command = (c, Err "not connected").
Proof. unfold Execute. intros ->. by destruct (connected c). Qed.

(** X2. Removing a pooled session forgets the entry and closes the
    object behind it: whoever still holds the pointer (a worker, a file
    channel) sees it disconnected and has every command refused with
    "not connected"; other servers' entries are untouched, and removing
    again changes nothing. *)
Theorem SSHPool_RemoveClient_closes (s : SSHState) (id : N) (l : loc) (c : SSHClient) :
  ssh_clients s !! id = Some l -> ssh_heap s !! l = Some c ->
  let s' := SSHPool_RemoveClient s id in
  ssh_clients s' !! id = None /\
  ssh_heap s' !! l = Some (SSHClient_Close c) /\
  IsConnected (SSHClient_Close c) = false /\
  (forall net now command,
     Execute net now (SSHClient_Close c) command =
       (SSHClient_Close c, Err "not connected")) /\
  (forall w, sshClient w = Some l -> Worker_disconnected s' w = true) /\
  (forall id', id' <> id -> ssh_clients s' !! id' = ssh_clients s !! id') /\
  SSHPool_RemoveClient s' id = s'.
Proof.
  intros Hl Hc s'. subst s'. unfold SSHPool_RemoveClient. rewrite Hl. simpl.
  assert (Hclosed : IsConnected (SSHClient_Close c) = false).
  { unfold IsConnected. rewrite SSHClient_Close_client.
    rewrite bool_decide_eq_false_2 by (intros H; by apply H). apply andb_false_r. }
  split; [apply lookup_delete_eq |].
  split; [by rewrite lookup_alter_eq, Hc |].
  split; [exact Hclosed |].
  split; [intros; apply Execute_without_client, SSHClient_Close_client |].
  split.
  - intros w Hw. unfold Worker_disconnected. rewrite Hw. simpl.
    rewrite lookup_alter_eq, Hc. simpl. by rewrite Hclosed.
  - split; [intros id' Hne; by apply lookup_delete_ne |].
    by rewrite lookup_delete_eq.
Qed.

Lemma SSHPool_RemoveClient_closes_witness :
  let s' := SSHPool_RemoveClient (ssh world7) 7 in
  ssh_clients s' !! 7%N = None /\
  ssh_heap s' !! 0%nat = Some (SSHClient_Close c_up) /\
  IsConnected (SSHClient_Close c_up) = false.
Proof.
  pose proof (SSHPool_RemoveClient_closes (ssh world7) 7 0%nat c_up eq_refl eq_refl) as H.
  cbv zeta in H. exact (conj (proj1 H) (conj (proj1 (proj2 H)) (proj1 (proj2 (proj2 H))))).
Defined.

(** X3. When the pooled session of a server is marked down, the next
    acquisition dials and installs a new object under the server's id.
    The old object is left exactly as it was, so its transport is never
    closed by the pool, and the new session starts with an empty
    working directory: the interactive cwd does not survive a re-dial. *)
Theorem SSHPool_GetClient_redial (dial : dialer) (now : Z) (s : SSHState)
    (srv : Server) (pw : string) (l : loc) (c : SSHClient) (k : conn) :
  ssh_clients s !! ID srv = Some l -> ssh_heap s !! l = Some c ->
  connected c = false -> dial srv pw = Ok k ->
  exists s' l',
    SSHPool_GetClient dial now s srv pw = (s', Ok l') /\
    l' <> l /\
    ssh_clients s' !! ID srv = Some l' /\
    ssh_heap s' !! l = Some c /\
    ssh_heap s' !! l' =
      Some {| Server_ := srv; client := Some k; connected := true; lastUsed := now;
              password := pw; CurrentDir := "" |}.
Proof.
  intros Hl Hc Hdown Hdial. unfold SSHPool_GetClient, ssh_cached.
  rewrite Hl, Hc, Hdown, Connect_fresh, Hdial.
  assert (Hfresh : fresh (dom (ssh_heap s)) <> l).
  { intros Heq. apply (is_fresh (dom (ssh_heap s))). rewrite Heq.
    apply elem_of_dom. by exists c. }
  eexists _, _. split; [reflexivity |]. simpl.
  split; [exact Hfresh |]. split; [apply lookup_insert_eq |].
  split; [by rewrite lookup_insert_ne | apply lookup_insert_eq].
Qed.

Lemma SSHPool_GetClient_redial_witness :
  exists s' l',
    SSHPool_GetClient dial_ok 6 ssh_down srv7 "pw" = (s', Ok l') /\
    l' <> 0%nat /\
    ssh_clients s' !! 7%N = Some l' /\
    ssh_heap s' !! 0%nat = Some c_down /\
    ssh_heap s' !! l' =
      Some {| Server_ := srv7; client := Some 9%nat; connected := true; lastUsed := 6;
              password := "pw"; CurrentDir := "" |}.
Proof.
  apply (SSHPool_GetClient_redial dial_ok 6 ssh_down srv7 "pw" 0%nat c_down 9%nat);
    reflexivity.
Defined.

(** X4. [Execute] answers "not connected" exactly when [IsConnected] is
    false, and then neither contacts the transport nor changes the
    client. A failed sub-channel open or a failed keepalive puts the
    client in that state: every later command is refused until someone
    reconnects. *)
Theorem Execute_refuses_iff_disconnected (net : transport) (now : Z) (c : SSHClient)
    (command : string) :
  ((Execute net now c command).2 = Err "not connected" <-> IsConnected c = false) /\
  (IsConnected c = false ->
     forall net' now' command',
       Execute net' now' c command' = (c, Err "not connected")) /\
  (forall k e, connected c = true -> client c = Some k ->
     net k command = SessionFails e ->
     IsConnected (Execute net now c command).1 = false) /\
  (forall ka k e, connected c = true -> client c = Some k -> ka k = Some e ->
     IsConnected (TestConnection ka c).1 = false).
Proof.
  assert (Hdown : IsConnected c = false ->
            forall net' now' command',
              Execute net' now' c command' = (c, Err "not connected")).
  { unfold IsConnected, Execute. intros H net' now' command'.
    destruct (connected c); [| done]. destruct (client c) as [k |]; [| done].
    simpl in H. done. }
  split; [| split; [exact Hdown | split]].
  - split.
    + unfold Execute, IsConnected.
      destruct (connected c); [| done]. destruct (client c) as [k |]; [| done].
      destruct (net k command) as [e | [e |] out errbuf]; simpl; try discriminate.
      destruct (bool_decide (errbuf <> "")); discriminate.
    + intros H. by rewrite Hdown.
  - intros k e Hc Hk Hnet. unfold Execute. by rewrite Hc, Hk, Hnet.
  - intros ka k e Hc Hk Hka. unfold TestConnection. by rewrite Hc, Hk, Hka.
Qed.

Lemma Execute_refuses_iff_disconnected_witness :
  Execute net0 5 c_down "ls" = (c_down, Err "not connected") /\
  IsConnected (Execute net0 5 c_up "drop").1 = false /\
  Execute net0 6 (Execute net0 5 c_up "drop").1 "ls" =
    ((Execute net0 5 c_up "drop").1, Err "not connected").
Proof.
  split; [| split].
  - apply (proj1 (proj2 (Execute_refuses_iff_disconnected net0 5 c_down "ls"))).
    reflexivity.
  - apply (proj1 (proj2 (proj2 (Execute_refuses_iff_disconnected net0 5 c_up "drop")))
             1%nat "EOF"); reflexivity.
  - apply (proj1 (proj2 (Execute_refuses_iff_disconnected net0 6
                           (Execute net0 5 c_up "drop").1 "ls"))).
    reflexivity.
Defined.

(** X5. [Reconnect] always dials, also on a healthy session (where
    [Connect] alone does nothing): a successful dial gives a connected
    client on the new transport with the working directory kept; a
    failed dial leaves the client closed. *)
Theorem Reconnect_always_dials (dial : dialer) (now : Z) (c : SSHClient) :
  Reconnect dial now c =
    match dial (Server_ c) (password c) with
    | Ok k =>
        ({| Server_ := Server_ c; client := Some k; connected := true; lastUsed := now;
            password := password c; CurrentDir := CurrentDir c |}, None)
    | Err e => (SSHClient_Close c, Some ("ssh dial failed: " +:+ e))
    end /\
  (IsConnected c = true -> Connect dial now c = (c, None)).
Proof.
  split.
  - unfold Reconnect, Connect. rewrite SSHClient_Close_client.
    rewrite bool_decide_eq_false_2 by (intros H; by apply H). rewrite andb_false_r.
    assert (Hs : Server_ (SSHClient_Close c) = Server_ c /\
                 password (SSHClient_Close c) = password c /\
                 CurrentDir (SSHClient_Close c) = CurrentDir c).
    { unfold SSHClient_Close. by destruct (client c). }
    destruct Hs as (-> & -> & ->). by destruct (dial (Server_ c) (password c)).
  - unfold IsConnected, Connect. by intros ->.
Qed.

Lemma Reconnect_always_dials_witness : Connect dial_fail 5 c_up = (c_up, None).
Proof.
  apply (proj2 (Reconnect_always_dials dial_fail 5 c_up)). reflexivity.
Defined.

Lemma close_entry_heap (id : N) (l : loc) (r : SSHState) (l' : loc) (c : SSHClient) :
  ssh_heap r !! l' = Some c \/ ssh_heap r !! l' = Some (SSHClient_Close c) ->
  ssh_heap (close_entry id l r) !! l' = Some c \/
  ssh_heap (close_entry id l r) !! l' = Some (SSHClient_Close c).
Proof.
  intros H. simpl. destruct (decide (l = l')) as [-> | Hne].
  - rewrite lookup_alter_eq. right.
    destruct H as [-> | ->]; simpl; by rewrite ?SSHClient_Close_idemp.
  - by rewrite lookup_alter_ne.
Qed.



(** ** The collector's probes *)

Lemma digit_of_digit (d : Z) :
  0 <= d <= 9 -> digit_of (ascii_of_N (Z.to_N (48 + d))) = Some d.
Proof.
  intros H. assert (Hd : d = 0 \/ d = 1 \/ d = 2 \/ d = 3 \/ d = 4 \/ d = 5 \/
                         d = 6 \/ d = 7 \/ d = 8 \/ d = 9) by lia.
  repeat (destruct Hd as [-> | Hd]; [reflexivity |]). by subst.
Qed.

Lemma digit_not_space (d : Z) :
  0 <= d <= 9 -> is_space (ascii_of_N (Z.to_N (48 + d))) = false.
Proof.
  intros H. assert (Hd : d = 0 \/ d = 1 \/ d = 2 \/ d = 3 \/ d = 4 \/ d = 5 \/
                         d = 6 \/ d = 7 \/ d = 8 \/ d = 9) by lia.
  repeat (destruct Hd as [-> | Hd]; [reflexivity |]). by subst.
Qed.

Lemma digits_value_ge (ds : list Z) :
  Forall (fun d => 0 <= d <= 9) ds -> forall acc, 0 <= acc -> acc <= digits_value ds acc.
Proof.
  induction 1 as [| d ds Hd _ IH]; intros acc Hacc; simpl; [lia |].
  specialize (IH (acc * 10 + d)). lia.
Qed.

Lemma parse_uint_loop_digits (ds : list Z) :
  Forall (fun d => 0 <= d <= 9) ds ->
  forall n, 0 <= n <= maxUint64 ->
    parse_uint_loop (digits_string ds) n =
      if digits_value ds n <=? maxUint64 then (digits_value ds n, None)
      else (maxUint64, Some ErrRange).
Proof.
  assert (Hcut : maxUint64 / 10 + 1 = 1844674407370955162) by reflexivity.
  assert (Hmax : maxUint64 = 18446744073709551615) by reflexivity.
  induction 1 as [| d ds Hd Hds IH]; intros n Hn; simpl.
  - destruct (Z.leb_spec n maxUint64); [done | lia].
  - rewrite (digit_of_digit d Hd), Hcut.
    pose proof (digits_value_ge ds Hds (n * 10 + d)) as Hge.
    destruct (Z.leb_spec 1844674407370955162 n) as [Hbig | Hsmall].
    + destruct (Z.leb_spec (digits_value ds (n * 10 + d)) maxUint64); [lia | done].
    + destruct (Z.ltb_spec maxUint64 (n * 10 + d)) as [Hover | Hfit].
      * destruct (Z.leb_spec (digits_value ds (n * 10 + d)) maxUint64); [lia | done].
      * apply IH. lia.
Qed.

Lemma ParseUint_numeral (ds : list Z) :
  is_numeral ds ->
  ParseUint (digits_string ds) =
    (uint64_of ds, if digits_value ds 0 <=? maxUint64 then None else Some ErrRange).
Proof.
  intros [Hne Hds]. unfold ParseUint, uint64_of.
  destruct ds as [| d ds]; [done |]. cbn [digits_string str_empty].
  change (String (ascii_of_N (Z.to_N (48 + d))) (digits_string ds))
    with (digits_string (d :: ds)).
  rewrite (parse_uint_loop_digits (d :: ds) Hds 0) by (unfold maxUint64; lia).
  destruct (Z.leb_spec (digits_value (d :: ds) 0) maxUint64); f_equal; lia.
Qed.

(** *** Fields *)

Lemma append_cons (a : ascii) (s t : string) : String a s +:+ t = String a (s +:+ t).
Proof. reflexivity. Qed.

Lemma append_nil (t : string) : EmptyString +:+ t = t.
Proof. reflexivity. Qed.

Lemma append_snoc (acc : string) (a : ascii) (w : string) :
  (acc +:+ String a EmptyString) +:+ w = acc +:+ String a w.
Proof.
  induction acc as [| b acc IH]; rewrite ?append_cons, ?append_nil; [done | by f_equal].
Qed.

Lemma append_empty_r (s : string) : s +:+ EmptyString = s.
Proof. induction s as [| a s IH]; rewrite ?append_cons, ?append_nil; [done | by f_equal]. Qed.

Lemma fields_from_word (w : string) :
  spaceless w = true ->
  forall s acc, fields_from (w +:+ s) acc = fields_from s (acc +:+ w).
Proof.
  induction w as [| a w IH]; intros Hw s acc.
  - by rewrite append_nil, append_empty_r.
  - simpl in Hw. apply andb_true_iff in Hw as [Ha Hw].
    apply negb_true_iff in Ha. rewrite append_cons. cbn [fields_from].
    rewrite Ha, IH by done. by rewrite append_snoc.
Qed.

Lemma fields_from_trim_left (s : string) :
  fields_from (trim_left s) EmptyString = fields_from s EmptyString.
Proof.
  induction s as [| a s IH]; simpl; [done |].
  destruct (is_space a) eqn:Ha; [done |]. simpl. by rewrite Ha.
Qed.

Lemma fields_from_cons (a : ascii) (s word : string) :
  fields_from (String a s) word =
    if is_space a then
      if str_empty word then fields_from s EmptyString
      else word :: fields_from s EmptyString
    else fields_from s (word +:+ String a EmptyString).
Proof. reflexivity. Qed.

Lemma fields_from_trim_right (s : string) :
  forall word, fields_from (trim_right s) word = fields_from s word.
Proof.
  induction s as [| a s IH]; intros word; [done |]. cbn [trim_right].
  destruct (trim_right s) as [| b r] eqn:Hr.
  - rewrite (fields_from_cons a s). destruct (is_space a) eqn:Ha.
    + rewrite <- (IH EmptyString). cbn [fields_from]. by destruct (str_empty word).
    + rewrite fields_from_cons, Ha. apply IH.
  - rewrite (fields_from_cons a (String b r)), (fields_from_cons a s).
    by rewrite !IH.
Qed.

Lemma Fields_TrimSpace (s : string) : Fields (TrimSpace s) = Fields s.
Proof.
  unfold Fields, TrimSpace. by rewrite fields_from_trim_right, fields_from_trim_left.
Qed.

Lemma digits_string_spaceless (ds : list Z) :
  Forall (fun d => 0 <= d <= 9) ds -> spaceless (digits_string ds) = true.
Proof.
  induction 1 as [| d ds Hd _ IH]; simpl; [done |].
  by rewrite (digit_not_space d Hd), IH.
Qed.

Lemma digits_string_nonempty (ds : list Z) :
  ds <> [] -> str_empty (digits_string ds) = false.
Proof. by destruct ds. Qed.

(** A line of blank-separated words splits into exactly those words. *)
Lemma fields_from_next (w s : string) (sep : ascii) :
  spaceless w = true -> str_empty w = false -> is_space sep = true ->
  fields_from (w +:+ String sep s) EmptyString = w :: fields_from s EmptyString.
Proof.
  intros Hw Hne Hsep. rewrite fields_from_word by done. rewrite append_nil.
  cbn [fields_from]. by rewrite Hsep, Hne.
Qed.

Lemma Fields_two (w1 w2 : string) (sep : ascii) :
  spaceless w1 = true -> spaceless w2 = true ->
  str_empty w1 = false -> str_empty w2 = false -> is_space sep = true ->
  Fields (TrimSpace (w1 +:+ String sep (w2 +:+ nl))) = [w1; w2].
Proof.
  intros H1 H2 N1 N2 Hsep. rewrite Fields_TrimSpace. unfold Fields, nl.
  rewrite fields_from_next by done. rewrite fields_from_next by done. done.
Qed.

Lemma Fields_three (w1 w2 w3 : string) :
  spaceless w1 = true -> spaceless w2 = true -> spaceless w3 = true ->
  str_empty w1 = false -> str_empty w2 = false -> str_empty w3 = false ->
  Fields (TrimSpace (w1 +:+ " " +:+ w2 +:+ " " +:+ w3 +:+ nl)) = [w1; w2; w3].
Proof.
  intros H1 H2 H3 N1 N2 N3. rewrite Fields_TrimSpace. unfold Fields, nl.
  change (" " +:+ w2 +:+ " " +:+ w3 +:+ String "010" "")
    with (String " " (w2 +:+ String " " (w3 +:+ String "010" ""))).
  rewrite !fields_from_next by done. done.
Qed.

Lemma TrimSpace_line (w : string) :
  spaceless w = true -> str_empty w = false -> TrimSpace (w +:+ nl) = w.
Proof.
  intros Hw Hne. unfold TrimSpace.
  assert (Hl : trim_left (w +:+ nl) = w +:+ nl).
  { destruct w as [| a w]; [done |]. rewrite append_cons. simpl in Hw.
    apply andb_true_iff in Hw as [Ha _]. apply negb_true_iff in Ha.
    cbn [trim_left]. by rewrite Ha. }
  rewrite Hl. clear Hl Hne. induction w as [| a w IH]; [done |].
  simpl in Hw. apply andb_true_iff in Hw as [Ha Hw]. apply negb_true_iff in Ha.
  rewrite append_cons. cbn [trim_right]. rewrite (IH Hw).
  destruct w; by rewrite ?Ha.
Qed.

Lemma Execute_ran (net : transport) (now : Z) (c : SSHClient) (k : conn)
    (command out err : string) :
  connected c = true -> client c = Some k -> net k command = Ran None out err ->
  Execute net now c command = (set_lastUsed c now, Ok out).
Proof. intros Hc Hk Hn. unfold Execute. by rewrite Hc, Hk, Hn. Qed.

Lemma Execute_disconnected (net : transport) (now : Z) (c : SSHClient) (command : string) :
  connected c = false -> Execute net now c command = (c, Err "not connected").
Proof. intros Hc. unfold Execute. by rewrite Hc. Qed.

Lemma three_uints_numerals (t u f : list Z) :
  is_numeral t -> is_numeral u -> is_numeral f ->
  three_uints (digits_string t +:+ " " +:+ digits_string u +:+ " " +:+
               digits_string f +:+ nl) =
  (uint64_of t, uint64_of u, uint64_of f).
Proof.
  intros Ht Hu Hf. unfold three_uints.
  rewrite Fields_three;
    try (apply digits_string_spaceless; by destruct Ht, Hu, Hf);
    try (apply digits_string_nonempty; by destruct Ht, Hu, Hf).
  by rewrite !ParseUint_numeral.
Qed.

(** X7. When the memory command (or the disk command) prints three
    decimal numbers on one line, the probe returns exactly these
    numbers, in the order total, used, free; a number beyond 2^64-1 is
    read as 2^64-1 and raises no error. *)
Theorem memory_and_disk_read_three_numbers (net : transport) (now : Z) (c : SSHClient)
    (k : conn) (t u f : list Z) (err : string) (cmd : string)
    (probe : transport -> Z -> SSHClient -> SSHClient * result (Z * Z * Z)) :
  In (cmd, probe) [(cmd_memory, MetricCollector_CollectMemory);
                   (cmd_disk, MetricCollector_CollectDisk)] ->
  connected c = true -> client c = Some k ->
  is_numeral t -> is_numeral u -> is_numeral f ->
  net k cmd = Ran None (digits_string t +:+ " " +:+ digits_string u +:+ " " +:+
                        digits_string f +:+ nl) err ->
  probe net now c = (set_lastUsed c now, Ok (uint64_of t, uint64_of u, uint64_of f)).
Proof.
  intros Hin Hc Hk Ht Hu Hf Hn.
  destruct Hin as [E | [E | []]]; inversion E; subst cmd probe;
    [unfold MetricCollector_CollectMemory | unfold MetricCollector_CollectDisk];
    rewrite (Execute_ran _ _ _ _ _ _ _ Hc Hk Hn); by rewrite three_uints_numerals.
Qed.

Lemma memory_and_disk_read_three_numbers_witness :
  MetricCollector_CollectDisk net_host 9 c_up = (set_lastUsed c_up 9, Ok (50, 20, 30)) /\
  MetricCollector_CollectMemory
    (fun _ _ => Ran None ("99999999999999999999 3012 1200" +:+ nl) "") 9 c_up =
  (set_lastUsed c_up 9, Ok (2 ^ 64 - 1, 3012, 1200)).
Proof.
  split.
  - apply (memory_and_disk_read_three_numbers net_host 9 c_up 1%nat [5; 0] [2; 0] [3; 0] ""
             cmd_disk MetricCollector_CollectDisk);
      try reflexivity; try (right; left; reflexivity);
      split; try discriminate; repeat constructor; lia.
  - apply (memory_and_disk_read_three_numbers _ 9 c_up 1%nat
             (repeat 9 20) [3; 0; 1; 2] [1; 2; 0; 0] ""
             cmd_memory MetricCollector_CollectMemory);
      try reflexivity; try (left; reflexivity);
      split; try discriminate; repeat constructor; lia.
Defined.

(** X8. When the uptime command prints one decimal number, the probe
    returns it if it fits 64 bits; otherwise - unlike the memory and disk
    probes - it fails with the range error of [strconv.ParseUint]. *)
Theorem CollectUptime_reads_number (quote : string -> string) (net : transport) (now : Z)
    (c : SSHClient) (k : conn) (ds : list Z) (err : string) :
  connected c = true -> client c = Some k -> is_numeral ds ->
  net k cmd_uptime = Ran None (digits_string ds +:+ nl) err ->
  MetricCollector_CollectUptime quote net now c =
    (set_lastUsed c now,
     if digits_value ds 0 <=? maxUint64 then Ok (digits_value ds 0)
     else Err (NumError_message quote "ParseUint" (digits_string ds) ErrRange)).
Proof.
  intros Hc Hk [Hne Hds] Hn. unfold MetricCollector_CollectUptime.
  rewrite (Execute_ran _ _ _ _ _ _ _ Hc Hk Hn).
  rewrite TrimSpace_line
    by (by apply digits_string_spaceless || by apply digits_string_nonempty).
  rewrite ParseUint_numeral by done. unfold uint64_of.
  destruct (Z.leb_spec (digits_value ds 0) maxUint64); [| done].
  do 2 f_equal. lia.
Qed.

Lemma CollectUptime_reads_number_witness :
  MetricCollector_CollectUptime quote0 net_host 9 c_up = (set_lastUsed c_up 9, Ok 86400).
Proof.
  apply (CollectUptime_reads_number quote0 net_host 9 c_up 1%nat [8; 6; 4; 0; 0] "");
    try reflexivity.
  split; [discriminate | repeat constructor; lia].
Defined.

Lemma Fields_blank (out : string) : TrimSpace out = "" -> Fields (TrimSpace out) = [].
Proof. by intros ->. Qed.

(** X9. On a host whose commands succeed but print only white space,
    the memory, disk and traffic probes report zeros without an error,
    while the uptime probe fails with the syntax error of
    [strconv.ParseUint] on the empty string. *)
Theorem silent_host_reads_as_zero (quote : string -> string) (net : transport) (now : Z)
    (c : SSHClient) (k : conn) :
  connected c = true -> client c = Some k ->
  (forall cmd, exists out err, net k cmd = Ran None out err /\ TrimSpace out = "") ->
  MetricCollector_CollectMemory net now c = (set_lastUsed c now, Ok (0, 0, 0)) /\
  MetricCollector_CollectDisk net now c = (set_lastUsed c now, Ok (0, 0, 0)) /\
  MetricCollector_CollectNetwork net now c = (set_lastUsed c now, Ok (0, 0)) /\
  MetricCollector_CollectUptime quote net now c =
    (set_lastUsed c now, Err (NumError_message quote "ParseUint" "" ErrSyntax)).
Proof.
  intros Hc Hk Hsilent.
  assert (Hex : forall cmd, exists out,
             Execute net now c cmd = (set_lastUsed c now, Ok out) /\ TrimSpace out = "").
  { intros cmd. destruct (Hsilent cmd) as (out & err & Hn & Ht).
    exists out. split; [by apply (Execute_ran _ _ _ k _ _ err) | done]. }
  repeat split.
  - unfold MetricCollector_CollectMemory, three_uints.
    destruct (Hex cmd_memory) as (out & -> & Ht). by rewrite Fields_blank.
  - unfold MetricCollector_CollectDisk, three_uints.
    destruct (Hex cmd_disk) as (out & -> & Ht). by rewrite Fields_blank.
  - unfold MetricCollector_CollectNetwork.
    destruct (Hex cmd_net) as (out & -> & Ht). rewrite Fields_blank by done.
    cbn [length Nat.ltb Nat.leb].
    destruct (Hsilent cmd_net_ip) as (out' & err' & Hn' & Ht').
    rewrite (Execute_ran _ _ (set_lastUsed c now) k _ _ err' Hc Hk Hn').
    by rewrite Fields_blank.
  - unfold MetricCollector_CollectUptime.
    destruct (Hex cmd_uptime) as (out & -> & Ht). by rewrite Ht.
Qed.

Lemma silent_host_reads_as_zero_witness :
  MetricCollector_CollectMemory net_silent 9 c_up = (set_lastUsed c_up 9, Ok (0, 0, 0)) /\
  MetricCollector_CollectDisk net_silent 9 c_up = (set_lastUsed c_up 9, Ok (0, 0, 0)) /\
  MetricCollector_CollectNetwork net_silent 9 c_up = (set_lastUsed c_up 9, Ok (0, 0)) /\
  MetricCollector_CollectUptime quote0 net_silent 9 c_up =
    (set_lastUsed c_up 9, Err (NumError_message quote0 "ParseUint" "" ErrSyntax)).
Proof.
  apply (silent_host_reads_as_zero quote0 net_silent 9 c_up 1%nat); try reflexivity.
  intros cmd. exists nl, "". split; reflexivity.
Defined.

(** X10. When the traffic command finds none of the interfaces it looks
    for (its output has fewer than two fields), the probe runs the second
    command and reports its two byte counts in whole MiB, rounded down. *)
Theorem CollectNetwork_falls_back (net : transport) (now : Z) (c : SSHClient) (k : conn)
    (out1 err1 err2 : string) (rx tx : list Z) :
  connected c = true -> client c = Some k ->
  net k cmd_net = Ran None out1 err1 ->
  (length (Fields (TrimSpace out1)) < 2)%nat ->
  is_numeral rx -> is_numeral tx ->
  net k cmd_net_ip = Ran None (digits_string rx +:+ nl +:+ digits_string tx +:+ nl) err2 ->
  MetricCollector_CollectNetwork net now c =
    (set_lastUsed c now, Ok (uint64_of rx / 1048576, uint64_of tx / 1048576)).
Proof.
  intros Hc Hk Hn1 Hshort [Hrx Drx] [Htx Dtx] Hn2. unfold MetricCollector_CollectNetwork.
  rewrite (Execute_ran _ _ _ _ _ _ _ Hc Hk Hn1).
  apply Nat.ltb_lt in Hshort. rewrite Hshort.
  rewrite (Execute_ran _ _ (set_lastUsed c now) k _ _ err2 Hc Hk Hn2).
  change (digits_string rx +:+ nl +:+ digits_string tx +:+ nl)
    with (digits_string rx +:+ String "010" (digits_string tx +:+ nl)).
  rewrite Fields_two;
    try (by apply digits_string_spaceless); try (by apply digits_string_nonempty);
    [| reflexivity].
  unfold to_MiB. by rewrite !ParseUint_numeral.
Qed.

Lemma CollectNetwork_falls_back_witness :
  MetricCollector_CollectNetwork net_host 9 c_up = (set_lastUsed c_up 9, Ok (3, 1)).
Proof.
  apply (CollectNetwork_falls_back net_host 9 c_up 1%nat "" "" ""
           [3; 1; 4; 5; 7; 2; 8] [1; 0; 4; 8; 5; 7; 7]);
    try reflexivity; try (vm_compute; lia);
    split; try discriminate; repeat constructor; lia.
Defined.

(** X11. If the first sub-channel of a collection round cannot be
    opened, the session is marked down and no later probe of the round
    reaches the host: whatever the host would answer, the round returns
    the all-zero snapshot and no error. *)
Theorem CollectAll_after_lost_session (ft : FloatText) (quote : string -> string)
    (net : transport) (now stamp : Z) (c : SSHClient) (k : conn) (e : error) :
  connected c = true -> client c = Some k ->
  net k cmd_cpu = SessionFails e ->
  CollectAll (ssh_probes ft quote net now) stamp c =
    (set_connected c false, (new_snapshot c stamp, None)).
Proof.
  intros Hc Hk Hn.
  assert (Hcpu : MetricCollector_CollectCPU ft net now c =
                 (set_connected c false, Err "not connected")).
  { unfold MetricCollector_CollectCPU, collectCPUFromProc.
    assert (E : Execute net now c cmd_cpu =
                (set_connected c false, Err ("failed to create session: " +:+ e)))
      by (unfold Execute; by rewrite Hc, Hk, Hn).
    rewrite E. by rewrite Execute_disconnected. }
  unfold CollectAll. cbn [ssh_probes CollectCPU CollectMemory CollectDisk CollectNetwork
                          CollectUptime].
  rewrite Hcpu.
  unfold MetricCollector_CollectMemory, MetricCollector_CollectDisk,
    MetricCollector_CollectNetwork, MetricCollector_CollectUptime.
  by rewrite !Execute_disconnected.
Qed.

Lemma CollectAll_after_lost_session_witness :
  CollectAll (ssh_probes ft0 quote0 net_broken 9) 9 c_up =
    (c_down, (new_snapshot c_up 9, None)).
Proof.
  apply (CollectAll_after_lost_session ft0 quote0 net_broken 9 9 c_up 1%nat "EOF");
    reflexivity.
Defined.

(** ** The worker pool *)

Lemma SSHPool_RemoveClient_lookup (s : SSHState) (id id' : N) :
  ssh_clients (SSHPool_RemoveClient s id) !! id' =
    if decide (id = id') then None else ssh_clients s !! id'.
Proof.
  unfold SSHPool_RemoveClient.
  destruct (ssh_clients s !! id) as [l |] eqn:Hl; simpl;
    destruct (decide (id = id')) as [<- | Hne]; try done.
  - apply lookup_delete_eq.
  - by apply lookup_delete_ne.
Qed.

Lemma stop_entry_ssh (id : N) (w : Worker) (wd : World) :
  ssh (stop_entry id w wd) =
    match sshClient w with
    | Some _ => SSHPool_RemoveClient (ssh wd) (ID (server w))
    | None => ssh wd
    end.
Proof. unfold stop_entry, Worker_Stop. by destruct (sshClient w). Qed.

Lemma stop_entry_workers (id : N) (w : Worker) (wd : World) :
  workers (stop_entry id w wd) = delete id (workers wd) /\
  sftp (stop_entry id w wd) = sftp wd.
Proof. unfold stop_entry, Worker_Stop. by destruct (sshClient w). Qed.

(** X12. [StopAll] leaves no worker in the pool, so that
    [GetWorkerStatus] is false for every server, and takes out of the
    transport pool the session of every server whose worker held one;
    the transport-pool entries of all other servers, and the whole
    file-channel pool, stay as they were. *)
Theorem StopAll_stops_every_worker (wd : World) :
  workers (StopAll wd) = ∅ /\
  (forall id, GetWorkerStatus (StopAll wd) id = false) /\
  sftp (StopAll wd) = sftp wd /\
  (forall id w l, workers wd !! id = Some w -> sshClient w = Some l ->
     ssh_clients (ssh (StopAll wd)) !! ID (server w) = None) /\
  (forall id',
     (forall id w l, workers wd !! id = Some w -> sshClient w = Some l ->
        ID (server w) <> id') ->
     ssh_clients (ssh (StopAll wd)) !! id' = ssh_clients (ssh wd) !! id').
Proof.
  unfold StopAll.
  pose (P := fun (r : World) (m : gmap N Worker) =>
    (forall id, workers r !! id =
                  match m !! id with Some _ => None | None => workers wd !! id end) /\
    sftp r = sftp wd /\
    (forall id w l, m !! id = Some w -> sshClient w = Some l ->
       ssh_clients (ssh r) !! ID (server w) = None) /\
    (forall id',
       (forall id w l, m !! id = Some w -> sshClient w = Some l -> ID (server w) <> id') ->
       ssh_clients (ssh r) !! id' = ssh_clients (ssh wd) !! id')).
  assert (HP : P (map_fold stop_entry wd (workers wd)) (workers wd)).
  { apply (map_fold_weak_ind P).
    - repeat split; try done; intros id w l Hm; by rewrite lookup_empty in Hm.
    - intros i x m r Hfresh (Hw & Hf & Hgone & Hkept).
      destruct (stop_entry_workers i x r) as [Ew Ef].
      split; [| split; [| split]].
      + intros id. rewrite Ew. destruct (decide (i = id)) as [-> | Hne].
        * by rewrite lookup_delete_eq, lookup_insert_eq.
        * by rewrite lookup_delete_ne, lookup_insert_ne, Hw.
      + by rewrite Ef.
      + intros id w l Hm Hl. rewrite stop_entry_ssh.
        destruct (decide (i = id)) as [-> | Hne].
        * rewrite lookup_insert_eq in Hm. injection Hm as ->. rewrite Hl.
          rewrite SSHPool_RemoveClient_lookup. by rewrite decide_True.
        * rewrite lookup_insert_ne in Hm by done.
          pose proof (Hgone id w l Hm Hl) as Hnone.
          destruct (sshClient x); [| done].
          rewrite SSHPool_RemoveClient_lookup. by destruct (decide _).
      + intros id' Hother. rewrite stop_entry_ssh.
        assert (Hrest : ssh_clients (ssh r) !! id' = ssh_clients (ssh wd) !! id').
        { apply Hkept. intros id w l Hm. apply (Hother id w l).
          rewrite lookup_insert_ne; [done |]. intros <-. by rewrite Hfresh in Hm. }
        destruct (sshClient x) as [l |] eqn:Hx; [| done].
        rewrite SSHPool_RemoveClient_lookup.
        rewrite decide_False; [done |].
        apply (Hother i x l); [apply lookup_insert_eq | done]. }
  destruct HP as (Hw & Hf & Hgone & Hkept).
  assert (Hnone : forall id, workers (map_fold stop_entry wd (workers wd)) !! id = None).
  { intros id. rewrite Hw. by destruct (workers wd !! id). }
  split; [apply map_eq; intros id; by rewrite Hnone, lookup_empty |].
  split; [intros id; unfold GetWorkerStatus; by rewrite Hnone |].
  by repeat split.
Qed.

Lemma StopAll_stops_every_worker_witness :
  ssh_clients (ssh (StopAll world7)) !! 7%N = None.
Proof.
  exact (proj1 (proj2 (proj2 (proj2 (StopAll_stops_every_worker world7)))) 7%N _ 0%nat
           eq_refl eq_refl).
Defined.

Lemma updateServerStatus_worker (w : Worker) (st : ServerStatus) :
  sshClient (updateServerStatus w st).1 = sshClient w /\
  collector (updateServerStatus w st).1 = collector w /\
  ID (server (updateServerStatus w st).1) = ID (server w) /\
  (updateServerStatus w st).2 = [DBUpdateStatus (ID (server w)) st].
Proof. done. Qed.

Lemma Worker_connect_wired dial now s w :
  worker_wired w ->
  match Worker_connect dial now s w with
  | (s', w', Some _) => w' = w
  | (s', w', None) =>
      exists l, sshClient w' = Some l /\ collector w' = Some {| mc_client := l |} /\
                is_Some (ssh_heap s' !! l) /\ ID (server w') = ID (server w)
  end.
Proof.
  intros Hw. unfold Worker_connect.
  destruct (SSHPool_GetClient dial now s (server w) (wpassword w)) as [s' [l | e]] eqn:Hget;
    [| done].
  exists l. repeat split. by apply (SSHPool_GetClient_allocated _ _ _ _ _ _ _ Hget).
Qed.

Lemma Worker_collect_wired P now s w l :
  sshClient w = Some l -> collector w = Some {| mc_client := l |} ->
  is_Some (ssh_heap s !! l) ->
  exists s' m, Worker_collect P now s w = Some (s', [HubBroadcastMetrics m]).
Proof.
  intros Hl Hc [c Hh]. unfold Worker_collect. rewrite Hc. simpl. rewrite Hh.
  destruct (CollectAll_total P now c) as (c' & snap & ->). by eexists _, _.
Qed.

Lemma Worker_tick_wired dial P now s lp :
  worker_wired (lw lp) ->
  exists s' lp' eff,
    Worker_tick dial P now s lp = Some (s', lp', eff) /\
    worker_wired (lw lp') /\
    ID (server (lw lp')) = ID (server (lw lp)) /\
    status_of_only (ID (server (lw lp))) eff.
Proof.
  intros Hw. unfold Worker_tick.
  destruct (Worker_disconnected s (lw lp)) eqn:Hdisc.
  - destruct (maxReconnectAttempts <? add64 (reconnectAttempts lp) 1).
    + eexists _, _, _. split; [reflexivity |]. repeat split; [done | ].
      repeat constructor.
    + pose proof (Worker_connect_wired dial now s (lw lp) Hw) as Hconn.
      destruct (Worker_connect dial now s (lw lp)) as [[s1 w1] [e |]].
      * subst w1. eexists _, _, _. split; [reflexivity |].
        repeat split; [done |]. repeat constructor.
      * destruct Hconn as (l & Hl & Hc & Hh & Hid).
        destruct (Worker_collect_wired P now s1
                    (updateServerStatus w1 StatusOnline).1 l Hl Hc Hh)
          as (s2 & m & Hcol).
        simpl in Hcol |- *. rewrite Hcol.
        eexists _, _, _. split; [reflexivity |]. simpl.
        split; [| split; [done |]].
        { intros l' Hl'. simpl in Hl'. rewrite Hl in Hl'. by injection Hl' as <-. }
        rewrite Hid. repeat constructor.
  - unfold Worker_disconnected in Hdisc.
    destruct (sshClient (lw lp)) as [l |] eqn:Hl; [| done].
    destruct (ssh_heap s !! l) as [c |] eqn:Hh; [| done].
    destruct (Worker_collect_wired P now s (lw lp) l Hl (Hw l Hl)) as (s2 & m & ->);
      [by eexists |].
    eexists _, _, _. split; [reflexivity |]. repeat split; [done |]. repeat constructor.
Qed.

Lemma status_of_only_app (id : N) (e1 e2 : list effect) :
  status_of_only id e1 -> status_of_only id e2 -> status_of_only id (e1 ++ e2)%list.
Proof. apply Forall_app_2. Qed.

Lemma Worker_loop_wired dial P ticks :
  forall s lp, worker_wired (lw lp) ->
  exists s' lp' eff,
    Worker_loop dial P ticks s lp = Some (s', lp', eff) /\
    ID (server (lw lp')) = ID (server (lw lp)) /\
    status_of_only (ID (server (lw lp))) eff.
Proof.
  induction ticks as [| [now others] rest IH]; intros s lp Hw.
  - eexists _, _, _. split; [reflexivity |]. split; [done | constructor].
  - destruct (Worker_tick_wired dial P now (others s) lp Hw)
      as (s1 & lp1 & eff & Htick & Hw1 & Hid1 & Heff).
    destruct (IH s1 lp1 Hw1) as (s2 & lp2 & eff' & Hloop & Hid2 & Heff').
    cbn [Worker_loop]. rewrite Htick, Hloop.
    eexists _, _, _. split; [reflexivity |]. split; [congruence |].
    apply status_of_only_app; [done |]. by rewrite <- Hid1.
Qed.

(** X13. A worker that starts without a session, as [AddWorker] creates
    it, never dereferences a nil collector: whatever the dialer and the
    probes answer, whenever the ticks fire and whatever other goroutines
    do to the transport pool in between, [Run] reaches its return, leaves
    [running] false, and every status it wrote is that of its own server. *)
Theorem Worker_Run_returns (dial : dialer) (P : Probes) (now : Z)
    (ticks : list (Z * (SSHState -> SSHState))) (s : SSHState) (w : Worker) :
  sshClient w = None ->
  exists s' w' eff,
    Worker_Run dial P now ticks s w = Some (s', w', eff) /\
    running w' = false /\
    ID (server w') = ID (server w) /\
    status_of_only (ID (server w)) eff.
Proof.
  intros Hnone. unfold Worker_Run, Worker_start.
  assert (Hw0 : worker_wired (set_running w true)) by (intros l; simpl; by rewrite Hnone).
  pose proof (Worker_connect_wired dial now s _ Hw0) as Hconn.
  destruct (Worker_connect dial now s (set_running w true)) as [[s0 w0] [e |]].
  - subst w0.
    destruct (Worker_loop_wired dial P ticks s0
                {| lw := (updateServerStatus (set_running w true) StatusError).1;
                   reconnectAttempts := 0 |} Hw0)
      as (s1 & lp1 & eff & Hloop & Hid & Heff).
    simpl in Hloop, Hid, Heff |- *. rewrite Hloop.
    eexists _, _, _. split; [reflexivity |]. split; [done |]. split; [done |].
    constructor; done.
  - destruct Hconn as (l & Hl & Hc & Hh & Hid0).
    assert (Hw1 : worker_wired (updateServerStatus w0 StatusOnline).1)
      by (intros l'; simpl; rewrite Hl; by intros [= <-]).
    destruct (Worker_loop_wired dial P ticks s0
                {| lw := (updateServerStatus w0 StatusOnline).1;
                   reconnectAttempts := 0 |} Hw1)
      as (s1 & lp1 & eff & Hloop & Hid & Heff).
    simpl in Hloop, Hid, Heff, Hid0 |- *. rewrite Hloop.
    eexists _, _, _. split; [reflexivity |]. split; [done |].
    split; [simpl; congruence |].
    rewrite Hid0 in Heff.
    constructor; done.
Qed.

Lemma Worker_Run_returns_witness :
  exists s' w' eff,
    Worker_Run dial_ok probes_down 0 [(10, fun s => SSHPool_CloseAll s); (20, id)]
      ssh_empty w7 = Some (s', w', eff) /\
    running w' = false /\
    ID (server w') = 7%N /\
    status_of_only 7%N eff.
Proof.
  apply (Worker_Run_returns dial_ok probes_down 0
           [(10, fun s => SSHPool_CloseAll s); (20, id)] ssh_empty w7).
  reflexivity.
Defined.

(** ** PUT /servers/:id *)

(** X14. A successful update restarts the server's worker exactly when
    the request carries a new password, address, port or user name: the
    pool then holds a fresh worker on the saved row, with the request's
    password or, without one, whatever string [Decrypt] returned. A
    request that only renames the server (or changes its system or
    connection type) leaves the worker pool as it was, so the running
    worker keeps the old row. *)
Theorem UpdateServer_restarts_on_credentials (wd wd' : World) (st : Store) (id : N)
    (req : UpdateServerRequest) (old : ServerRow) (status : Z) (dto : ServerDTO) :
  store_First st id = Ok old -> ID (row old) = id ->
  UpdateServer wd st (Ok id) (Ok req) = (wd', Served status dto) ->
  exists enc,
    let new := apply_update req enc old in
    status = StatusOK /\ dto = ToDTO new /\
    if credentials_changed req then
      workers wd' !! id =
        Some {| server := row new;
                wpassword := if bool_decide (req_Password req <> "") then req_Password req
                             else (vault_Decrypt st (Password (row new))).1;
                sshClient := None; collector := None;
                cancelled := false; running := false |} /\
      (forall id', id' <> id -> workers wd' !! id' = workers wd !! id') /\
      sftp wd' = sftp wd
    else wd' = wd.
Proof.
  intros Hfirst Hid. subst id. set (id := ID (row old)) in *.
  unfold UpdateServer. rewrite Hfirst.
  destruct (if bool_decide (req_Password req <> "")
            then vault_Encrypt st (req_Password req) else Ok "") as [enc | e]; [| done].
  destruct (store_Save st (apply_update req enc old)); [done |].
  intros [= <- <- <-]. exists enc. cbv zeta. split; [done |]. split; [done |].
  destruct (credentials_changed req); [| done].
  set (new := apply_update req enc old).
  assert (Hnew : ID (row new) = id) by done.
  assert (Hgone : workers (RemoveWorker wd id) !! id = None /\
                  (forall id', id' <> id ->
                     workers (RemoveWorker wd id) !! id' = workers wd !! id') /\
                  sftp (RemoveWorker wd id) = sftp wd).
  { unfold RemoveWorker. destruct (workers wd !! id) as [w |] eqn:Hw.
    - destruct (Worker_Stop (ssh wd) w) as [s' w']. simpl.
      split; [apply lookup_delete_eq |]. split; [| done].
      intros id' Hne. by apply lookup_delete_ne.
    - done. }
  destruct Hgone as (Hnone & Hothers & Hsftp).
  unfold AddWorker. cbn [ID]. fold id. rewrite Hnone. cbn [workers sftp].
  split; [apply lookup_insert_eq |]. split; [| done].
  intros id' Hne. rewrite lookup_insert_ne by done. by apply Hothers.
Qed.

Lemma UpdateServer_restarts_on_credentials_witness :
  (exists wd' dto,
     UpdateServer world7 store7 (Ok 7%N) (Ok req_port) = (wd', Served StatusOK dto) /\
     workers wd' !! 7%N =
       Some {| server := row (apply_update req_port "" row7); wpassword := "pw";
               sshClient := None; collector := None;
               cancelled := false; running := false |}) /\
  UpdateServer world7 store7 (Ok 7%N) (Ok req_rename) =
    (world7, Served StatusOK (ToDTO (apply_update req_rename "" row7))).
Proof.
  split.
  - destruct (UpdateServer world7 store7 (Ok 7%N) (Ok req_port)) as [wd' resp] eqn:E.
    assert (Hresp : resp = Served StatusOK (ToDTO (apply_update req_port "" row7)))
      by (vm_compute in E; by injection E as <- <-).
    subst resp. eexists wd', _. split; [reflexivity |].
    destruct (UpdateServer_restarts_on_credentials world7 wd' store7 7%N req_port row7
                _ _ eq_refl eq_refl E) as (enc & _ & _ & Hw).
    simpl in Hw. apply Hw.
  - destruct (UpdateServer world7 store7 (Ok 7%N) (Ok req_rename)) as [wd' resp] eqn:E.
    assert (Hresp : resp = Served StatusOK (ToDTO (apply_update req_rename "" row7)))
      by (vm_compute in E; by injection E as <- <-).
    subst resp.
    destruct (UpdateServer_restarts_on_credentials world7 wd' store7 7%N req_rename row7
                _ _ eq_refl eq_refl E) as (enc & _ & _ & Hw).
    simpl in Hw. by rewrite Hw.
Defined.

(** ** The hub: rooms and readers *)

Lemma hub7_ok : hub_ok hub7.
Proof.
  split.
  - intros c [b Hb]. simpl in Hb.
    destruct (decide (c = 1%nat)) as [-> | H1]; [by exists cl_sub |].
    by rewrite lookup_singleton_ne in Hb.
  - intros serverID room c Hroom Hc. simpl in Hroom.
    destruct (decide (serverID = 7%N)) as [-> | H7];
      [| by rewrite lookup_singleton_ne in Hroom].
    rewrite lookup_singleton_eq in Hroom. injection Hroom as <-.
    destruct (decide (c = 1%nat)) as [-> | H1].
    + split; [by exists true |]. exists cl_sub. split; [done |]. cbn [cl_sub subscriptions]. by apply elem_of_singleton_2.
    + rewrite lookup_singleton_ne in Hc by done. by destruct Hc.
  - intros c cl Hcl. simpl in Hcl.
    destruct (decide (c = 1%nat)) as [-> | H1].
    + rewrite lookup_singleton_eq in Hcl. injection Hcl as <-. simpl. unfold chan_cap. lia.
    + by rewrite lookup_singleton_ne in Hcl.
  - simpl. lia.
Qed.

(** X15. A metrics sample is published twice to the clients subscribed
    to its server: once by the room fan-out inside [BroadcastMetrics] and
    once more when the dispatch loop takes the same envelope off the
    broadcast buffer. When the publisher's call is followed by the
    dispatch round, a subscriber with room for two envelopes ends up with
    both copies at the tail of its queue; a registered client that is not
    in the room gets one. *)
Theorem subscriber_gets_metrics_twice (marshal : marshaler) (h : HubState)
    (metrics : MetricSnapshot) (data : frame) (room : gmap loc bool)
    (c : loc) (cl : Client) :
  hub_ok h -> hub_broadcast h = [] ->
  marshal (MetricsMessage metrics) = Ok data ->
  hub_rooms h !! ServerID metrics = Some room -> is_Some (room !! c) ->
  hub_heap h !! c = Some cl -> (length (send cl) + 2 <= chan_cap)%nat ->
  exists h1 tr1 h2 tr2,
    BroadcastMetrics marshal h metrics = Published h1 tr1 /\
    Run_step h1 EvBroadcast = Some (h2, tr2) /\
    hub_heap h2 !! c = Some (push (push cl data) data) /\
    (forall c' cl', is_Some (hub_clients h !! c') -> room !! c' = None ->
       hub_heap h !! c' = Some cl' -> (length (send cl') < chan_cap)%nat ->
       hub_heap h2 !! c' = Some (push cl' data)).
Proof.
  intros Hok Hempty Hmar Hroom Hmember Hcl Hlen.
  destruct (ok_rooms h Hok _ room c Hroom Hmember) as (Hreg & cl0 & Hcl0 & _).
  destruct (ok_registered h Hok c Hreg) as (cl1 & Hcl1 & Hopen).
  assert (cl0 = cl) by congruence. assert (cl1 = cl) by congruence. subst cl0 cl1.
  set (h0 := set_broadcast h [data]).
  assert (Hok0 : hub_ok h0) by (apply hub_ok_set_broadcast; [done | simpl; unfold chan_cap; lia]).
  pose proof (NoDup_elements (dom room)) as Hnd.
  pose proof (fanout_lookup data (elements (dom room)) (hub_heap h)) as Hlook.
  destruct (broadcastToRoom_ok h0 (ServerID metrics) data Hok0) as [Hok1 _].
  destruct (fanout (elements (dom room)) data (hub_heap h)) as [heap1 tr1] eqn:Hfan.
  assert (Hbr : broadcastToRoom h0 (ServerID metrics) data = (set_heap h0 heap1, tr1)).
  { unfold broadcastToRoom. change (hub_rooms h0) with (hub_rooms h). rewrite Hroom.
    change (hub_heap h0) with (hub_heap h). by rewrite Hfan. }
  rewrite Hbr in Hok1. cbn [fst snd] in Hok1, Hlook.
  assert (Hpub : BroadcastMetrics marshal h metrics = Published (set_heap h0 heap1) tr1).
  { unfold BroadcastMetrics. rewrite Hmar, Hempty.
    rewrite chan_send_room by (simpl; unfold chan_cap; lia). cbn [app]. fold h0.
    by rewrite Hbr. }
  destruct (Run_broadcast_round (set_heap h0 heap1) data [] Hok1 eq_refl)
    as (h2 & tr2 & Hrun & _ & _ & _ & _ & Hdeliver & _).
  exists (set_heap h0 heap1), tr1, h2, tr2.
  split; [done |]. split; [exact Hrun |]. split.
  - assert (H1 : heap1 !! c = Some (push cl data)).
    { rewrite (Hlook c Hnd), Hcl.
      rewrite decide_True by (by rewrite elem_of_elements, elem_of_dom).
      simpl. rewrite (try_send_open _ _ Hopen).
      by destruct (Nat.ltb_spec (length (send cl)) chan_cap); [| lia]. }
    pose proof (Hdeliver c (push cl data) Hreg H1) as Hd.
    assert (Hl : (length (send (push cl data)) <? chan_cap)%nat = true).
    { apply Nat.ltb_lt. simpl. rewrite length_app. simpl. lia. }
    rewrite Hl in Hd. apply Hd.
  - intros c' cl' Hreg' Hout Hcl' Hlen'.
    assert (H1 : heap1 !! c' = Some cl').
    { rewrite (Hlook c' Hnd), Hcl'.
      rewrite decide_False; [done |].
      rewrite elem_of_elements, elem_of_dom, Hout. by intros []. }
    pose proof (Hdeliver c' cl' Hreg' H1) as Hd.
    apply Nat.ltb_lt in Hlen'. rewrite Hlen' in Hd. apply Hd.
Qed.

Lemma subscriber_gets_metrics_twice_witness :
  exists h1 tr1 h2 tr2,
    BroadcastMetrics marshal_tag hub7 (new_snapshot c_up 9) = Published h1 tr1 /\
    Run_step h1 EvBroadcast = Some (h2, tr2) /\
    hub_heap h2 !! 1%nat =
      Some (push (push cl_sub "server_metrics") "server_metrics").
Proof.
  destruct (subscriber_gets_metrics_twice marshal_tag hub7 (new_snapshot c_up 9)
              "server_metrics" {[ 1%nat := true ]} 1%nat cl_sub hub7_ok
              eq_refl eq_refl eq_refl ltac:(by exists true) eq_refl
              ltac:(simpl; unfold chan_cap; lia))
    as (h1 & tr1 & h2 & tr2 & H1 & H2 & H3 & _).
  by exists h1, tr1, h2, tr2.
Defined.

(** X16. Unregistering a registered client closes its queue, forgets it
    and takes it out of every room, while the rooms themselves stay (an
    emptied room is never deleted) and every other client keeps its
    registration, queue and memberships. The invariant still holds, so no
    later fan-out sends on the closed queue, and a second unregister of
    the same client is a no-op rather than a second [close]. *)
Theorem unregister_leaves_every_room (h : HubState) (c : loc) :
  hub_ok h -> is_Some (hub_clients h !! c) ->
  exists h' cl,
    Run_step h (EvUnregister c) = Some (h', []) /\
    hub_heap h !! c = Some cl /\
    hub_heap h' !! c = Some (close_send cl) /\
    hub_clients h' !! c = None /\
    (forall serverID room, hub_rooms h' !! serverID = Some room -> room !! c = None) /\
    (forall serverID, is_Some (hub_rooms h' !! serverID) <->
                      is_Some (hub_rooms h !! serverID)) /\
    (forall c', c' <> c ->
       hub_clients h' !! c' = hub_clients h !! c' /\
       hub_heap h' !! c' = hub_heap h !! c' /\
       forall serverID,
         hub_rooms h' !! serverID ≫= (fun room => room !! c') =
         hub_rooms h !! serverID ≫= (fun room => room !! c')) /\
    hub_ok h' /\
    Run_step h' (EvUnregister c) = Some (h', []).
Proof.
  intros Hok Hreg.
  destruct (ok_registered h Hok c Hreg) as (cl & Hcl & Hopen).
  destruct Hreg as [b Hb].
  assert (Hstep : Run_step h (EvUnregister c) =
            Some ({| hub_clients := delete c (hub_clients h);
                     hub_rooms := leave_rooms c (elements (subscriptions cl)) (hub_rooms h);
                     hub_broadcast := hub_broadcast h;
                     hub_heap := <[c := close_send cl]> (hub_heap h) |}, []))
    by (simpl; by rewrite Hb, Hcl).
  eexists _, cl. split; [exact Hstep |]. split; [done |]. cbn [hub_heap hub_clients hub_rooms].
  split; [apply lookup_insert_eq |]. split; [apply lookup_delete_eq |].
  split; [| split; [| split; [| split]]].
  - intros serverID room. rewrite leave_rooms_lookup. case_decide as Hin.
    + destruct (hub_rooms h !! serverID) as [room0 |]; [| done].
      simpl. intros [= <-]. apply lookup_delete_eq.
    + intros Hroom. destruct (room !! c) as [b' |] eqn:Hc; [| done].
      destruct (ok_rooms h Hok serverID room c Hroom ltac:(by eexists))
        as (_ & cl' & Hcl' & Hsub).
      exfalso. apply Hin. rewrite elem_of_elements. congruence.
  - intros serverID. rewrite leave_rooms_lookup. case_decide; [| done].
    by rewrite fmap_is_Some.
  - intros c' Hne. split; [by apply lookup_delete_ne |].
    split; [by apply lookup_insert_ne |].
    intros serverID. rewrite leave_rooms_lookup. case_decide; [| done].
    destruct (hub_rooms h !! serverID) as [room0 |]; [| done].
    simpl. by apply lookup_delete_ne.
  - apply (Run_step_ok h _ (EvUnregister c) [] Hok); [done | exact Hstep].
  - simpl. by rewrite lookup_delete_eq.
Qed.

Lemma unregister_leaves_every_room_witness :
  exists h' cl,
    Run_step hub7 (EvUnregister 1%nat) = Some (h', []) /\
    hub_heap hub7 !! 1%nat = Some cl /\
    hub_heap h' !! 1%nat = Some (close_send cl) /\
    hub_clients h' !! 1%nat = None /\
    (forall serverID room, hub_rooms h' !! serverID = Some room -> room !! 1%nat = None).
Proof.
  destruct (unregister_leaves_every_room hub7 1%nat hub7_ok ltac:(by exists true))
    as (h' & cl & H1 & H2 & H3 & H4 & H5 & _).
  by exists h', cl.
Defined.

Lemma hub_ok_queue (h : HubState) (c : loc) (cl : Client) (data : frame) :
  hub_ok h -> hub_heap h !! c = Some cl -> send_closed cl = false ->
  (length (send cl) < chan_cap)%nat ->
  hub_ok (set_heap h (<[c := push cl data]> (hub_heap h))).
Proof.
  intros [Hreg Hrooms Hq Hb] Hcl Hopen Hlen. split; simpl; [| | | done].
  - intros c' Hc'. destruct (decide (c' = c)) as [-> | Hne].
    + rewrite lookup_insert_eq. by eexists.
    + rewrite lookup_insert_ne by done. by apply Hreg.
  - intros serverID room c' Hroom Hc'.
    destruct (Hrooms serverID room c' Hroom Hc') as (Hr & cl' & Hcl' & Hsub).
    split; [done |]. destruct (decide (c' = c)) as [-> | Hne].
    + rewrite lookup_insert_eq. eexists. split; [done |]. simpl. congruence.
    + rewrite lookup_insert_ne by done. by exists cl'.
  - intros c' cl' Hcl'. destruct (decide (c' = c)) as [-> | Hne].
    + rewrite lookup_insert_eq in Hcl'. injection Hcl' as <-. simpl.
      rewrite length_app. simpl. lia.
    + rewrite lookup_insert_ne in Hcl' by done. by apply (Hq c').
Qed.

Lemma send_own_registered (h : HubState) (c : loc) (cl : Client) (data : frame) :
  hub_ok h -> hub_heap h !! c = Some cl -> send_closed cl = false ->
  exists h',
    handled_state (send_own h c data) = Some h' /\ hub_ok h' /\
    hub_clients h' = hub_clients h /\ hub_rooms h' = hub_rooms h /\
    (forall c', c' <> c -> hub_heap h' !! c' = hub_heap h !! c') /\
    exists cl', hub_heap h' !! c = Some cl' /\ subscriptions cl' = subscriptions cl /\
                (send cl' = send cl \/ send cl' = (send cl ++ [data])%list).
Proof.
  intros Hok Hcl Hopen. unfold send_own. rewrite Hcl, Hopen.
  destruct (Nat.ltb_spec (length (send cl)) chan_cap) as [Hlt | Hge]; simpl.
  - eexists. split; [done |]. split; [by apply hub_ok_queue |].
    split; [done |]. split; [done |]. split.
    + intros c' Hne. simpl. by rewrite lookup_insert_ne.
    + simpl. rewrite lookup_insert_eq. eexists. split; [done |]. split; [done |]. by right.
  - exists h. do 5 (split; [done |]). exists cl. split; [done |]. split; [done |]. by left.
Qed.

(** X17. While a client is registered, its reader never panics on its
    own queue: a message either is handled or leaves the reader parked on
    the full queue. At most one reply is queued, and only the client's own
    queue and subscriptions are touched. A [subscribe] that names a server
    takes effect - room membership and subscription set - before the
    acknowledgement is queued, so also when the reader parks; every other
    message, a [subscribe] for server 0 included, changes no room. *)
Theorem handleMessage_effects (enc : reply -> frame) (h : HubState) (c : loc)
    (cl : Client) (msg : inbound) :
  hub_ok h -> is_Some (hub_clients h !! c) -> hub_heap h !! c = Some cl ->
  exists h' cl',
    handled_state (handleMessage enc h c msg) = Some h' /\
    hub_ok h' /\
    hub_clients h' = hub_clients h /\
    (forall c', c' <> c -> hub_heap h' !! c' = hub_heap h !! c') /\
    hub_heap h' !! c = Some cl' /\
    (send cl' = send cl \/ exists data, send cl' = (send cl ++ [data])%list) /\
    match is_subscription msg with
    | Some serverID =>
        hub_rooms h' !! serverID ≫= (fun room => room !! c) = Some true /\
        subscriptions cl' = {[serverID]} ∪ subscriptions cl /\
        forall id, id <> serverID -> hub_rooms h' !! id = hub_rooms h !! id
    | None => hub_rooms h' = hub_rooms h /\ subscriptions cl' = subscriptions cl
    end.
Proof.
  intros Hok Hreg Hcl.
  destruct (ok_registered h Hok c Hreg) as (cl0 & Hcl0 & Hopen).
  assert (cl0 = cl) by congruence. subst cl0.
  assert (Hplain : forall data,
    is_subscription msg = None ->
    exists h' cl',
      handled_state (send_own h c data) = Some h' /\ hub_ok h' /\
      hub_clients h' = hub_clients h /\
      (forall c', c' <> c -> hub_heap h' !! c' = hub_heap h !! c') /\
      hub_heap h' !! c = Some cl' /\
      (send cl' = send cl \/ exists data, send cl' = (send cl ++ [data])%list) /\
      match is_subscription msg with
      | Some serverID =>
          hub_rooms h' !! serverID ≫= (fun room => room !! c) = Some true /\
          subscriptions cl' = {[serverID]} ∪ subscriptions cl /\
          forall id, id <> serverID -> hub_rooms h' !! id = hub_rooms h !! id
      | None => hub_rooms h' = hub_rooms h /\ subscriptions cl' = subscriptions cl
      end).
  { intros data ->.
    destruct (send_own_registered h c cl data Hok Hcl Hopen)
      as (h' & Hst & Hok' & Hcs & Hrs & Hothers & cl' & Hcl' & Hsubs & Hsend).
    exists h', cl'. do 5 (split; [done |]). split; [| done].
    destruct Hsend as [-> | ->]; [by left | right; by eexists]. }
  assert (Hnone : is_subscription msg = None ->
    exists h' cl',
      handled_state (Handled h) = Some h' /\ hub_ok h' /\
      hub_clients h' = hub_clients h /\
      (forall c', c' <> c -> hub_heap h' !! c' = hub_heap h !! c') /\
      hub_heap h' !! c = Some cl' /\
      (send cl' = send cl \/ exists data, send cl' = (send cl ++ [data])%list) /\
      match is_subscription msg with
      | Some serverID =>
          hub_rooms h' !! serverID ≫= (fun room => room !! c) = Some true /\
          subscriptions cl' = {[serverID]} ∪ subscriptions cl /\
          forall id, id <> serverID -> hub_rooms h' !! id = hub_rooms h !! id
      | None => hub_rooms h' = hub_rooms h /\ subscriptions cl' = subscriptions cl
      end).
  { intros ->. exists h, cl. do 5 (split; [done |]). split; [by left | done]. }
  destruct msg as [| type id]; [by apply Hplain |].
  unfold handleMessage. unfold is_subscription in *.
  destruct (String.eqb type "subscribe") eqn:Htype; cbn [andb] in *.
  - destruct (0 <? id)%N eqn:Hid; [| by apply Hnone].
    pose proof (Subscribe_ok h c id Hok Hreg) as Hok1.
    assert (Hcl1 : hub_heap (Subscribe h c id) !! c = Some (subscribe_client cl id)).
    { simpl. rewrite (lookup_alter_client _ c c _ cl Hcl). by rewrite decide_True. }
    destruct (send_own_registered (Subscribe h c id) c (subscribe_client cl id)
                (enc (AckReply "subscribed" id)) Hok1 Hcl1 Hopen)
      as (h' & Hst & Hok' & Hcs & Hrs & Hothers & cl' & Hcl' & Hsubs & Hsend).
    exists h', cl'. split; [done |]. split; [done |]. split; [done |].
    split.
    { intros c' Hne. rewrite Hothers by done. simpl. by rewrite lookup_alter_ne. }
    split; [done |]. split.
    { destruct Hsend as [-> | ->]; [by left | right; by eexists]. }
    rewrite Hrs. simpl. split; [| split; [done |]].
    + rewrite lookup_insert_eq. simpl. apply lookup_insert_eq.
    + intros id' Hne. by rewrite lookup_insert_ne.
  - destruct (String.eqb type "ping"); [by apply Hplain | by apply Hnone].
Qed.

Lemma handleMessage_effects_witness :
  exists h' cl',
    handled_state (handleMessage enc_tag hub2 2%nat (Inbound "subscribe" 7)) = Some h' /\
    hub_ok h' /\
    hub_heap h' !! 2%nat = Some cl' /\
    hub_rooms h' !! 7%N ≫= (fun room => room !! 2%nat) = Some true /\
    subscriptions cl' = {[7%N]} ∪ subscriptions cl_slow.
Proof.
  destruct (handleMessage_effects enc_tag hub2 2%nat cl_slow (Inbound "subscribe" 7)
              hub2_ok ltac:(by exists true) eq_refl)
    as (h' & cl' & H1 & H2 & _ & _ & H5 & _ & H7).
  change (is_subscription (Inbound "subscribe" 7)) with (Some 7%N) in H7.
  destruct H7 as (Hroom & Hsubs & _).
  exists h', cl'. by do 4 (split; [done |]).
Defined.

(** ** Recursive removal *)

Lemma node_induction (P : node -> Prop) :
  (forall info rderr entries, Forall P entries -> P (Node info rderr entries)) ->
  forall n, P n.
Proof.
  intros H. fix IH 1. intros [info rderr entries]. apply H.
  induction entries as [| c l IHl]; constructor; [apply IH | exact IHl].
Qed.

Lemma removeRecursive_eq join fail path info rderr entries :
  removeRecursive join fail path (Node info rderr entries) =
    match rderr with
    | Some e => ([], Some e)
    | None =>
        match remove_entries join fail path entries with
        | (ops, Some e) => (ops, Some e)
        | (ops, None) =>
            ((ops ++ [OpRemoveDirectory path])%list, fail (OpRemoveDirectory path))
        end
    end.
Proof.
  destruct rderr as [e |]; [reflexivity |].
  change (removeRecursive join fail path (Node info None entries))
    with (let '(ops, err) := remove_entries join fail path entries in
          match err with
          | Some e => (ops, Some e)
          | None =>
              ((ops ++ [OpRemoveDirectory path])%list, fail (OpRemoveDirectory path))
          end).
  by destruct (remove_entries join fail path entries) as [ops [e |]].
Qed.

Lemma remove_entries_cons join fail path entry l :
  remove_entries join fail path (entry :: l) =
    match (if st_isdir (node_info entry)
           then removeRecursive join fail (join path (st_name (node_info entry))) entry
           else ([OpRemove (join path (st_name (node_info entry)))],
                 fail (OpRemove (join path (st_name (node_info entry)))))) with
    | (ops, Some e) => (ops, Some e)
    | (ops, None) =>
        match remove_entries join fail path l with
        | (ops', err') => ((ops ++ ops')%list, err')
        end
    end.
Proof.
  change (remove_entries join fail path (entry :: l))
    with (let fullPath := join path (st_name (node_info entry)) in
          let '(ops, err) :=
            if st_isdir (node_info entry)
            then removeRecursive join fail fullPath entry
            else ([OpRemove fullPath], fail (OpRemove fullPath)) in
          match err with
          | Some e => (ops, Some e)
          | None =>
              let '(ops', err') := remove_entries join fail path l in
              ((ops ++ ops')%list, err')
          end).
  cbv zeta.
  by destruct (if st_isdir (node_info entry) then _ else _) as [ops [e |]].
Qed.

Lemma walk_node_eq join path info rderr entries :
  walk_node join path (Node info rderr entries) =
    StepOk path info ::
    (if st_isdir info then
       match rderr with
       | Some e => [StepErr path e]
       | None => walk_entries join path entries
       end
     else []).
Proof. reflexivity. Qed.

Lemma walk_entries_cons join path c l :
  walk_entries join path (c :: l) =
    (walk_node join (join path (st_name (node_info c))) c ++ walk_entries join path l)%list.
Proof. reflexivity. Qed.

Lemma stops_at_refusal_single fail op :
  stops_at_refusal fail [op] (fail op).
Proof.
  unfold stops_at_refusal. destruct (fail op) as [e |] eqn:Hop.
  - exists []. split; [constructor |]. right. by exists op.
  - by repeat constructor.
Qed.

Lemma stops_at_refusal_app fail o1 o2 err :
  Forall (granted fail) o1 -> stops_at_refusal fail o2 err ->
  stops_at_refusal fail (o1 ++ o2)%list err.
Proof.
  intros H1 H2. destruct err as [e |]; simpl in *.
  - destruct H2 as (done & Hdone & Hops). exists (o1 ++ done)%list.
    split; [by apply Forall_app_2 |].
    destruct Hops as [-> | (op & -> & Hop)]; [by left |].
    right. exists op. by rewrite app_assoc.
  - by apply Forall_app_2.
Qed.

Lemma remove_entries_trace join fail path (l : list node) :
  Forall (fun n => forall path ops err,
            removeRecursive join fail path n = (ops, err) ->
            stops_at_refusal fail ops err) l ->
  forall ops err, remove_entries join fail path l = (ops, err) ->
                  stops_at_refusal fail ops err.
Proof.
  induction 1 as [| c l Hc _ IH]; intros ops err Hrun.
  - injection Hrun as <- <-. constructor.
  - rewrite remove_entries_cons in Hrun.
    set (fullPath := join path (st_name (node_info c))) in *.
    assert (Hfirst : forall o1 e1,
              (if st_isdir (node_info c) then removeRecursive join fail fullPath c
               else ([OpRemove fullPath], fail (OpRemove fullPath))) = (o1, e1) ->
              stops_at_refusal fail o1 e1).
    { intros o1 e1. destruct (st_isdir (node_info c)); [apply Hc |].
      intros [= <- <-]. apply stops_at_refusal_single. }
    destruct (if st_isdir (node_info c) then _ else _) as [o1 [e1 |]].
    + injection Hrun as <- <-. by apply Hfirst.
    + destruct (remove_entries join fail path l) as [o2 e2].
      injection Hrun as <- <-.
      apply stops_at_refusal_app; [by apply (Hfirst o1 None) | by apply IH].
Qed.

Lemma removeRecursive_trace join fail (n : node) :
  forall path ops err,
    removeRecursive join fail path n = (ops, err) -> stops_at_refusal fail ops err.
Proof.
  induction n as [info rderr entries IH] using node_induction.
  intros path ops err Hrun. rewrite removeRecursive_eq in Hrun.
  destruct rderr as [e |].
  - injection Hrun as <- <-. exists []. split; [constructor | by left].
  - pose proof (remove_entries_trace join fail path entries IH) as Hent.
    destruct (remove_entries join fail path entries) as [o1 [e1 |]].
    + injection Hrun as <- <-. by apply Hent.
    + injection Hrun as <- <-.
      apply stops_at_refusal_app; [by apply (Hent o1 None) |].
      apply stops_at_refusal_single.
Qed.

Lemma remove_entries_visits join fail path (l : list node) :
  Forall (fun n => forall path ops,
            st_isdir (node_info n) = true ->
            removeRecursive join fail path n = (ops, None) ->
            ops ≡ₚ omap removal_of (walk_node join path n) /\
            length ops = length (walk_node join path n)) l ->
  forall ops, remove_entries join fail path l = (ops, None) ->
    ops ≡ₚ omap removal_of (walk_entries join path l) /\
    length ops = length (walk_entries join path l).
Proof.
  induction 1 as [| c l Hc _ IH]; intros ops Hrun.
  - by injection Hrun as <-.
  - rewrite remove_entries_cons in Hrun. rewrite walk_entries_cons, omap_app, length_app.
    set (fullPath := join path (st_name (node_info c))) in *.
    assert (Hfirst : forall o1,
              (if st_isdir (node_info c) then removeRecursive join fail fullPath c
               else ([OpRemove fullPath], fail (OpRemove fullPath))) = (o1, None) ->
              o1 ≡ₚ omap removal_of (walk_node join fullPath c) /\
              length o1 = length (walk_node join fullPath c)).
    { intros o1. destruct (st_isdir (node_info c)) eqn:Hd; [by apply Hc |].
      intros [= <- _]. destruct c as [info rderr entries]. simpl in Hd.
      rewrite walk_node_eq, Hd. simpl. by rewrite Hd. }
    destruct (if st_isdir (node_info c) then _ else _) as [o1 [e1 |]]; [done |].
    destruct (remove_entries join fail path l) as [o2 e2] eqn:Hrest.
    injection Hrun as <- ->.
    destruct (Hfirst o1 eq_refl) as [Hp1 Hl1]. destruct (IH o2 eq_refl) as [Hp2 Hl2].
    split; [by rewrite Hp1, Hp2 | rewrite length_app; lia].
Qed.

Lemma removeRecursive_visits join fail (n : node) :
  forall path ops,
    st_isdir (node_info n) = true ->
    removeRecursive join fail path n = (ops, None) ->
    ops ≡ₚ omap removal_of (walk_node join path n) /\
    length ops = length (walk_node join path n).
Proof.
  induction n as [info rderr entries IH] using node_induction.
  intros path ops Hd Hrun. simpl in Hd.
  rewrite removeRecursive_eq in Hrun. rewrite walk_node_eq, Hd.
  destruct rderr as [e |]; [done |].
  pose proof (remove_entries_visits join fail path entries IH) as Hent.
  destruct (remove_entries join fail path entries) as [o1 [e1 |]]; [done |].
  injection Hrun as <- _. destruct (Hent o1 eq_refl) as [Hp Hl].
  cbn [omap list_omap removal_of length]. rewrite Hd, length_app. simpl.
  split; [| lia]. rewrite <- Hp. symmetry. apply Permutation_cons_append.
Qed.

(** X18. When the recursive removal of a directory returns no error, it
    has sent exactly one removal request for every entry that the walker
    of the same tree visits (the directory itself included) - a file
    removal for a file, a directory removal for a directory - and nothing
    else; every request was granted, and the last one removed the
    directory itself. *)
Theorem removeRecursive_removes_what_walk_visits (join : string -> string -> string)
    (fail : fs_op -> option error) (path : string) (n : node) (ops : list fs_op) :
  st_isdir (node_info n) = true ->
  removeRecursive join fail path n = (ops, None) ->
  ops ≡ₚ omap removal_of (walk_node join path n) /\
  length ops = length (walk_node join path n) /\
  Forall (granted fail) ops /\
  last ops = Some (OpRemoveDirectory path).
Proof.
  intros Hd Hrun.
  destruct (removeRecursive_visits join fail n path ops Hd Hrun) as [Hp Hl].
  split; [done |]. split; [done |].
  split; [apply (removeRecursive_trace join fail n path ops None Hrun) |].
  destruct n as [info rderr entries]. rewrite removeRecursive_eq in Hrun.
  destruct rderr as [e |]; [done |].
  destruct (remove_entries join fail path entries) as [o1 [e1 |]]; [done |].
  injection Hrun as <- _. apply last_snoc.
Qed.

Lemma removeRecursive_removes_what_walk_visits_witness :
  removeRecursive slash_join (fun _ => None) "/data" tree_data =
    ([OpRemove "/data/a"; OpRemove "/data/b/x"; OpRemove "/data/b/y";
      OpRemoveDirectory "/data/b"; OpRemove "/data/c"; OpRemoveDirectory "/data"], None) /\
  length (walk_node slash_join "/data" tree_data) = 6%nat /\
  last (removeRecursive slash_join (fun _ => None) "/data" tree_data).1 =
    Some (OpRemoveDirectory "/data").
Proof.
  split; [reflexivity |].
  destruct (removeRecursive_removes_what_walk_visits slash_join (fun _ => None) "/data"
              tree_data _ eq_refl eq_refl) as (_ & Hl & _ & Hlast).
  split; [by rewrite <- Hl | exact Hlast].
Defined.

(** X19. When the recursive removal of a directory returns an error, it
    stopped at once: every request sent before the last one was granted
    (so those entries are gone), the last request is the one the server
    refused with the returned error - or, when the error came from
    listing a directory, nothing was sent after the granted requests -
    and no request follows the failure. *)
Theorem removeRecursive_stops_at_first_failure (join : string -> string -> string)
    (fail : fs_op -> option error) (path : string) (n : node) (ops : list fs_op)
    (e : error) :
  removeRecursive join fail path n = (ops, Some e) ->
  exists done,
    Forall (granted fail) done /\
    (ops = done \/ exists op, ops = (done ++ [op])%list /\ fail op = Some e).
Proof. intros Hrun. apply (removeRecursive_trace join fail n path ops (Some e) Hrun). Qed.

Lemma removeRecursive_stops_at_first_failure_witness :
  removeRecursive slash_join fail_y "/data" tree_data =
    ([OpRemove "/data/a"; OpRemove "/data/b/x"; OpRemove "/data/b/y"],
     Some "permission denied") /\
  exists done,
    Forall (granted fail_y) done /\
    ([OpRemove "/data/a"; OpRemove "/data/b/x"; OpRemove "/data/b/y"] = done \/
     exists op, [OpRemove "/data/a"; OpRemove "/data/b/x"; OpRemove "/data/b/y"] =
                  (done ++ [op])%list /\ fail_y op = Some "permission denied").
Proof.
  split; [reflexivity |].
  apply (removeRecursive_stops_at_first_failure slash_join fail_y "/data" tree_data).
  reflexivity.
Defined.

(** ** The file-channel pool *)

(** X20. Removing a server's file channel from its pool closes the
    channel and forgets the entry but leaves the transport pool alone.
    The next acquisition therefore opens a new channel over the session
    that is still pooled and marked connected - without dialing, whatever
    the dialer would answer - and installs it as a new object. *)
Theorem SFTPPool_reopens_over_pooled_session (dial : dialer) (open : sftp_opener)
    (now : Z) (s : SSHState) (f : SFTPState) (srv : Server) (pw : string)
    (l sl : loc) (fc : SFTPClient) (c : SSHClient) (ch : sftp_chan) :
  sftp_clients f !! ID srv = Some l -> sftp_heap f !! l = Some fc ->
  ssh_clients s !! ID srv = Some sl -> ssh_heap s !! sl = Some c ->
  connected c = true -> open (client c) = Ok ch ->
  let f1 := SFTPPool_RemoveClient f (ID srv) in
  sftp_clients f1 !! ID srv = None /\
  sftp_heap f1 !! l = Some (SFTPClient_Close fc) /\
  (forall id, id <> ID srv -> sftp_clients f1 !! id = sftp_clients f !! id) /\
  exists l',
    l' <> l /\
    SFTPPool_GetClient dial open now s f1 srv pw =
      (ssh_store s sl (set_lastUsed c now),
       {| sftp_heap :=
            <[l' := {| sftp_sshClient := sl; sftpClient := Some ch |}]> (sftp_heap f1);
          sftp_clients := <[ID srv := l']> (sftp_clients f1) |},
       Ok l').
Proof.
  intros Hl Hfc Hsl Hc Hconn Hopen f1. subst f1.
  assert (Hf1 : SFTPPool_RemoveClient f (ID srv) =
                {| sftp_heap := alter SFTPClient_Close l (sftp_heap f);
                   sftp_clients := delete (ID srv) (sftp_clients f) |})
    by (unfold SFTPPool_RemoveClient; by rewrite Hl).
  rewrite Hf1. cbn [sftp_clients sftp_heap].
  split; [apply lookup_delete_eq |].
  split; [by rewrite lookup_alter_eq, Hfc |].
  split; [intros id Hne; by apply lookup_delete_ne |].
  eexists. split; [| unfold SFTPPool_GetClient, sftp_cached; cbn [sftp_clients sftp_heap];
                     rewrite lookup_delete_eq;
                     unfold SSHPool_GetClient, ssh_cached; rewrite Hsl, Hc, Hconn;
                     unfold GetUnderlyingClient, ssh_store; cbn [ssh_heap];
                     rewrite lookup_insert_eq; cbn [client set_lastUsed];
                     rewrite Hopen; reflexivity].
  intros Heq. apply (is_fresh (dom (alter SFTPClient_Close l (sftp_heap f)))).
  rewrite Heq. apply elem_of_dom. rewrite lookup_alter_eq, Hfc. by eexists.
Qed.

Lemma SFTPPool_reopens_over_pooled_session_witness :
  let f1 := SFTPPool_RemoveClient sftp_one 7 in
  sftp_clients f1 !! 7%N = None /\
  exists l',
    l' <> 0%nat /\
    SFTPPool_GetClient dial_fail open_ok 9 (ssh world7) f1 srv7 "pw" =
      (ssh_store (ssh world7) 0%nat (set_lastUsed c_up 9),
       {| sftp_heap :=
            <[l' := {| sftp_sshClient := 0%nat; sftpClient := Some 4%nat |}]> (sftp_heap f1);
          sftp_clients := <[7%N := l']> (sftp_clients f1) |},
       Ok l').
Proof.
  pose proof (SFTPPool_reopens_over_pooled_session dial_fail open_ok 9 (ssh world7) sftp_one
                srv7 "pw" 0%nat 0%nat _ c_up 4%nat eq_refl eq_refl eq_refl eq_refl
                eq_refl eq_refl) as H.
  cbv zeta in H |- *. destruct H as (H1 & _ & _ & H4). by split.
Defined.

(** ** Batch uploads *)

Section UploadFacts.
Context {R : Type}.
Variable join : string -> string -> string.
Variable SFTP_UploadFile : R -> string -> FileHeader -> R * option error.

Lemma upload_folder_loop_accounts basePath relativePaths (files : list FileHeader) :
  forall i r uploaded failed r' uploaded' failed',
    upload_folder_loop join SFTP_UploadFile basePath relativePaths i files r uploaded failed
      = (r', uploaded', failed') ->
    exists u f,
      uploaded' = (uploaded ++ u)%list /\ failed' = (failed ++ f)%list /\
      (length u + length f = length files)%nat /\
      sublist f (fh_Filename <$> files).
Proof.
  induction files as [| fh rest IH]; intros i r uploaded failed r' uploaded' failed' Hrun.
  - injection Hrun as <- <- <-. exists [], []. by rewrite !app_nil_r.
  - cbn [upload_folder_loop] in Hrun.
    destruct (fh_opens fh); cbn [negb] in Hrun.
    + destruct (SFTP_UploadFile r _ fh) as [r1 [e |]].
      * destruct (IH _ _ _ _ _ _ _ Hrun) as (u & f & -> & -> & Hlen & Hsub).
        exists u, (fh_Filename fh :: f). rewrite <- app_assoc.
        split; [done |]. split; [done |]. split; [simpl; lia |].
        by apply sublist_skip.
      * destruct (IH _ _ _ _ _ _ _ Hrun) as (u & f & -> & -> & Hlen & Hsub).
        eexists (_ :: u), f. rewrite <- app_assoc.
        split; [done |]. split; [done |]. split; [simpl; lia |].
        by apply sublist_cons.
    + destruct (IH _ _ _ _ _ _ _ Hrun) as (u & f & -> & -> & Hlen & Hsub).
      exists u, (fh_Filename fh :: f). rewrite <- app_assoc.
      split; [done |]. split; [done |]. split; [simpl; lia |].
      by apply sublist_skip.
Qed.

Lemma upload_files_loop_accounts basePath (files : list FileHeader) :
  forall r uploaded failed r' uploaded' failed',
    upload_files_loop join SFTP_UploadFile basePath files r uploaded failed
      = (r', uploaded', failed') ->
    exists u f,
      uploaded' = (uploaded ++ u)%list /\ failed' = (failed ++ f)%list /\
      (length u + length f = length files)%nat /\
      sublist f (fh_Filename <$> files) /\ sublist u (fh_Filename <$> files).
Proof.
  induction files as [| fh rest IH]; intros r uploaded failed r' uploaded' failed' Hrun.
  - injection Hrun as <- <- <-. exists [], []. by rewrite !app_nil_r.
  - cbn [upload_files_loop] in Hrun.
    destruct (fh_opens fh); cbn [negb] in Hrun.
    + destruct (SFTP_UploadFile r _ fh) as [r1 [e |]].
      * destruct (IH _ _ _ _ _ _ Hrun) as (u & f & -> & -> & Hlen & Hsub & Hsub').
        exists u, (fh_Filename fh :: f). rewrite <- app_assoc.
        split; [done |]. split; [done |]. split; [simpl; lia |].
        split; [by apply sublist_skip | by apply sublist_cons].
      * destruct (IH _ _ _ _ _ _ Hrun) as (u & f & -> & -> & Hlen & Hsub & Hsub').
        exists (fh_Filename fh :: u), f. rewrite <- app_assoc.
        split; [done |]. split; [done |]. split; [simpl; lia |].
        split; [by apply sublist_cons | by apply sublist_skip].
    + destruct (IH _ _ _ _ _ _ Hrun) as (u & f & -> & -> & Hlen & Hsub & Hsub').
      exists u, (fh_Filename fh :: f). rewrite <- app_assoc.
      split; [done |]. split; [done |]. split; [simpl; lia |].
      split; [by apply sublist_skip | by apply sublist_cons].
Qed.


End UploadFacts.


(** ** Configuration *)

Lemma digit_not_sign (d : Z) :
  0 <= d <= 9 ->
  is_char (ascii_of_N (Z.to_N (48 + d))) "+" = false /\
  is_char (ascii_of_N (Z.to_N (48 + d))) "-" = false.
Proof.
  intros H. assert (Hd : d = 0 \/ d = 1 \/ d = 2 \/ d = 3 \/ d = 4 \/ d = 5 \/
                         d = 6 \/ d = 7 \/ d = 8 \/ d = 9) by lia.
  repeat (destruct Hd as [-> | Hd]; [by split |]). by subst.
Qed.

Lemma Atoi_numeral (ds : list Z) :
  is_numeral ds -> digits_value ds 0 < 2 ^ 63 ->
  Atoi (digits_string ds) = (digits_value ds 0, None).
Proof.
  intros Hnum Hfit. pose proof (ParseUint_numeral ds Hnum) as Hu.
  destruct Hnum as [Hne Hds]. destruct ds as [| d ds]; [done |].
  apply Forall_cons in Hds as Hd. destruct Hd as [Hd _].
  destruct (digit_not_sign d Hd) as [Hplus Hminus].
  unfold Atoi, ParseInt. cbn [digits_string]. rewrite Hplus, Hminus.
  change (String (ascii_of_N (Z.to_N (48 + d))) (digits_string ds))
    with (digits_string (d :: ds)).
  rewrite Hu. unfold uint64_of.
  assert (Hmax : maxUint64 = 18446744073709551615) by reflexivity.
  destruct (Z.leb_spec (digits_value (d :: ds) 0) maxUint64) as [Hle | Hgt]; [| lia].
  rewrite Z.min_l by done. cbn [negb andb].
  destruct (Z.leb_spec (2 ^ 63) (digits_value (d :: ds) 0)); [lia | done].
Qed.

Lemma Atoi_syntax_zero (v : string) :
  (Atoi v).2 = Some ErrSyntax -> (Atoi v).1 = 0.
Proof.
  unfold Atoi, ParseInt. destruct v as [| a rest]; [done |].
  destruct (if is_char a "+" then (false, rest)
            else if is_char a "-" then (true, rest) else (false, String a rest))
    as [neg digits].
  destruct (ParseUint digits) as [un [[] |]]; [done | |].
  - destruct (negb neg && (2 ^ 63 <=? un)); [done |].
    by destruct (neg && (2 ^ 63 <? un)).
  - destruct (negb neg && (2 ^ 63 <=? un)); [done |].
    by destruct (neg && (2 ^ 63 <? un)).
Qed.

(** X22. [Load] never fails. Each of its five durations is the default
    when the variable is not set and the given number of seconds when it
    is set to a decimal number (that fits in nanoseconds); when it is set
    to text that is not a number, the duration is silently zero, not the
    default. *)
Theorem Load_durations (env : string -> option string) (key : string) (dflt : Z)
    (field : Config -> Z) :
  In (key, dflt, field) duration_settings ->
  (Load env).2 = None /\
  (env key = None -> field (Load env).1 = dflt * 1000000000) /\
  (forall ds, env key = Some (digits_string ds) -> is_numeral ds ->
     digits_value ds 0 * 1000000000 < 2 ^ 63 ->
     field (Load env).1 = digits_value ds 0 * 1000000000) /\
  (forall v, env key = Some v -> (Atoi v).2 = Some ErrSyntax -> field (Load env).1 = 0).
Proof.
  intros Hin. split; [done |].
  assert (Hfield : exists d, field (Load env).1 = seconds (Atoi (getEnv env key d)).1 /\
                             (Atoi d).1 = dflt).
  { simpl in Hin.
    destruct Hin as [E | [E | [E | [E | [E | []]]]]]; injection E as <- <- <-;
      eexists; split; reflexivity. }
  destruct Hfield as (d & -> & Hd). unfold getEnv.
  split; [| split].
  - intros ->. rewrite Hd. unfold seconds. apply wrap64_small. unfold in_int64.
    simpl in Hin.
    destruct Hin as [E | [E | [E | [E | [E | []]]]]]; injection E as _ <- _; lia.
  - intros ds -> Hnum Hfit.
    assert (Hpos : 0 <= digits_value ds 0)
      by (apply (digits_value_ge ds (proj2 Hnum) 0); lia).
    rewrite Atoi_numeral by (done || lia). unfold seconds. apply wrap64_small.
    unfold in_int64. lia.
  - intros v -> Hsyn. by rewrite (Atoi_syntax_zero v Hsyn).
Qed.

Lemma Load_durations_witness :
  MetricsInterval (Load env_bad).1 = 0 /\
  SSHTimeout (Load env_bad).1 = 45 * 1000000000 /\
  WSPongWait (Load env_bad).1 = 60 * 1000000000.
Proof.
  split; [| split].
  - apply (proj2 (proj2 (proj2 (Load_durations env_bad "METRICS_INTERVAL" 10 MetricsInterval
                                  ltac:(right; right; left; reflexivity)))) "10s");
      reflexivity.
  - apply (proj1 (proj2 (proj2 (Load_durations env_bad "SSH_TIMEOUT" 30 SSHTimeout
                                  ltac:(left; reflexivity)))) [4; 5]);
      [reflexivity | split; [discriminate | repeat constructor; lia] | vm_compute; reflexivity].
  - apply (proj1 (proj2 (Load_durations env_bad "WS_PONG_WAIT" 60 WSPongWait
                           ltac:(do 4 right; left; reflexivity)))).
    reflexivity.
Defined.

(** ** Rooms and start-up *)

(** X23. No operation of the hub ever deletes a room: once a server has
    been subscribed to, its room stays in the table through every
    unsubscribe, unregister, registration and broadcast, also when it has
    become empty. In particular a subscribe followed by an unsubscribe
    leaves the client outside the room but the room in place. *)
Theorem rooms_are_never_deleted (marshal : marshaler) (h : HubState) (serverID : N) :
  is_Some (hub_rooms h !! serverID) ->
  (forall ev h' tr, Run_step h ev = Some (h', tr) -> is_Some (hub_rooms h' !! serverID)) /\
  (forall c id, is_Some (hub_rooms (Subscribe h c id) !! serverID)) /\
  (forall c id, is_Some (hub_rooms (Unsubscribe h c id) !! serverID)) /\
  (forall id data, is_Some (hub_rooms (broadcastToRoom h id data).1 !! serverID)) /\
  (forall metrics h' tr, BroadcastMetrics marshal h metrics = Published h' tr ->
     is_Some (hub_rooms h' !! serverID)) /\
  (forall id status h' tr, BroadcastServerStatus marshal h id status = Published h' tr ->
     is_Some (hub_rooms h' !! serverID)) /\
  (forall c, exists room,
     hub_rooms (Unsubscribe (Subscribe h c serverID) c serverID) !! serverID = Some room /\
     room !! c = None).
Proof.
  intros Hroom.
  assert (Hbr : forall h0 id data,
            hub_rooms (broadcastToRoom h0 id data).1 = hub_rooms h0).
  { intros h0 id data. unfold broadcastToRoom.
    destruct (hub_rooms h0 !! id) as [room |]; [| done].
    by destruct (fanout (elements (dom room)) data (hub_heap h0)). }
  split; [| split; [| split; [| split; [| split; [| split]]]]].
  - intros ev h' tr Hstep. destruct ev as [c | c |]; simpl in Hstep.
    + by injection Hstep as <- <-.
    + destruct (hub_clients h !! c); [| by injection Hstep as <- <-].
      destruct (hub_heap h !! c) as [cl |]; [| by injection Hstep as <- <-].
      injection Hstep as <- <-. simpl. rewrite leave_rooms_lookup.
      case_decide; [by rewrite fmap_is_Some | done].
    + destruct (hub_broadcast h) as [| message rest]; [done |].
      destruct (fanout _ message (hub_heap h)) as [heap tr'].
      by injection Hstep as <- <-.
  - intros c id. simpl. destruct (decide (id = serverID)) as [-> | Hne].
    + rewrite lookup_insert_eq. by eexists.
    + by rewrite lookup_insert_ne.
  - intros c id. simpl. destruct (decide (id = serverID)) as [-> | Hne].
    + rewrite lookup_alter_eq. by rewrite fmap_is_Some.
    + by rewrite lookup_alter_ne.
  - intros id data. by rewrite Hbr.
  - intros metrics h' tr. unfold BroadcastMetrics.
    destruct (marshal (MetricsMessage metrics)) as [data | e]; [| by intros [= <- <-]].
    destruct (chan_send (hub_broadcast h) data) as [buf |]; [| done].
    pose proof (Hbr (set_broadcast h buf) (ServerID metrics) data) as Hb.
    destruct (broadcastToRoom (set_broadcast h buf) (ServerID metrics) data) as [h1 tr1].
    intros [= <- <-]. simpl in Hb. by rewrite Hb.
  - intros id status h' tr. unfold BroadcastServerStatus.
    destruct (marshal (StatusMessage id status)) as [data | e]; [| by intros [= <- <-]].
    destruct (chan_send (hub_broadcast h) data) as [buf |]; [| done].
    by intros [= <- <-].
  - intros c. simpl. rewrite lookup_alter_eq, lookup_insert_eq. simpl.
    eexists. split; [done |]. apply lookup_delete_eq.
Qed.

Lemma rooms_are_never_deleted_witness :
  exists h',
    Run_step hub7 (EvUnregister 1%nat) = Some (h', []) /\
    is_Some (hub_rooms h' !! 7%N).
Proof.
  eexists. split; [reflexivity |].
  apply (proj1 (rooms_are_never_deleted marshal_tag hub7 7%N ltac:(by eexists))
           (EvUnregister 1%nat) _ []).
  reflexivity.
Defined.

Lemma start_one_workers decrypt wd server id :
  workers (start_one decrypt wd server) !! id =
    match workers wd !! id with
    | Some w => Some w
    | None =>
        match decrypt (Password server) with
        | Ok password =>
            if bool_decide (ID server = id)
            then Some {| server := server; wpassword := password; sshClient := None;
                         collector := None; cancelled := false; running := false |}
            else None
        | Err _ => None
        end
    end /\
  ssh (start_one decrypt wd server) = ssh wd /\
  sftp (start_one decrypt wd server) = sftp wd.
Proof.
  unfold start_one, AddWorker.
  destruct (decrypt (Password server)) as [password | e].
  - destruct (workers wd !! ID server) as [w0 |] eqn:Hw0.
    + split; [| done]. destruct (workers wd !! id) as [w |] eqn:Hw; [done |].
      case_bool_decide; [congruence | done].
    + simpl. split; [| done]. case_bool_decide as Hid.
      * subst id. by rewrite lookup_insert_eq, Hw0.
      * rewrite lookup_insert_ne by done. by destruct (workers wd !! id).
  - split; [| done]. by destruct (workers wd !! id).
Qed.

(** X24. [StartAll] returns nil whenever the rows could be read, also
    when passwords fail to decrypt: such rows are skipped without a
    trace. Afterwards a server that had no worker has one exactly when
    some row with its id decrypts, and then the worker holds the first
    such row with its clear password; workers that existed before are
    kept, and neither pool of connections is touched. *)
Theorem StartAll_starts_decryptable_rows (wd : World) (servers : list Server)
    (decrypt : string -> result string) :
  let wd' := (StartAll wd (Ok servers) decrypt).1 in
  (StartAll wd (Ok servers) decrypt).2 = None /\
  ssh wd' = ssh wd /\ sftp wd' = sftp wd /\
  forall id,
    workers wd' !! id =
      match workers wd !! id with
      | Some w => Some w
      | None =>
          (fun '(server, password) =>
             {| server := server; wpassword := password; sshClient := None;
                collector := None; cancelled := false; running := false |})
          <$> first_startable decrypt id servers
      end.
Proof.
  cbv zeta. split; [done |]. unfold StartAll. cbn [fst].
  revert wd. induction servers as [| server rest IH]; intros wd.
  - split; [done |]. split; [done |]. intros id. cbn [fold_left first_startable].
    by destruct (workers wd !! id).
  - cbn [fold_left]. destruct (IH (start_one decrypt wd server)) as (Hssh & Hsftp & Hw).
    destruct (start_one_workers decrypt wd server 0%N) as (_ & Hssh1 & Hsftp1).
    split; [congruence |]. split; [congruence |].
    intros id. rewrite Hw.
    destruct (start_one_workers decrypt wd server id) as (-> & _ & _).
    destruct (workers wd !! id) as [w |]; [done |]. cbn [first_startable].
    destruct (decrypt (Password server)) as [password | e]; [| done].
    by case_bool_decide.
Qed.

Lemma StartAll_starts_decryptable_rows_witness :
  (StartAll world7 (Ok [srv8_bad; srv7; srv8]) decrypt_enc).2 = None /\
  workers (StartAll world7 (Ok [srv8_bad; srv7; srv8]) decrypt_enc).1 !! 8%N =
    Some {| server := srv8; wpassword := "pw"; sshClient := None; collector := None;
            cancelled := false; running := false |} /\
  workers (StartAll world7 (Ok [srv8_bad; srv7; srv8]) decrypt_enc).1 !! 7%N =
    workers world7 !! 7%N.
Proof.
  pose proof (StartAll_starts_decryptable_rows world7 [srv8_bad; srv7; srv8] decrypt_enc)
    as H.
  cbv zeta in H. destruct H as (Hnil & _ & _ & Hw).
  split; [exact Hnil |]. split; [by rewrite (Hw 8%N) | by rewrite (Hw 7%N)].
Defined.

Lemma try_send_grows (cl : Client) (m : frame) :
  cl_ID (try_send cl m).1 = cl_ID cl /\
  (send (try_send cl m).1 = send cl \/
   exists m', send (try_send cl m).1 = (send cl ++ [m'])%list).
Proof.
  unfold try_send. destruct (send_closed cl); [by split; [| left] |].
  destruct (length (send cl) <? chan_cap)%nat; simpl.
  - split; [done |]. right. by exists m.
  - split; [done | by left].
Qed.

Lemma fanout_grows (h : HubState) (targets : list loc) (m : frame) :
  NoDup targets -> queues_grow h (set_heap h (fanout targets m (hub_heap h)).1).
Proof.
  intros Hnd c cl Hcl. simpl. rewrite fanout_lookup by done. rewrite Hcl.
  case_decide; simpl.
  - eexists. split; [done |]. apply try_send_grows.
  - exists cl. split; [done |]. split; [done | by left].
Qed.

Lemma queues_grow_refl (h h' : HubState) :
  hub_heap h' = hub_heap h -> queues_grow h h'.
Proof.
  intros Heq c cl Hcl. exists cl. rewrite Heq. split; [done |]. split; [done | by left].
Qed.

Lemma broadcastToRoom_grows (h : HubState) (serverID : N) (data : frame) :
  queues_grow h (broadcastToRoom h serverID data).1.
Proof.
  unfold broadcastToRoom. destruct (hub_rooms h !! serverID) as [room |].
  - pose proof (fanout_grows h (elements (dom room)) data (NoDup_elements _)) as Hg.
    by destruct (fanout (elements (dom room)) data (hub_heap h)).
  - by apply queues_grow_refl.
Qed.

(** X25. The hub never removes or reorders what is queued for a client:
    every step of the dispatch loop, every room fan-out, every publish
    and every subscription change leaves each client's queue as it was or
    with exactly one envelope appended at the tail. *)
Theorem hub_only_appends (marshal : marshaler) (h : HubState) :
  (forall ev h' tr, Run_step h ev = Some (h', tr) -> queues_grow h h') /\
  (forall serverID data, queues_grow h (broadcastToRoom h serverID data).1) /\
  (forall metrics h' tr, BroadcastMetrics marshal h metrics = Published h' tr ->
     queues_grow h h') /\
  (forall serverID status h' tr,
     BroadcastServerStatus marshal h serverID status = Published h' tr ->
     queues_grow h h') /\
  (forall c serverID, queues_grow h (Subscribe h c serverID)) /\
  (forall c serverID, queues_grow h (Unsubscribe h c serverID)).
Proof.
  split; [| split; [| split; [| split; [| split]]]].
  - intros ev h' tr Hstep. destruct ev as [c | c |]; simpl in Hstep.
    + injection Hstep as <- <-. by apply queues_grow_refl.
    + destruct (hub_clients h !! c); [| injection Hstep as <- <-; by apply queues_grow_refl].
      destruct (hub_heap h !! c) as [cl0 |] eqn:Hc0;
        [| injection Hstep as <- <-; by apply queues_grow_refl].
      injection Hstep as <- <-. intros c' cl' Hcl'. simpl.
      destruct (decide (c' = c)) as [-> | Hne].
      * rewrite lookup_insert_eq. eexists. split; [done |].
        assert (cl' = cl0) by congruence. subst cl'. split; [done | by left].
      * rewrite lookup_insert_ne by done. exists cl'. split; [done |]. split; [done | by left].
    + destruct (hub_broadcast h) as [| message rest]; [done |].
      pose proof (fanout_grows h (elements (dom (hub_clients h))) message
                    (NoDup_elements _)) as Hg.
      destruct (fanout _ message (hub_heap h)) as [heap tr'].
      by injection Hstep as <- <-.
  - apply broadcastToRoom_grows.
  - intros metrics h' tr. unfold BroadcastMetrics.
    destruct (marshal (MetricsMessage metrics)) as [data | e];
      [| intros [= <- <-]; by apply queues_grow_refl].
    destruct (chan_send (hub_broadcast h) data) as [buf |]; [| done].
    pose proof (broadcastToRoom_grows (set_broadcast h buf) (ServerID metrics) data) as Hg.
    destruct (broadcastToRoom (set_broadcast h buf) (ServerID metrics) data) as [h1 tr1].
    by intros [= <- <-].
  - intros serverID status h' tr. unfold BroadcastServerStatus.
    destruct (marshal (StatusMessage serverID status)) as [data | e];
      [| intros [= <- <-]; by apply queues_grow_refl].
    destruct (chan_send (hub_broadcast h) data) as [buf |]; [| done].
    intros [= <- <-]. by apply queues_grow_refl.
  - intros c serverID c' cl Hcl. simpl.
    rewrite (lookup_alter_client _ c c' _ cl Hcl). eexists. split; [done |].
    case_decide; (split; [done | by left]).
  - intros c serverID c' cl Hcl. simpl.
    rewrite (lookup_alter_client _ c c' _ cl Hcl). eexists. split; [done |].
    case_decide; (split; [done | by left]).
Qed.

Lemma CollectAll_identity (P : Probes) (now : Z) (c : SSHClient) :
  ServerID (CollectAll P now c).2.1 = ID (Server_ c) /\
  ServerName (CollectAll P now c).2.1 = Name (Server_ c) /\
  Timestamp (CollectAll P now c).2.1 = now /\
  (CollectAll P now c).2.2 = None.
Proof.
  unfold CollectAll.
  destruct (CollectCPU P c) as [c1 r1].
  destruct (CollectMemory P c1) as [c2 r2].
  destruct (CollectDisk P c2) as [c3 r3].
  destruct (CollectNetwork P c3) as [c4 r4].
  destruct (CollectUptime P c4) as [c5 r5].
  destruct r1 as [cpu | ?], r2 as [[[mt mu] mf] | ?], r3 as [[[dt du] df] | ?],
    r4 as [[rx tx] | ?], r5 as [up | ?]; simpl; repeat split; reflexivity.
Qed.

(** X26. A tick that finds the worker's session connected writes nothing
    to the database and broadcasts exactly one snapshot, also when every
    probe failed: the snapshot of that round, stamped with the tick's
    time and carrying the id and name of the server the pooled session
    was opened for. The loop state, reconnect counter included, is left
    as it was. *)
Theorem connected_tick_broadcasts_once (dial : dialer) (P : Probes) (now : Z)
    (s : SSHState) (lp : Loop) (l : loc) :
  sshClient (lw lp) = Some l -> collector (lw lp) = Some {| mc_client := l |} ->
  Worker_disconnected s (lw lp) = false ->
  exists c c' m,
    ssh_heap s !! l = Some c /\ IsConnected c = true /\
    CollectAll P now c = (c', (m, None)) /\
    Worker_tick dial P now s lp = Some (ssh_store s l c', lp, [HubBroadcastMetrics m]) /\
    ServerID m = ID (Server_ c) /\ ServerName m = Name (Server_ c) /\ Timestamp m = now.
Proof.
  intros Hl Hcol Hdisc. unfold Worker_tick. rewrite Hdisc.
  unfold Worker_disconnected in Hdisc. rewrite Hl in Hdisc.
  destruct (ssh_heap s !! l) as [c |] eqn:Hc; [| done].
  apply negb_false_iff in Hdisc.
  unfold Worker_collect. rewrite Hcol. cbn [mc_client]. rewrite Hc.
  destruct (CollectAll_identity P now c) as (Hid & Hname & Hstamp & Herr).
  destruct (CollectAll P now c) as [c' [m err]] eqn:Hall. simpl in Hid, Hname, Hstamp, Herr.
  subst err. exists c, c', m. cbn [fst snd]. by do 6 (split; [done |]).
Qed.

Lemma connected_tick_broadcasts_once_witness :
  exists c' m,
    Worker_tick dial_fail probes_down 9 (ssh world7)
      {| lw := {| server := srv7; wpassword := "pw"; sshClient := Some 0%nat;
                  collector := Some {| mc_client := 0%nat |};
                  cancelled := false; running := true |};
         reconnectAttempts := 2 |} =
      Some (ssh_store (ssh world7) 0%nat c',
            {| lw := {| server := srv7; wpassword := "pw"; sshClient := Some 0%nat;
                        collector := Some {| mc_client := 0%nat |};
                        cancelled := false; running := true |};
               reconnectAttempts := 2 |},
            [HubBroadcastMetrics m]) /\
    m = new_snapshot c_up 9.
Proof.
  destruct (connected_tick_broadcasts_once dial_fail probes_down 9 (ssh world7)
              {| lw := {| server := srv7; wpassword := "pw"; sshClient := Some 0%nat;
                          collector := Some {| mc_client := 0%nat |};
                          cancelled := false; running := true |};
                 reconnectAttempts := 2 |} 0%nat eq_refl eq_refl eq_refl)
    as (c & c' & m & Hc & _ & Hall & Htick & _).
  exists c', m. split; [exact Htick |].
  assert (Hup : c = c_up) by (apply (inj Some); rewrite <- Hc; reflexivity).
  subst c.
  assert (Hdown : CollectAll probes_down 9 c_up = (c_up, (new_snapshot c_up 9, None)))
    by reflexivity.
  rewrite Hdown in Hall. by injection Hall as _ <-.
Defined.
